(** * The market-data access engine of the DataBento MCP server

    A shallow embedding of [DataBentoClient] (quote cache, bar pipeline,
    4-hour aggregation, session classifier and its retrying transport) and of
    the tabular decoder [parseCSV] of the shared HTTP module, with the
    properties their specification states about them.

    Conventions of the embedding:
    - a JavaScript [number] that carries a price, a volume or an age is a
      binary64 float ([PrimFloat.float]); a time value (milliseconds since the
      epoch, as held by a [Date] or returned by [Date.now()]) is an integer of
      magnitude at most 8.64e15, as ECMAScript guarantees, and is kept in [Z].
      The one computation on time values that stays in [Z] is the age test of
      the cache, [Date.now() - cached.timestamp < CACHE_TTL]: the difference
      of two time values is an integer below 2^54, rounding to a float is
      monotone and exact below 2^53, so comparing with 30000 gives the same
      answer on the exact difference;
    - a JavaScript string is a [string]: a sequence of code units below 256;
    - a plain object used as a record of string fields, and the [Map] of the
      quote cache, are [gmap]s keyed by strings;
    - asynchronous methods are functions in a state-and-exception monad over
      the client's cache, the system clock and the network.

    The second half of the development covers the shared HTTP client and the
    API clients built on it (time series, batch, reference) and the batch
    tool handler. There a count, a limit or a size is an integer; what the
    host decides ([Date.parse] of a text, the offset of local time) and the
    decoding of a JSON text into typed jobs are parameters, and every
    statement holds for all of them. *)

From Stdlib Require Import ZArith Floats Lia Ascii.
From stdpp Require Import gmap strings list pretty.
From Equations Require Import Equations.

Local Open Scope Z_scope.

(** ** ECMAScript built-ins used by the client *)

Module JS.

(** *** Exceptions

    A thrown value is an error object with a name and a message; a
    template literal renders it as [name: message]. A computation either
    returns a value or throws. *)

Record Error : Type := mkError { error_name : string; message : string }.

Definition new_Error (msg : string) : Error := mkError "Error" msg.
Definition new_RangeError (msg : string) : Error := mkError "RangeError" msg.

Definition Error_toString (e : Error) : string :=
  error_name e +:+ ": " +:+ message e.

Inductive Outcome (A : Type) : Type :=
| Returned (a : A)
| Thrown (e : Error).
Arguments Returned {A} a.
Arguments Thrown {A} e.

(** *** Strings *)

(** [WhiteSpace] and [LineTerminator] code units below 256: TAB, LF, VT, FF,
    CR, SP and NBSP. These are what [String.prototype.trim] strips. *)
Definition isWhiteSpace (c : ascii) : bool :=
  let n := nat_of_ascii c in
  ((9 <=? n)%nat && (n <=? 13)%nat) || (n =? 32)%nat || (n =? 160)%nat.

Fixpoint trimStart (s : string) : string :=
  match s with
  | EmptyString => EmptyString
  | String c r => if isWhiteSpace c then trimStart r else s
  end.

Fixpoint trimEnd (s : string) : string :=
  match s with
  | EmptyString => EmptyString
  | String c r =>
      match trimEnd r with
      | EmptyString => if isWhiteSpace c then EmptyString else String c EmptyString
      | r' => String c r'
      end
  end.

(** [s.trim()] *)
Definition trim (s : string) : string := trimEnd (trimStart s).

(** [s.split(sep)] for a one-character separator: never the empty list. *)
Fixpoint split (sep : ascii) (s : string) : list string :=
  match s with
  | EmptyString => [EmptyString]
  | String c r =>
      if Ascii.eqb c sep then EmptyString :: split sep r
      else match split sep r with
           | h :: t => String c h :: t
           | [] => [String c EmptyString]
           end
  end.

(** Truthiness of a string: only the empty string is falsy. *)
Definition truthy (s : string) : bool :=
  match s with EmptyString => false | _ => true end.

Definition LF : ascii := ascii_of_nat 10.
Definition COMMA : ascii := ",".

(** *** Arrays *)

(** A relative index of [slice]: negative indices count from the end, and
    every index is clamped to the array. *)
Definition relative_index (len : nat) (i : Z) : nat :=
  if (i <? 0)%Z then Z.to_nat (Z.max (Z.of_nat len + i) 0)
  else Z.to_nat (Z.min i (Z.of_nat len)).

(** [a.slice(start, end)], and [a.slice(start)] when [end_] is [None]. *)
Definition slice {A : Type} (a : list A) (start : Z) (end_ : option Z)
    : list A :=
  let k := relative_index (length a) start in
  let final :=
    match end_ with
    | Some e => relative_index (length a) e
    | None => length a
    end in
  take (final - k) (drop k a).

(** *** Dates

    A [Date] holds a time value: an integral number of milliseconds since the
    epoch in the range of [MAX_TIME] either side of it, or NaN (an invalid
    date). Every operation that computes a time value passes it through
    [TimeClip]. *)

Inductive Date : Type :=
| InvalidDate
| DateAt (t : Z).

Definition msPerSecond : Z := 1000.
Definition msPerMinute : Z := 60000.
Definition msPerHour : Z := 3600000.
Definition msPerDay : Z := 86400000.
Definition MAX_TIME : Z := 8640000000000000.

(** The time values a [Date] can hold. *)
Definition time_value (t : Z) : Prop := - MAX_TIME <= t <= MAX_TIME.

Definition TimeClip (t : Z) : Date :=
  if Z.abs t >? MAX_TIME then InvalidDate else DateAt t.

Definition Day (t : Z) : Z := t / msPerDay.
Definition HourFromTime (t : Z) : Z := (t / msPerHour) mod 24.
Definition MakeTime (hour min sec ms : Z) : Z :=
  hour * msPerHour + min * msPerMinute + sec * msPerSecond + ms.
Definition MakeDate (day time : Z) : Z := day * msPerDay + time.

(** [d.getUTCHours()]: an hour of the day, or NaN ([None]) for an invalid
    date. *)
Definition getUTCHours (d : Date) : option Z :=
  match d with
  | InvalidDate => None
  | DateAt t => Some (HourFromTime t)
  end.

(** [d.setUTCHours(hour, min, sec, ms)], as the new state of [d]. *)
Definition setUTCHours (d : Date) (hour min sec ms : Z) : Date :=
  match d with
  | InvalidDate => InvalidDate
  | DateAt t => TimeClip (MakeDate (Day t) (MakeTime hour min sec ms))
  end.

(** Comparisons of a number that is an integer or NaN with an integer
    literal: every comparison with NaN is false. *)
Definition geb (x : option Z) (k : Z) : bool :=
  match x with Some v => (k <=? v)%Z | None => false end.
Definition ltb (x : option Z) (k : Z) : bool :=
  match x with Some v => (v <? k)%Z | None => false end.

(** [d.setDate(d.getDate() - days)]: the same local time [days] calendar days
    earlier. The local time zone is taken to have a constant offset from UTC
    (no daylight-saving change between the two days), so that the time value
    moves by whole days. *)
Definition setDate_back (d : Date) (days : Z) : Date :=
  match d with
  | InvalidDate => InvalidDate
  | DateAt t => TimeClip (t - days * msPerDay)
  end.

(** Year, month (1 to 12) and day of the month of a day number. *)
Definition civil_from_days (day : Z) : Z * Z * Z :=
  let z := day + 719468 in
  let era := z / 146097 in
  let doe := z - era * 146097 in
  let yoe := (doe - doe / 1460 + doe / 36524 - doe / 146096) / 365 in
  let doy := doe - (365 * yoe + yoe / 4 - yoe / 100) in
  let mp := (5 * doy + 2) / 153 in
  let d := doy - (153 * mp + 2) / 5 + 1 in
  let m := if (mp <? 10)%Z then mp + 3 else mp - 9 in
  (if (m <=? 2)%Z then yoe + era * 400 + 1 else yoe + era * 400, m, d).

Fixpoint zeros (n : nat) : string :=
  match n with
  | O => EmptyString
  | S k => "0" +:+ zeros k
  end.

(** A non-negative integer in decimal, padded with zeros to [width]. *)
Definition digits (width : nat) (n : Z) : string :=
  let s := pretty (Z.to_N n) in
  zeros (width - String.length s) +:+ s.

Definition year_string (y : Z) : string :=
  if ((0 <=? y) && (y <=? 9999))%Z then digits 4 y
  else if (y <? 0)%Z then "-" +:+ digits 6 (- y)
  else "+" +:+ digits 6 y.

(** [d.toISOString()]: throws a [RangeError] for an invalid date. *)
Definition toISOString (d : Date) : Outcome string :=
  match d with
  | InvalidDate => Thrown (new_RangeError "Invalid time value")
  | DateAt t =>
      let '(y, m, dd) := civil_from_days (Day t) in
      let ms := t mod msPerDay in
      Returned
        (year_string y +:+ "-" +:+ digits 2 m +:+ "-" +:+ digits 2 dd
         +:+ "T" +:+ digits 2 (ms / msPerHour)
         +:+ ":" +:+ digits 2 (ms mod msPerHour / msPerMinute)
         +:+ ":" +:+ digits 2 (ms mod msPerMinute / msPerSecond)
         +:+ "." +:+ digits 3 (ms mod msPerSecond) +:+ "Z")
  end.

(** *** Numbers

    A [number] is a binary64 float. [Z_to_number] and [decimal_to_number]
    round an integer, and a decimal [m * 10^e10], to the nearest float, ties
    to even; both are exact where the value is representable. *)

Definition number : Type := float.

Definition signed_zero (negative : bool) : number :=
  if negative then PrimFloat.neg_zero else PrimFloat.zero.

Definition Z_to_number (z : Z) : number :=
  SF2Prim (binary_normalize prec emax z 0 false).

Definition decimal_to_number (negative : bool) (m : N) (e10 : Z) : number :=
  match m with
  | N0 => signed_zero negative
  | Npos p =>
      if (0 <=? e10)%Z then
        SF2Prim (binary_round prec emax negative (p * Z.to_pos (10 ^ e10))%positive 0)
      else
        let '(q, e, l) :=
          SFdiv_core_binary prec emax (Zpos p) 0 (10 ^ (- e10)) 0 in
        SF2Prim (binary_round_aux prec emax negative q e l)
  end.

(** The integer part of a finite number, rounded toward minus infinity, and
    whether the number is that integer. *)
Definition floor_parts (m : positive) (e : Z) : Z * bool :=
  if (0 <=? e)%Z then (Zpos m * 2 ^ e, true)
  else (Zpos m / 2 ^ (- e), (Zpos m mod 2 ^ (- e) =? 0)%Z).

(** [Math.floor(x)] *)
Definition Math_floor (x : number) : number :=
  match Prim2SF x with
  | S754_finite s m e =>
      let '(q, exact) := floor_parts m e in
      if exact then x
      else if s then Z_to_number (- (q + 1))
      else if (q =? 0)%Z then PrimFloat.zero else Z_to_number q
  | _ => x
  end.

(** [Math.max(...values)] and [Math.min(...values)]: NaN as soon as one value
    is NaN; +0 is larger than -0. *)
Definition is_pos_zero (x : number) : bool :=
  match PrimFloat.classify x with PZero => true | _ => false end.
Definition is_neg_zero (x : number) : bool :=
  match PrimFloat.classify x with NZero => true | _ => false end.

Fixpoint Math_max_from (highest : number) (values : list number) : number :=
  match values with
  | [] => highest
  | x :: rest =>
      if PrimFloat.is_nan x then PrimFloat.nan
      else if is_pos_zero x && is_neg_zero highest then Math_max_from x rest
      else if (highest <? x)%float then Math_max_from x rest
      else Math_max_from highest rest
  end.
Definition Math_max (values : list number) : number :=
  Math_max_from PrimFloat.neg_infinity values.

Fixpoint Math_min_from (lowest : number) (values : list number) : number :=
  match values with
  | [] => lowest
  | x :: rest =>
      if PrimFloat.is_nan x then PrimFloat.nan
      else if is_neg_zero x && is_pos_zero lowest then Math_min_from x rest
      else if (x <? lowest)%float then Math_min_from x rest
      else Math_min_from lowest rest
  end.
Definition Math_min (values : list number) : number :=
  Math_min_from PrimFloat.infinity values.

(** [new Date(x)] for a number [x]: the time value is [x] truncated to an
    integer, or NaN when [x] is not finite or out of range. *)
Definition Date_of_number (x : number) : Date :=
  match Prim2SF x with
  | S754_zero _ => DateAt 0
  | S754_finite s m e =>
      let '(q, _) := floor_parts m e in TimeClip (if s then - q else q)
  | _ => InvalidDate
  end.

(** [d.getTime()] *)
Definition getTime (d : Date) : number :=
  match d with
  | InvalidDate => PrimFloat.nan
  | DateAt t => Z_to_number t
  end.

(** *** Parsing numbers

    [parseFloat] reads the longest prefix of the left-trimmed text that is a
    decimal literal (sign, digits, fraction, exponent, or Infinity);
    [parseInt], called without a radix, reads a sign and the longest run of
    decimal digits, or of hexadecimal digits after a 0x prefix. Each is NaN
    when no digit is found. *)

Definition digit_value (c : ascii) : option N :=
  let n := N_of_ascii c in
  if ((48 <=? n) && (n <=? 57))%N then Some (n - 48)%N else None.

Definition hex_digit_value (c : ascii) : option N :=
  let n := N_of_ascii c in
  if ((48 <=? n) && (n <=? 57))%N then Some (n - 48)%N
  else if ((65 <=? n) && (n <=? 70))%N then Some (n - 55)%N
  else if ((97 <=? n) && (n <=? 102))%N then Some (n - 87)%N
  else None.

(** Reads digits in the given radix from the front of [s] onto the value
    [acc]: the value, the number of digits read and the rest of the text. *)
Fixpoint read_digits (digit : ascii -> option N) (radix : N)
    (s : string) (acc : N) (count : nat) : N * nat * string :=
  match s with
  | EmptyString => (acc, count, s)
  | String c r =>
      match digit c with
      | Some d => read_digits digit radix r (acc * radix + d)%N (S count)
      | None => (acc, count, s)
      end
  end.

Definition read_sign (s : string) : bool * string :=
  match s with
  | String "-" r => (true, r)
  | String "+" r => (false, r)
  | _ => (false, s)
  end.

(** The exponent part that follows the digits of a decimal literal, if a
    complete one is there. *)
Definition read_exponent (s : string) : Z :=
  match s with
  | String c r =>
      if Ascii.eqb c "e" || Ascii.eqb c "E" then
        let '(negative, r1) := read_sign r in
        let '(e, count, _) := read_digits digit_value 10 r1 0%N 0%nat in
        match count with
        | O => 0
        | _ => if negative then - Z.of_N e else Z.of_N e
        end
      else 0
  | EmptyString => 0
  end.

Definition parseFloat (text : string) : number :=
  let '(negative, s) := read_sign (trimStart text) in
  if String.prefix "Infinity" s then
    if negative then PrimFloat.neg_infinity else PrimFloat.infinity
  else
    let '(int_part, int_count, r1) := read_digits digit_value 10 s 0%N 0%nat in
    let '(mantissa, frac_count, r2) :=
      match r1 with
      | String "." r => read_digits digit_value 10 r int_part 0%nat
      | _ => (int_part, 0%nat, r1)
      end in
    match int_count, frac_count with
    | O, O => PrimFloat.nan
    | _, _ =>
        decimal_to_number negative mantissa
          (read_exponent r2 - Z.of_nat frac_count)
    end.

Definition parseInt (text : string) : number :=
  let '(negative, s) := read_sign (trimStart text) in
  let '(value, count, _) :=
    match s with
    | String "0" (String x r) =>
        if Ascii.eqb x "x" || Ascii.eqb x "X"
        then read_digits hex_digit_value 16 r 0%N 0%nat
        else read_digits digit_value 10 s 0%N 0%nat
    | _ => read_digits digit_value 10 s 0%N 0%nat
    end in
  match count with
  | O => PrimFloat.nan
  | _ => decimal_to_number negative value 0
  end.

(** [ToString] of an array element that may be missing. *)
Definition ToString (v : option string) : string :=
  match v with Some s => s | None => "undefined" end.

End JS.

(** ** The tabular decoder (src/http/databento-http.ts) *)

(** [headers.forEach((header, index) => ...)] threading the object under
    construction. *)
Fixpoint forEach_from {A St : Type} (f : St -> A -> nat -> St)
    (l : list A) (index : nat) (s : St) : St :=
  match l with
  | [] => s
  | x :: r => forEach_from f r (S index) (f s x index)
  end.

(** The callback of [headers.forEach]:
    [obj[header.trim()] = values[index]?.trim() || ""], the trimmed value or
    the empty string when the line has no value at that index. *)
Definition assign_field (values : list string)
    (obj : gmap string string) (header : string) (index : nat)
    : gmap string string :=
  <[JS.trim header := default EmptyString (JS.trim <$> values !! index)]> obj.

(** The callback of [dataLines.map]: one record per data line. *)
Definition parseCSV_record (headers : list string) (line : string)
    : gmap string string :=
  let values := JS.split JS.COMMA line in
  forEach_from (assign_field values) headers 0%nat ∅.

(** [parseCSV(csvText)]. The test [lines.length === 0] never holds: [split]
    returns at least one line. *)
Definition parseCSV (csvText : string) : list (gmap string string) :=
  let lines := JS.split JS.LF (JS.trim csvText) in
  match lines with
  | [] => []
  | line0 :: rest =>
      let headers := JS.split JS.COMMA line0 in
      let dataLines := filter (fun line => JS.truthy (JS.trim line) = true) rest in
      map (parseCSV_record headers) dataLines
  end.

(** ** The session classifier (DataBentoClient.getSessionInfo) *)

Inductive Session : Type := Asian | London | NY | Unknown.

Record SessionInfo : Type := mkSessionInfo {
  currentSession : Session;
  sessionStart : JS.Date;
  sessionEnd : JS.Date;
  timestamp : JS.Date
}.

(** [getSessionInfo(timestamp?)]. [current] is the value of [new Date()],
    which the method reads only when it is called without a timestamp. In the
    three named sessions the bounds are fresh copies of [now] moved by
    [setUTCHours]; in the last branch both bounds are [now] itself. *)
Definition getSessionInfo (timestamp : option JS.Date) (current : JS.Date)
    : SessionInfo :=
  let now := match timestamp with Some d => d | None => current end in
  let utcHour := JS.getUTCHours now in
  if JS.geb utcHour 0 && JS.ltb utcHour 7 then
    mkSessionInfo Asian
      (JS.setUTCHours now 0 0 0 0) (JS.setUTCHours now 7 0 0 0) now
  else if JS.geb utcHour 7 && JS.ltb utcHour 14 then
    mkSessionInfo London
      (JS.setUTCHours now 7 0 0 0) (JS.setUTCHours now 14 0 0 0) now
  else if JS.geb utcHour 14 && JS.ltb utcHour 22 then
    mkSessionInfo NY
      (JS.setUTCHours now 14 0 0 0) (JS.setUTCHours now 22 0 0 0) now
  else
    mkSessionInfo Unknown now now now.

(** ** Bars and their aggregation (DataBentoClient.aggregateToH4) *)

Record BarData : Type := mkBarData {
  bar_timestamp : JS.Date;
  open : JS.number;
  high : JS.number;
  low : JS.number;
  close : JS.number;
  volume : JS.number
}.

(** The object pushed for a non-empty [chunk] whose first bar is [chunk0]. *)
Definition aggregate_chunk (chunk0 : BarData) (chunk : list BarData) : BarData :=
  {| bar_timestamp := bar_timestamp chunk0;
     open := open chunk0;
     high := JS.Math_max (map high chunk);
     low := JS.Math_min (map low chunk);
     close := close (List.last chunk chunk0);
     volume := fold_left (fun sum b => (sum + volume b)%float) chunk PrimFloat.zero |}.

(** The loop [for (let i = 0; i < bars.length; i += 4)], from index [i] with
    the bars pushed so far. *)
Equations? aggregateToH4_loop (bars : list BarData) (i : nat)
    (h4Bars : list BarData) : list BarData by wf (length bars - i)%nat lt :=
  aggregateToH4_loop bars i h4Bars with lt_dec i (length bars) => {
    | left _ =>
        let chunk := JS.slice bars (Z.of_nat i) (Some (Z.of_nat i + 4)) in
        match chunk with
        | [] => aggregateToH4_loop bars (i + 4) h4Bars
        | chunk0 :: _ =>
            aggregateToH4_loop bars (i + 4)
              (h4Bars ++ [aggregate_chunk chunk0 chunk])
        end;
    | right _ => h4Bars }.
Proof. all: lia. Qed.

Definition aggregateToH4 (bars : list BarData) : list BarData :=
  aggregateToH4_loop bars 0 [].

(** ** The client's state and its environment *)

Record QuoteData : Type := mkQuoteData {
  symbol : string;
  price : JS.number;
  bid : JS.number;
  ask : JS.number;
  quote_timestamp : JS.Date;
  dataAge : JS.number
}.

(** An entry of [priceCache]: the quote and the clock reading at which it was
    stored (the field [timestamp] of the entry, a time value). *)
Record CacheEntry : Type := mkCacheEntry {
  data : QuoteData;
  cache_timestamp : Z
}.

(** A request as [fetch] receives it: the endpoint and the query parameters
    appended to the URL, in order. The method (GET), the constant headers and
    the 15-second abort signal are the same in every call and are not
    recorded. *)
Record Request : Type := mkRequest {
  endpoint : string;
  query : list (string * string)
}.

(** A response as the client reads it. [response.ok] is a 2xx status;
    [response.text()] yields the body or rejects. *)
Record Response : Type := mkResponse {
  status : Z;
  statusText : string;
  text : JS.Outcome string
}.

Definition ok (r : Response) : bool := (200 <=? status r)%Z && (status r <=? 299)%Z.

(** What one call of [fetch] does: it resolves with a response, or rejects
    (a network error, or the abort on timeout). *)
Inductive FetchOutcome : Type :=
| Resolved (r : Response)
| Rejected (e : JS.Error).

(** The world outside the client: what the system clock reads at its [k]-th
    reading (a time value), and how the network answers the [k]-th call of
    [fetch]. *)
Record Env : Type := mkEnv {
  clock : nat -> Z;
  network : nat -> Request -> FetchOutcome
}.

Inductive Event : Type :=
| EvFetch (request : Request)
| EvSleep (ms : Z).

Record World : Type := mkWorld {
  clock_reads : nat;
  fetch_calls : nat;
  priceCache : gmap string CacheEntry;
  trace : list Event
}.

(** Asynchronous methods: state passing with exceptions. *)
Definition M (A : Type) : Type := World -> JS.Outcome A * World.

Global Instance M_ret : MRet M := fun A a w => (JS.Returned a, w).
Global Instance M_bind : MBind M := fun A B f m w =>
  match m w with
  | (JS.Returned a, w') => f a w'
  | (JS.Thrown e, w') => (JS.Thrown e, w')
  end.

Definition throw {A : Type} (e : JS.Error) : M A := fun w => (JS.Thrown e, w).

(** [await] of a promise that is already settled. *)
Definition settle {A : Type} (o : JS.Outcome A) : M A := fun w => (o, w).

Definition DATABENTO_CONFIG_baseUrl : string := "https://hist.databento.com".
Definition DATABENTO_CONFIG_timeout : Z := 15000.
Definition DATABENTO_CONFIG_retryAttempts : nat := 3.
Definition DATABENTO_CONFIG_retryDelayMs : Z := 1000.

Definition SYMBOL_MAP : gmap string string :=
  <["ES" := "ES.c.0"]> (<["NQ" := "NQ.c.0"]> ∅).

Definition DATASET : string := "GLBX.MDP3".

Definition CACHE_TTL : Z := 30000.

Section Client.

Variable env : Env.

(** [Date.now()] *)
Definition Date_now : M Z := fun w =>
  (JS.Returned (clock env (clock_reads w)),
   mkWorld (S (clock_reads w)) (fetch_calls w) (priceCache w) (trace w)).

(** [new Date()] *)
Definition new_Date : M JS.Date := t ← Date_now; mret (JS.TimeClip t).

(** [await fetch(url, ...)] *)
Definition fetch (request : Request) : M Response := fun w =>
  let w' := mkWorld (clock_reads w) (S (fetch_calls w)) (priceCache w)
              (trace w ++ [EvFetch request]) in
  match network env (fetch_calls w) request with
  | Resolved r => (JS.Returned r, w')
  | Rejected e => (JS.Thrown e, w')
  end.

(** [await new Promise((resolve) => setTimeout(resolve, ms))] *)
Definition sleep (ms : Z) : M unit := fun w =>
  (JS.Returned tt,
   mkWorld (clock_reads w) (fetch_calls w) (priceCache w) (trace w ++ [EvSleep ms])).

Definition priceCache_get (key : string) : M (option CacheEntry) := fun w =>
  (JS.Returned (priceCache w !! key), w).

Definition priceCache_set (key : string) (entry : CacheEntry) : M unit := fun w =>
  (JS.Returned tt,
   mkWorld (clock_reads w) (fetch_calls w) (<[key := entry]> (priceCache w)) (trace w)).

(** ** The transport (makeRequest) *)

(** The body of the [try] block: one attempt. *)
Definition attempt_once (request : Request) : M string :=
  response ← fetch request;
  if negb (ok response) then
    errorText ← settle (text response);
    throw (JS.new_Error
             ("HTTP " +:+ pretty (status response) +:+ ": "
              +:+ statusText response +:+ " - " +:+ errorText))
  else settle (text response).

(** The loop [for (let attempt = 1; attempt <= retryAttempts; attempt++)],
    entered at [attempt]. A successful attempt returns from the method; a
    failed one is caught, and either ends the call with the terminal error
    (last attempt) or sleeps [retryDelayMs * attempt] and goes round again.
    [DataBentoHTTP.makeRequest] (src/http/databento-http.ts) is the same loop
    around the same attempt. *)
Equations? makeRequest_loop (request : Request) (attempt : nat) (w : World)
    : JS.Outcome string * World
    by wf (S DATABENTO_CONFIG_retryAttempts - attempt)%nat lt :=
  makeRequest_loop request attempt w
    with le_dec attempt DATABENTO_CONFIG_retryAttempts => {
    | left _ =>
        match attempt_once request w with
        | (JS.Returned responseText, w1) => (JS.Returned responseText, w1)
        | (JS.Thrown error, w1) =>
            if (attempt =? DATABENTO_CONFIG_retryAttempts)%nat then
              (JS.Thrown
                 (JS.new_Error
                    ("DataBento API request failed after "
                     +:+ pretty DATABENTO_CONFIG_retryAttempts +:+ " attempts: "
                     +:+ JS.Error_toString error)), w1)
            else
              match sleep (DATABENTO_CONFIG_retryDelayMs * Z.of_nat attempt) w1 with
              | (_, w2) => makeRequest_loop request (attempt + 1) w2
              end
        end;
    | right _ =>
        (JS.Thrown (JS.new_Error "Unexpected error in DataBento request"), w) }.
Proof. lia. Qed.

(** [makeRequest(endpoint, params)]: [params] are the defined parameters,
    already rendered by [String]. *)
Definition makeRequest (endpoint : string) (params : list (string * string))
    : M string :=
  makeRequest_loop (mkRequest endpoint params) 1.

(** ** Quotes (getQuote) *)

(** [d.toISOString().split("T")[0]] *)
Definition iso_date (d : JS.Date) : M string :=
  iso ← settle (JS.toISOString d);
  mret (hd EmptyString (JS.split "T" iso)).

(** [lines.slice(1).filter((line) => line.trim())] *)
Definition data_lines (response : string) : list string :=
  let lines := JS.split JS.LF response in
  filter (fun line => JS.truthy (JS.trim line) = true) (JS.slice lines 1 None).

(** The quote built from the latest data line, with [now] the clock reading
    taken for [dataAge]. Columns: 1 is ts_event (nanoseconds), 13 is bid_px_00
    and 14 is ask_px_00, as fixed-point integers scaled by 1e9. *)
Definition parse_quote (symbol latestLine : string) (now : Z) : QuoteData :=
  let fields := JS.split JS.COMMA latestLine in
  let bidPx := (JS.parseFloat (JS.ToString (fields !! 13%nat)) / 1e9)%float in
  let askPx := (JS.parseFloat (JS.ToString (fields !! 14%nat)) / 1e9)%float in
  let tsEvent := JS.parseInt (JS.ToString (fields !! 1%nat)) in
  let price := ((bidPx + askPx) / 2)%float in
  let timestamp := JS.Date_of_number (JS.Math_floor (tsEvent / 1000000)%float) in
  let dataAge := (JS.Z_to_number now - JS.getTime timestamp)%float in
  mkQuoteData symbol price bidPx askPx timestamp dataAge.

(** The body of [getQuote] after the cache check: fetch the last seven days
    of top-of-book data, take the latest line, build the quote, store it. *)
Definition fetchQuote (symbol : string) : M QuoteData :=
  match SYMBOL_MAP !! symbol with
  | None => throw (JS.new_Error ("Invalid symbol: " +:+ symbol))
  | Some databentoSymbol =>
      today ← new_Date;
      let endDate := today in
      let startDate := JS.setDate_back today 7 in
      start ← iso_date startDate;
      end_ ← iso_date endDate;
      response ← makeRequest "/v0/timeseries.get_range"
        [("dataset", DATASET); ("symbols", databentoSymbol);
         ("stype_in", "continuous"); ("stype_out", "instrument_id");
         ("start", start); ("end", end_);
         ("schema", "mbp-1"); ("limit", "100")];
      if negb (JS.truthy response) then
        throw (JS.new_Error ("No quote data available for " +:+ symbol))
      else
        let dataLines := data_lines response in
        match dataLines with
        | [] =>
            throw (JS.new_Error ("No recent data available for " +:+ symbol))
        | line0 :: _ =>
            let latestLine := List.last dataLines line0 in
            now ← Date_now;
            let quoteData := parse_quote symbol latestLine now in
            stored ← Date_now;
            priceCache_set symbol (mkCacheEntry quoteData stored);;
            mret quoteData
        end
  end.

(** [getQuote(symbol)]: the cached quote while its entry is younger than
    [CACHE_TTL] (the clock is read only when there is an entry), a fresh one
    otherwise. *)
Definition getQuote (symbol : string) : M QuoteData :=
  cached ← priceCache_get symbol;
  hit ← match cached with
        | Some c =>
            now ← Date_now;
            mret (if (now - cache_timestamp c <? CACHE_TTL)%Z
                  then Some (data c) else None)
        | None => mret None
        end;
  match hit with
  | Some quote => mret quote
  | None => fetchQuote symbol
  end.

(** ** Historical bars (getHistoricalBars) *)

Inductive Timeframe : Type := Timeframe_1h | Timeframe_H4 | Timeframe_1d.

(** [Math.ceil(count / k)] for an integer [count]. *)
Definition ceil_div (count k : Z) : Z := - ((- count) / k).

(** The callback of [dataLines.map]: one bar per data line. *)
Definition parse_bar (line : string) : BarData :=
  let fields := JS.split JS.COMMA line in
  let tsEvent := JS.parseInt (JS.ToString (fields !! 0%nat)) in
  {| bar_timestamp := JS.Date_of_number (JS.Math_floor (tsEvent / 1000000)%float);
     open := (JS.parseFloat (JS.ToString (fields !! 4%nat)) / 1e9)%float;
     high := (JS.parseFloat (JS.ToString (fields !! 5%nat)) / 1e9)%float;
     low := (JS.parseFloat (JS.ToString (fields !! 6%nat)) / 1e9)%float;
     close := (JS.parseFloat (JS.ToString (fields !! 7%nat)) / 1e9)%float;
     volume := JS.parseFloat (JS.ToString (fields !! 8%nat)) |}.

Definition getHistoricalBars (symbol : string) (timeframe : Timeframe)
    (count : Z) : M (list BarData) :=
  match SYMBOL_MAP !! symbol with
  | None => throw (JS.new_Error ("Invalid symbol: " +:+ symbol))
  | Some databentoSymbol =>
      endDate ← new_Date;
      startDate0 ← new_Date;
      let startDate :=
        match timeframe with
        | Timeframe_1h => JS.setDate_back startDate0 (ceil_div count 24 + 7)
        | Timeframe_H4 => JS.setDate_back startDate0 (ceil_div count 6 + 7)
        | Timeframe_1d => JS.setDate_back startDate0 (count + 7)
        end in
      let schema :=
        match timeframe with
        | Timeframe_1d => "ohlcv-1d"
        | _ => "ohlcv-1h"
        end in
      start ← iso_date startDate;
      end_ ← iso_date endDate;
      response ← makeRequest "/v0/timeseries.get_range"
        [("dataset", DATASET); ("symbols", databentoSymbol);
         ("stype_in", "continuous"); ("stype_out", "instrument_id");
         ("start", start); ("end", end_);
         ("schema", schema); ("limit", "1000")];
      if negb (JS.truthy response) then
        throw (JS.new_Error ("No bar data available for " +:+ symbol))
      else
        let dataLines := data_lines response in
        match dataLines with
        | [] => throw (JS.new_Error ("No bar data available for " +:+ symbol))
        | _ =>
            let bars := map parse_bar dataLines in
            match timeframe with
            | Timeframe_H4 => mret (aggregateToH4 bars)
            | _ => mret (JS.slice bars (- count) None)
            end
        end
  end.

End Client.

(** The number of calls of [fetch] among some events. *)
Definition is_fetch (ev : Event) : bool :=
  match ev with EvFetch _ => true | EvSleep _ => false end.
Definition attempts (events : list Event) : nat :=
  length (List.filter is_fetch events).

(** How one attempt ends, as a function of what [fetch] did: it fails when
    [fetch] rejects (a network error or the timeout), when the status is not
    2xx (with an error made of the status and the body), and when the body
    cannot be read; otherwise it yields the body. *)
Definition attempt_outcome (o : FetchOutcome) : JS.Outcome string :=
  match o with
  | Rejected e => JS.Thrown e
  | Resolved r =>
      if ok r then text r
      else match text r with
           | JS.Returned errorText =>
               JS.Thrown
                 (JS.new_Error
                    ("HTTP " +:+ pretty (status r) +:+ ": " +:+ statusText r
                     +:+ " - " +:+ errorText))
           | JS.Thrown e => JS.Thrown e
           end
  end.

(** The terminal error of the transport, around the last failure. *)
Definition terminal_error (last : JS.Error) : JS.Error :=
  JS.new_Error
    ("DataBento API request failed after 3 attempts: "
     +:+ JS.Error_toString last).

(** The world after one more reading of the clock. *)
Definition tick (w : World) : World :=
  mkWorld (S (clock_reads w)) (fetch_calls w) (priceCache w) (trace w).

(** The system clock reads a time value that is not before the epoch. *)
Definition sane_clock (env : Env) : Prop :=
  forall k, 0 <= clock env k <= JS.MAX_TIME.

(** ** Scenarios: mocked clocks and networks *)

Definition empty_world : World := mkWorld 0 0 ∅ [].

(** A clock that starts at [start] and advances by [step] per reading. *)
Definition stepping_clock (start step : Z) : nat -> Z :=
  fun k => start + step * Z.of_nat k.

(** A network that answers every request with status 200 and this body. *)
Definition always_ok (body : string) : nat -> Request -> FetchOutcome :=
  fun _ _ => Resolved (mkResponse 200 "OK" (JS.Returned body)).

(** A network whose first answer is a 503, whose second call times out, and
    which answers 200 with this body from then on. *)
Definition flaky_network (body : string) : nat -> Request -> FetchOutcome :=
  fun k _ =>
    match k with
    | 0%nat => Resolved (mkResponse 503 "Service Unavailable" (JS.Returned "busy"))
    | 1%nat =>
        Rejected (JS.mkError "TimeoutError"
                    "The operation was aborted due to timeout")
    | _ => Resolved (mkResponse 200 "OK" (JS.Returned body))
    end.

(** A network that is down: every call of [fetch] is answered 500. *)
Definition failing_network : nat -> Request -> FetchOutcome :=
  fun _ _ =>
    Resolved (mkResponse 500 "Internal Server Error" (JS.Returned "boom")).

(** A top-of-book response whose last row has bid_px_00 = 4500000000000 and
    ask_px_00 = 4502000000000, with event time 2021-01-01T00:00:01Z. *)
Definition quote_csv : string :=
  "ts_recv,ts_event,rtype,publisher_id,instrument_id,action,side,depth,price,size,flags,ts_in_delta,sequence,bid_px_00,ask_px_00,bid_sz_00,ask_sz_00
1609459200000000000,1609459200000000000,1,1,1234,A,B,0,0,0,0,0,0,4499000000000,4501000000000,10,15
1609459201000000000,1609459201000000000,1,1,1234,A,B,0,0,0,0,0,0,4500000000000,4502000000000,10,15".

(** A response with a header line and no data row. *)
Definition header_only_csv : string :=
  "ts_recv,ts_event,rtype,publisher_id,instrument_id
".

(** The clock reads 2021-01-01T00:00:11Z first and advances by 10 seconds
    per reading; the network always answers with [quote_csv]. *)
Definition quote_env : Env :=
  mkEnv (stepping_clock 1609459211000 10000) (always_ok quote_csv).

(** The quote that [quote_csv] decodes to when it is fetched through
    [quote_env] with an empty cache. *)
Definition es_quote : QuoteData :=
  mkQuoteData "ES" 4501%float 4500%float 4502%float
    (JS.DateAt 1609459201000) 20000%float.

(** A clock that reads 2021-01-01T00:00:40Z first, in front of a network that
    has no data row to give. *)
Definition no_data_env : Env :=
  mkEnv (stepping_clock 1609459240000 1000) (always_ok header_only_csv).

(** A quote stored in the cache at 2021-01-01T00:00:00Z. *)
Definition old_quote : QuoteData :=
  mkQuoteData "ES" 4400%float 4399%float 4401%float
    (JS.DateAt 1609459199000) 1000%float.
Definition old_world : World :=
  mkWorld 0 0 (<["ES" := mkCacheEntry old_quote 1609459200000]> ∅) [].

(** Two OHLCV responses: eight and twelve consecutive 1-hour rows, with
    volumes 1000, 1100, ... *)
Definition hourly_csv_8 : string :=
  "ts_event,rtype,publisher_id,instrument_id,open,high,low,close,volume
1609459200000000000,1,1,1234,4500000000000,4510000000000,4490000000000,4505000000000,1000
1609462800000000000,1,1,1234,4505000000000,4515000000000,4495000000000,4510000000000,1100
1609466400000000000,1,1,1234,4510000000000,4525000000000,4500000000000,4515000000000,1200
1609470000000000000,1,1,1234,4515000000000,4530000000000,4505000000000,4520000000000,1300
1609473600000000000,1,1,1234,4520000000000,4540000000000,4510000000000,4525000000000,1400
1609477200000000000,1,1,1234,4525000000000,4550000000000,4515000000000,4530000000000,1500
1609480800000000000,1,1,1234,4530000000000,4560000000000,4520000000000,4535000000000,1600
1609484400000000000,1,1,1234,4535000000000,4570000000000,4525000000000,4540000000000,1700".

Definition hourly_csv_12 : string :=
  "ts_event,rtype,publisher_id,instrument_id,open,high,low,close,volume
1609459200000000000,1,1,1234,4500000000000,4510000000000,4490000000000,4505000000000,1000
1609462800000000000,1,1,1234,4505000000000,4515000000000,4495000000000,4510000000000,1100
1609466400000000000,1,1,1234,4510000000000,4525000000000,4500000000000,4515000000000,1200
1609470000000000000,1,1,1234,4515000000000,4530000000000,4505000000000,4520000000000,1300
1609473600000000000,1,1,1234,4520000000000,4540000000000,4510000000000,4525000000000,1400
1609477200000000000,1,1,1234,4525000000000,4550000000000,4515000000000,4530000000000,1500
1609480800000000000,1,1,1234,4530000000000,4560000000000,4520000000000,4535000000000,1600
1609484400000000000,1,1,1234,4535000000000,4570000000000,4525000000000,4540000000000,1700
1609488000000000000,1,1,1234,4540000000000,4580000000000,4530000000000,4545000000000,1800
1609491600000000000,1,1,1234,4545000000000,4590000000000,4535000000000,4550000000000,1900
1609495200000000000,1,1,1234,4550000000000,4600000000000,4540000000000,4555000000000,2000
1609498800000000000,1,1,1234,4555000000000,4610000000000,4545000000000,4560000000000,2100".

Definition bars_env (body : string) : Env :=
  mkEnv (stepping_clock 1609459211000 1000) (always_ok body).

(** The session table in the specification's words (section 4.5), to compare
    [getSessionInfo] with. [utc_day_at t hour] is the instant [hour]:00 of the
    UTC calendar day of [t]. *)
Definition utc_day_at (t hour : Z) : JS.Date :=
  JS.DateAt (JS.Day t * JS.msPerDay + hour * JS.msPerHour).

Definition session_table (t : Z) : SessionInfo :=
  let h := JS.HourFromTime t in
  if (h <? 7)%Z then
    mkSessionInfo Asian (utc_day_at t 0) (utc_day_at t 7) (JS.DateAt t)
  else if (h <? 14)%Z then
    mkSessionInfo London (utc_day_at t 7) (utc_day_at t 14) (JS.DateAt t)
  else if (h <? 22)%Z then
    mkSessionInfo NY (utc_day_at t 14) (utc_day_at t 22) (JS.DateAt t)
  else
    mkSessionInfo Unknown (JS.DateAt t) (JS.DateAt t) (JS.DateAt t).

(** The input lies within the returned bounds, which are instants of its own
    UTC calendar day. *)
Definition within_session_bounds (t : Z) (info : SessionInfo) : Prop :=
  exists s e,
    sessionStart info = JS.DateAt s /\ sessionEnd info = JS.DateAt e
    /\ s <= t < e /\ JS.Day s = JS.Day t /\ JS.Day e = JS.Day t.

(** ** Notions used to state further properties *)

(** The quote cache is consistent when every entry is filed under the symbol
    of its own quote and only symbols of [SYMBOL_MAP] have an entry. *)
Definition cache_consistent (w : World) : Prop :=
  map_Forall (fun key c => symbol (data c) = key /\ is_Some (SYMBOL_MAP !! key))
    (priceCache w).

(** The carriage return, and two lines that carry the same fields once these
    are trimmed. *)
Definition CR : ascii := ascii_of_nat 13.

Definition same_fields (a b : string) : Prop :=
  JS.trim <$> JS.split JS.COMMA a = JS.trim <$> JS.split JS.COMMA b
  /\ JS.trim a = JS.trim b.

(** One 1-hour bar. *)
Definition flat_bar : BarData :=
  mkBarData (JS.DateAt 1609459200000) 4500%float 4510%float 4490%float
    4505%float 1000%float.

(** ** The shared HTTP client and the API clients built on it *)

(** The error monad of synchronous code that may throw. *)
Global Instance Outcome_ret : MRet JS.Outcome := fun A a => JS.Returned a.
Global Instance Outcome_bind : MBind JS.Outcome := fun A B f o =>
  match o with
  | JS.Returned a => f a
  | JS.Thrown e => JS.Thrown e
  end.

(** [try { body } catch (error) { handler }] around asynchronous code. *)
Definition try_catch {A : Type} (body : M A) (handler : JS.Error -> M A) : M A :=
  fun w =>
    match body w with
    | (JS.Returned a, w') => (JS.Returned a, w')
    | (JS.Thrown error, w') => handler error w'
    end.

(** [a.join(sep)] for an array of strings. *)
Fixpoint Array_join (sep : string) (a : list string) : string :=
  match a with
  | [] => EmptyString
  | x :: rest =>
      match rest with
      | [] => x
      | _ => x +:+ sep +:+ Array_join sep rest
      end
  end.

(** A value of type [string | string[]]. *)
Inductive Symbols : Type :=
| OneString (s : string)
| SymbolArray (a : list string).

(** [Array.isArray(symbols) ? symbols.join(",") : symbols] *)
Definition joined (symbols : Symbols) : string :=
  match symbols with
  | SymbolArray a => Array_join "," a
  | OneString s => s
  end.

(** [a || b] and [a || "literal"] for values that are strings or
    [undefined]: the first one that is a non-empty string. *)
Definition or_else (a b : option string) : option string :=
  match a with
  | Some s => if JS.truthy s then a else b
  | None => b
  end.
Definition or_text (a : option string) (b : string) : string :=
  match a with
  | Some s => if JS.truthy s then s else b
  | None => b
  end.

(** The truthiness of an optional string. *)
Definition given (a : option string) : bool :=
  match a with Some s => JS.truthy s | None => false end.

Definition is_digit (c : ascii) : bool :=
  match JS.digit_value c with Some _ => true | None => false end.

(** The pattern [\d{4}-\d{2}-\d{2}] matched at the front of a text: what
    follows the match, if there is one. *)
Definition after_date (s : string) : option string :=
  match s with
  | String y1 (String y2 (String y3 (String y4 (String h1
      (String m1 (String m2 (String h2 (String d1 (String d2 rest))))))))) =>
      if is_digit y1 && is_digit y2 && is_digit y3 && is_digit y4
         && Ascii.eqb h1 "-" && is_digit m1 && is_digit m2
         && Ascii.eqb h2 "-" && is_digit d1 && is_digit d2
      then Some rest else None
  | _ => None
  end.

(** [/^\d{4}-\d{2}-\d{2}$/.test(s)] and [/^\d{4}-\d{2}-\d{2}/.test(s)] *)
Definition is_date_only (s : string) : bool :=
  match after_date s with Some EmptyString => true | _ => false end.
Definition has_date_prefix (s : string) : bool :=
  match after_date s with Some _ => true | None => false end.

(** What the host decides for the clients: [Date.parse] of a text, which
    beyond the ISO format is left to the implementation, and the offset of
    local time from UTC at a time value, in milliseconds. *)
Record Host : Type := mkHost {
  Date_parse : string -> JS.Date;
  LocalTZA : Z -> Z
}.

Definition DQUOTE : ascii := ascii_of_nat 34.

Module HTTP.

(** [new DataBentoHTTP(apiKey)]: the key the instance keeps, or the error
    thrown. The constructor of [DataBentoClient] makes the same two checks. *)
Definition constructor (apiKey : string) : JS.Outcome string :=
  if negb (JS.truthy apiKey) then
    JS.Thrown (JS.new_Error "DATABENTO_API_KEY is required")
  else if negb (String.prefix "db-" apiKey) then
    JS.Thrown
      (JS.new_Error
         ("DATABENTO_API_KEY must start with "
          +:+ String DQUOTE ("db-" +:+ String DQUOTE EmptyString)))
  else JS.Returned apiKey.

(** The parameters that reach the URL: those that are neither [undefined]
    nor [null], in the order of the object's keys. A value is given as the
    text [String(value)]. *)
Definition defined_params (params : list (string * option string))
    : list (string * string) :=
  omap (fun '(key, value) => pair key <$> value) params.

(** [get(endpoint, params)]: the retrying transport on the URL built from
    the defined parameters. *)
Definition get (env : Env) (endpoint : string)
    (params : list (string * option string)) : M string :=
  makeRequest env endpoint (defined_params params).

End HTTP.

(** ** The time-series client (src/api/timeseries-client.ts) *)

Module Timeseries.

Record GetRangeRequest : Type := mkGetRangeRequest {
  dataset : string;
  symbols : Symbols;
  schema : string;
  start : string;
  end_ : option string;
  stype_in : option string;
  stype_out : option string;
  limit : option Z;
  encoding : option string
}.

Record GetRangeResponse : Type := mkGetRangeResponse {
  data : string;
  response_schema : string;
  recordCount : Z;
  response_symbols : list string;
  dateRange : string * string
}.

Section Client.

Variable host : Host.
Variable env : Env.

(** [formatDate(dateStr)]: a text of the form YYYY-MM-DD as it is, any other
    text through [new Date] and the local calendar date of the result. *)
Definition formatDate (dateStr : string) : JS.Outcome string :=
  if is_date_only dateStr then JS.Returned dateStr
  else
    match Date_parse host dateStr with
    | JS.InvalidDate => JS.Thrown (JS.new_Error ("Invalid date: " +:+ dateStr))
    | JS.DateAt t =>
        let '(year, month, day) :=
          JS.civil_from_days (JS.Day (t + LocalTZA host t)) in
        JS.Returned
          (pretty year +:+ "-" +:+ JS.digits 2 month +:+ "-" +:+ JS.digits 2 day)
    end.

Definition symbol_count (s : Symbols) : nat :=
  match s with
  | SymbolArray a => length a
  | OneString s => length (JS.split JS.COMMA s)
  end.

(** The [try] block of [validateRequest]. *)
Definition check_dates (request : GetRangeRequest) : JS.Outcome unit :=
  formatDate (start request);;
  match end_ request with
  | Some e => if JS.truthy e then formatDate e;; mret tt else mret tt
  | None => mret tt
  end.

Definition validateRequest (request : GetRangeRequest) : JS.Outcome unit :=
  if negb (JS.truthy (dataset request)) then
    JS.Thrown (JS.new_Error "dataset is required")
  else if match symbols request with
          | OneString s => negb (JS.truthy s)
          | SymbolArray a => (length a =? 0)%nat
          end then
    JS.Thrown (JS.new_Error "symbols is required and cannot be empty")
  else if negb (JS.truthy (schema request)) then
    JS.Thrown (JS.new_Error "schema is required")
  else if negb (JS.truthy (start request)) then
    JS.Thrown (JS.new_Error "start date is required")
  else
    match check_dates request with
    | JS.Thrown error =>
        JS.Thrown
          (JS.new_Error ("Invalid date format: " +:+ JS.Error_toString error))
    | JS.Returned _ =>
        if match limit request with Some n => (n <? 1)%Z | None => false end then
          JS.Thrown (JS.new_Error "limit must be greater than 0")
        else if (2000 <? symbol_count (symbols request))%nat then
          JS.Thrown (JS.new_Error "Maximum 2000 symbols allowed per request")
        else JS.Returned tt
    end.

(** The parameters of the request, given the formatted dates. The limit is
    an integer. *)
Definition range_params (request : GetRangeRequest) (start end_ : string)
    : list (string * option string) :=
  [("dataset", Some (dataset request));
   ("symbols", Some (joined (symbols request)));
   ("schema", Some (schema request));
   ("start", Some start);
   ("end", Some end_);
   ("stype_in", Some (or_text (stype_in request) "raw_symbol"));
   ("stype_out", Some (or_text (stype_out request) "instrument_id"))]
  ++ match limit request with
     | Some n => [("limit", Some (pretty n))]
     | None => []
     end
  ++ match encoding request with
     | Some e => [("encoding", Some e)]
     | None => []
     end.

Definition getRange (request : GetRangeRequest) : M GetRangeResponse :=
  settle (validateRequest request);;
  start ← settle (formatDate (start request));
  end_ ← match end_ request with
         | Some e => if JS.truthy e then settle (formatDate e) else mret start
         | None => mret start
         end;
  response ← HTTP.get env "/v0/timeseries.get_range"
                (range_params request start end_);
  if negb (JS.truthy response) then
    throw (JS.new_Error
             ("No data available for symbols: " +:+ joined (symbols request)
              +:+ " in date range: " +:+ start +:+ " to " +:+ end_))
  else
    let lines := JS.split JS.LF (JS.trim response) in
    mret {| data := response;
            response_schema := schema request;
            recordCount := Z.max 0 (Z.of_nat (length lines) - 1);
            response_symbols :=
              match symbols request with
              | SymbolArray a => a
              | OneString s => [s]
              end;
            dateRange := (start, end_) |}.

End Client.

(** [parseCSVResponse(csvText)] *)
Definition parseCSVResponse (csvText : string) : list (gmap string string) :=
  parseCSV csvText.

End Timeseries.

(** Texts of exactly two and of exactly four decimal digits. *)
Definition two_digits (s : string) : bool :=
  match s with
  | String a (String b EmptyString) => is_digit a && is_digit b
  | _ => false
  end.
Definition four_digits (s : string) : bool :=
  match s with
  | String a (String b (String c (String d EmptyString))) =>
      is_digit a && is_digit b && is_digit c && is_digit d
  | _ => false
  end.

(** A host whose parser reads every text as 2024-01-01T12:30:00Z, five hours
    west of Greenwich; and one whose parser reads every text as an instant of
    the year 999. *)
Definition new_york_host : Host :=
  mkHost (fun _ => JS.DateAt 1704112200000) (fun _ => -18000000).
Definition medieval_host : Host :=
  mkHost (fun _ => JS.DateAt (-30610224000000 - 1000)) (fun _ => 0).

(** ** The batch client (src/api/batch-client.ts) *)

Module Batch.

(** The fields of [BatchJobInfo] that the client reads. Counts and sizes are
    integers. *)
Record JobInfo : Type := mkJobInfo {
  id : string;
  state : string;
  encoding : string;
  compression : string;
  ts_queued : option string;
  ts_process_start : option string;
  ts_expiration : option string;
  record_count : option Z;
  file_count : option Z;
  total_size : option Z
}.

(** The fields of [BatchJobRequest] that [validateJobRequest] reads. *)
Record JobRequest : Type := mkJobRequest {
  dataset : string;
  symbols : list string;
  schema : string;
  start : string;
  end_ : option string
}.

Record ListJobsParams : Type := mkListJobsParams {
  states : option (list string);
  since : option string
}.

Record DownloadInfo : Type := mkDownloadInfo {
  info_id : string;
  info_state : string;
  download_url : option string;
  filenames : option (list string);
  info_total_size : option Z;
  info_ts_expiration : option string;
  info_record_count : option Z;
  info_file_count : option Z
}.

Record DownloadResult : Type := mkDownloadResult {
  job_id : string;
  result_state : string;
  message : string;
  download_info : option DownloadInfo;
  error : option string
}.

(** A count that may be missing, inside a template literal. *)
Definition show_count (n : option Z) : string :=
  match n with Some z => pretty z | None => "undefined" end.

Definition getFileExtension (encoding compression : string) : string :=
  let ext :=
    if String.eqb encoding "dbn" then ".dbn"
    else if String.eqb encoding "csv" then ".csv"
    else if String.eqb encoding "json" then ".json"
    else ".bin" in
  if String.eqb compression "zstd" then ext +:+ ".zst"
  else if String.eqb compression "gzip" then ext +:+ ".gz"
  else ext.

(** The loop [for (let i = 0; i < job.file_count; i++)] at index [i], with
    [remaining] rounds to go. *)
Fixpoint generateFilenames_loop (job_id extension : string) (remaining : nat)
    (i : Z) (filenames : list string) : list string :=
  match remaining with
  | O => filenames
  | S r =>
      generateFilenames_loop job_id extension r (i + 1)
        (filenames ++ [job_id +:+ "_" +:+ pretty i +:+ extension])
  end.

Definition generateFilenames (job : JobInfo) : list string :=
  let extension := getFileExtension (encoding job) (compression job) in
  match file_count job with
  | Some n =>
      if (n =? 0)%Z then []
      else generateFilenames_loop (id job) extension (Z.to_nat n) 0 []
  | None => []
  end.

Definition getJobStatusMessage (job : JobInfo) : string :=
  if String.eqb (state job) "received" then
    "Job " +:+ id job +:+ " received and pending validation. Check back shortly."
  else if String.eqb (state job) "queued" then
    "Job " +:+ id job +:+ " is queued for processing. Queued at "
    +:+ JS.ToString (ts_queued job) +:+ "."
  else if String.eqb (state job) "processing" then
    "Job " +:+ id job +:+ " is currently being processed. Started at "
    +:+ JS.ToString (ts_process_start job) +:+ "."
  else if String.eqb (state job) "done" then
    "Job " +:+ id job +:+ " completed. " +:+ show_count (record_count job)
    +:+ " records across " +:+ show_count (file_count job) +:+ " file(s)."
  else if String.eqb (state job) "expired" then
    "Job " +:+ id job
    +:+ " has expired. Files are no longer available for download."
  else "Job " +:+ id job +:+ " status: " +:+ state job.

Definition validateJobRequest (params : JobRequest) : JS.Outcome unit :=
  if negb (JS.truthy (dataset params))
     || (String.length (JS.trim (dataset params)) =? 0)%nat then
    JS.Thrown (JS.new_Error "Dataset is required")
  else if (length (symbols params) =? 0)%nat then
    JS.Thrown (JS.new_Error "At least one symbol is required")
  else if (2000 <? length (symbols params))%nat then
    JS.Thrown (JS.new_Error "Maximum 2,000 symbols allowed per batch job")
  else if negb (JS.truthy (schema params))
          || (String.length (JS.trim (schema params)) =? 0)%nat then
    JS.Thrown (JS.new_Error "Schema is required")
  else if negb (JS.truthy (start params))
          || (String.length (JS.trim (start params)) =? 0)%nat then
    JS.Thrown (JS.new_Error "Start date is required")
  else if negb (has_date_prefix (start params)) then
    JS.Thrown
      (JS.new_Error "Start date must be in YYYY-MM-DD or ISO 8601 format")
  else if match end_ params with
          | Some e => JS.truthy e && negb (has_date_prefix e)
          | None => false
          end then
    JS.Thrown (JS.new_Error "End date must be in YYYY-MM-DD or ISO 8601 format")
  else JS.Returned tt.

Section Client.

Variable env : Env.

(** [JSON.parse] of a response that lists jobs: the jobs the text denotes, or
    the syntax error. *)
Variable JSON_parse : string -> JS.Outcome (list JobInfo).

(** [parseJSON(jsonText)] *)
Definition parseJSON (jsonText : string) : M (list JobInfo) :=
  match JSON_parse jsonText with
  | JS.Returned jobs => mret jobs
  | JS.Thrown error =>
      throw (JS.new_Error
               ("Failed to parse JSON response: " +:+ JS.Error_toString error))
  end.

Definition listJobs (params : option ListJobsParams) : M (list JobInfo) :=
  let queryParams :=
    match params with
    | Some p =>
        match states p with
        | Some st =>
            if (0 <? length st)%nat then [("states", Some (Array_join "," st))]
            else []
        | None => []
        end
        ++ (if given (since p) then [("since", since p)] else [])
    | None => []
    end in
  response ← HTTP.get env "/v0/batch.list_jobs" queryParams;
  parseJSON response.

Definition getDownloadInfo (jobId : string) : M DownloadResult :=
  if negb (JS.truthy jobId) || (String.length (JS.trim jobId) =? 0)%nat then
    throw (JS.new_Error "Job ID is required")
  else
    try_catch
      (jobs ← listJobs None;
       match List.find (fun j => String.eqb (id j) jobId) jobs with
       | None =>
           mret {| job_id := jobId;
                   result_state := "expired";
                   message :=
                     "Job " +:+ jobId
                     +:+ " not found. It may have expired or does not exist.";
                   download_info := None;
                   error := Some "Job not found" |}
       | Some job =>
           if negb (String.eqb (state job) "done") then
             mret {| job_id := jobId;
                     result_state := state job;
                     message := getJobStatusMessage job;
                     download_info := None;
                     error := None |}
           else
             let downloadInfo :=
               {| info_id := id job;
                  info_state := state job;
                  download_url :=
                    Some (DATABENTO_CONFIG_baseUrl +:+ "/v0/batch.download/"
                          +:+ jobId);
                  filenames :=
                    match file_count job with
                    | Some n =>
                        if (1 <? n)%Z then Some (generateFilenames job)
                        else None
                    | None => None
                    end;
                  info_total_size := total_size job;
                  info_ts_expiration := ts_expiration job;
                  info_record_count := record_count job;
                  info_file_count := file_count job |} in
             mret {| job_id := jobId;
                     result_state := state job;
                     message :=
                       "Job completed successfully. "
                       +:+ pretty (match file_count job with
                                   | Some n => if (n =? 0)%Z then 1 else n
                                   | None => 1
                                   end)
                       +:+ " file(s) ready for download.";
                     download_info := Some downloadInfo;
                     error := None |}
       end)
      (fun error =>
         mret {| job_id := jobId;
                 result_state := "expired";
                 message := "Failed to get download info: " +:+ JS.message error;
                 download_info := None;
                 error := Some (JS.message error) |}).

End Client.

End Batch.

(** ** The reference client (src/api/reference-client.ts) *)

Module Reference.

Record AdjustmentFactorsParams : Type := mkAdjustmentFactorsParams {
  dataset : string;
  symbols : Symbols;
  start_date : option string;
  end_date : option string;
  stype_in : option string
}.

Record AdjustmentFactor : Type := mkAdjustmentFactor {
  instrument_id : JS.number;
  symbol : string;
  factor_dataset : string;
  effective_date : option string;
  price_factor : JS.number;
  volume_factor : option JS.number;
  reason : option string;
  action_type : option string
}.

Record AdjustmentFactorsResponse : Type := mkAdjustmentFactorsResponse {
  adjustments : list AdjustmentFactor;
  count : nat
}.

(** [x || 0] for a number: NaN and the two zeros are falsy. *)
Definition or_zero (x : JS.number) : JS.number :=
  if PrimFloat.is_nan x || PrimFloat.is_zero x then PrimFloat.zero else x.

(** The callback of [parsed.map] in [getAdjustmentFactors]: [row] is a
    record of [parseCSV], [symbols] the comma-separated symbols of the
    request. *)
Definition adjustment_of_row (params : AdjustmentFactorsParams)
    (symbols : string) (row : gmap string string) : AdjustmentFactor :=
  {| instrument_id :=
       or_zero (JS.parseInt (JS.ToString (row !! "instrument_id")));
     symbol :=
       or_text (row !! "symbol")
         (JS.ToString (JS.split JS.COMMA symbols !! 0%nat));
     factor_dataset := dataset params;
     effective_date := or_else (row !! "effective_date") (row !! "ts_event");
     price_factor :=
       JS.parseFloat
         (or_text (or_else (row !! "price_factor") (row !! "price_adj_factor"))
            "1.0");
     volume_factor :=
       if given (row !! "volume_factor") then
         Some (JS.parseFloat
                 (JS.ToString
                    (or_else (row !! "volume_factor")
                       (row !! "volume_adj_factor"))))
       else None;
     reason := row !! "reason";
     action_type := row !! "action_type" |}.

Definition getAdjustmentFactors (env : Env) (params : AdjustmentFactorsParams)
    : M AdjustmentFactorsResponse :=
  let symbols := joined (symbols params) in
  let requestParams :=
    [("dataset", Some (dataset params));
     ("symbols", Some symbols);
     ("stype_in", Some (or_text (stype_in params) "raw_symbol"));
     ("start", start_date params);
     ("end", end_date params);
     ("schema", Some "adjustment")] in
  try_catch
    (response ← HTTP.get env "/v0/timeseries.get_range" requestParams;
     let parsed := parseCSV response in
     let adjustments := map (adjustment_of_row params symbols) parsed in
     mret {| adjustments := adjustments; count := length adjustments |})
    (fun error =>
       throw (JS.new_Error
                ("Failed to get adjustment factors: "
                 +:+ JS.Error_toString error))).

End Reference.

(** ** Scenarios for the API clients *)

(** A response of three lines after the header, the second of them blank. *)
Definition gappy_csv : string :=
  "ts_event,rtype,publisher_id,instrument_id,open,high,low,close,volume
1609459200000000000,1,1,1234,4500000000000,4510000000000,4490000000000,4505000000000,1000

1609462800000000000,1,1,1234,4505000000000,4515000000000,4495000000000,4510000000000,1100".

Definition range_request : Timeseries.GetRangeRequest :=
  Timeseries.mkGetRangeRequest "GLBX.MDP3" (SymbolArray ["ES.c.0"; "NQ.c.0"])
    "ohlcv-1h" "2021-01-01" (Some "2021-01-02") (Some "continuous") None
    (Some 1000) None.

(** A finished job of three files, and a decoder that reads every response
    as the list of that one job. *)
Definition done_job : Batch.JobInfo :=
  Batch.mkJobInfo "GLBX-20210101-ABC" "done" "csv" "zstd"
    (Some "2021-01-01T00:00:01Z") (Some "2021-01-01T00:00:02Z")
    (Some "2021-02-01T00:00:00Z") (Some 1000) (Some 3) (Some 4096).

Definition one_done_job : string -> JS.Outcome (list Batch.JobInfo) :=
  fun _ => JS.Returned [done_job].

(** ** Further notions and scenarios *)

(** Texts whose characters all satisfy a test; texts without a comma and
    texts of decimal digits. *)
Fixpoint all_chars (test : ascii -> bool) (s : string) : bool :=
  match s with
  | EmptyString => true
  | String c r => test c && all_chars test r
  end.
Definition comma_free (s : string) : bool :=
  all_chars (fun c => negb (Ascii.eqb c JS.COMMA)) s.
Definition all_digits (s : string) : bool := all_chars is_digit s.

(** The calendar date of a day number, written YYYY-MM-DD. *)
Definition date_text (day : Z) : string :=
  let '(y, m, d) := JS.civil_from_days day in
  JS.digits 4 y +:+ "-" +:+ JS.digits 2 m +:+ "-" +:+ JS.digits 2 d.

(** The first instant of the year 10000, in milliseconds since the epoch;
    a clock that reads times between the epoch and that instant. *)
Definition YEAR_10000 : Z := 253402300800000.
Definition four_digit_years (env : Env) : Prop :=
  forall k, 0 <= clock env k < YEAR_10000.

(** A bar is well formed when its four prices are numbers and its open and
    close lie between its low and its high. *)
Definition well_formed_bar (b : BarData) : Prop :=
  PrimFloat.is_nan (low b) = false /\ PrimFloat.is_nan (high b) = false
  /\ (low b <=? open b)%float = true /\ (open b <=? high b)%float = true
  /\ (low b <=? close b)%float = true /\ (close b <=? high b)%float = true.

(** A clock that stands still at 2021-01-01T00:00:11Z, in front of a network
    that answers every request with the same body. *)
Definition frozen_clock (t : Z) : nat -> Z := fun _ => t.
Definition frozen_env (body : string) : Env :=
  mkEnv (frozen_clock 1609459211000) (always_ok body).

(** The fields of the first row of [hourly_csv_8] and of the last row of
    [quote_csv]. *)
Definition hourly_fields : list string :=
  ["1609459200000000000"; "1"; "1"; "1234"; "4500000000000"; "4510000000000";
   "4490000000000"; "4505000000000"; "1000"].
Definition quote_fields : list string :=
  ["1609459201000000000"; "1609459201000000000"; "1"; "1"; "1234"; "A"; "B";
   "0"; "0"; "0"; "0"; "0"; "0"; "4500000000000"; "4502000000000"; "10"; "15"].

(** ** The batch tool handlers (src/api/batch-handlers.ts) *)

Module BatchHandlers.

(** The callback of [jobs.reduce] in [handleBatchListJobs]:
    [acc[job.state] = (acc[job.state] || 0) + 1]. *)
Definition tally (acc : gmap string Z) (job : Batch.JobInfo) : gmap string Z :=
  let current :=
    match acc !! Batch.state job with
    | Some n => if (n =? 0)%Z then 0 else n
    | None => 0
    end in
  <[Batch.state job := current + 1]> acc.

(** The fields [total_jobs] and [jobs_by_state] of the summary. *)
Definition total_jobs (jobs : list Batch.JobInfo) : Z := Z.of_nat (length jobs).
Definition jobs_by_state (jobs : list Batch.JobInfo) : gmap string Z :=
  fold_left tally jobs ∅.

End BatchHandlers.

(** The sum of the counts of a tally. *)
Definition tally_total (counts : gmap string Z) : Z :=
  map_fold (fun _ n total => n + total) 0 counts.

(** * Properties *)

(** ** Strings *)

Section StringFacts.

Lemma split_nonempty sep s : JS.split sep s <> [].
Proof.
  destruct s as [|c r]; simpl; [discriminate|].
  destruct (Ascii.eqb c sep); [discriminate|].
  destruct (JS.split sep r); discriminate.
Qed.

Lemma trimStart_head s :
  JS.trimStart s = EmptyString \/
  exists c r, JS.trimStart s = String c r /\ JS.isWhiteSpace c = false.
Proof.
  induction s as [|c r IH]; simpl; [by left|].
  destruct (JS.isWhiteSpace c) eqn:E; [exact IH|].
  right. by exists c, r.
Qed.

Lemma trimEnd_idemp s : JS.trimEnd (JS.trimEnd s) = JS.trimEnd s.
Proof.
  induction s as [|c r IH]; simpl; [done|].
  destruct (JS.trimEnd r) as [|c' r'] eqn:E.
  - destruct (JS.isWhiteSpace c) eqn:W; simpl; [done|]. by rewrite W.
  - change (JS.trimEnd (String c (String c' r')))
      with (match JS.trimEnd (String c' r') with
            | EmptyString =>
                if JS.isWhiteSpace c then EmptyString else String c EmptyString
            | x => String c x
            end).
    by rewrite IH.
Qed.

Lemma trimEnd_keeps_head c r :
  JS.isWhiteSpace c = false -> exists r', JS.trimEnd (String c r) = String c r'.
Proof.
  intros W. simpl. destruct (JS.trimEnd r); rewrite ?W; eauto.
Qed.

(** A trimmed string has no surrounding white space left: trimming it again
    changes nothing. *)
Lemma trim_idemp s : JS.trim (JS.trim s) = JS.trim s.
Proof.
  unfold JS.trim.
  destruct (trimStart_head s) as [->|(c & r & -> & W)]; [done|].
  destruct (trimEnd_keeps_head c r W) as [r' E].
  rewrite E. simpl JS.trimStart. rewrite W, <- E. apply trimEnd_idemp.
Qed.

End StringFacts.

(** ** The tabular decoder *)

Section ParseCSV.

Implicit Types (headers values : list string) (obj : gmap string string).

Lemma forEach_assign_dom values headers index obj :
  dom (forEach_from (assign_field values) headers index obj)
  = dom obj ∪ list_to_set (JS.trim <$> headers).
Proof.
  revert index obj.
  induction headers as [|h hs IH]; intros index obj; simpl.
  - by rewrite (right_id_L ∅ (∪)).
  - rewrite IH. unfold assign_field. rewrite dom_insert_L.
    rewrite (comm_L (∪) {[JS.trim h]} (dom obj)).
    by rewrite (assoc_L (∪)).
Qed.

Lemma forEach_assign_other values headers index obj key :
  key ∉ JS.trim <$> headers ->
  forEach_from (assign_field values) headers index obj !! key = obj !! key.
Proof.
  revert index obj.
  induction headers as [|h hs IH]; intros index obj Hk; simpl; [done|].
  rewrite fmap_cons in Hk. apply not_elem_of_cons in Hk as [Hne Hk].
  rewrite IH by done. unfold assign_field. by rewrite lookup_insert_ne.
Qed.

(** The field of the [i]-th header holds the trimmed [i]-th value, or the empty
    string when the line is too short, unless a later header has the same
    trimmed name (the later assignment then wins). *)
Lemma forEach_assign_lookup values headers index obj i h :
  headers !! i = Some h ->
  (forall j h', (i < j)%nat -> headers !! j = Some h' -> JS.trim h' <> JS.trim h) ->
  forEach_from (assign_field values) headers index obj !! JS.trim h
  = Some (default EmptyString (JS.trim <$> values !! (index + i)%nat)).
Proof.
  revert index obj i.
  induction headers as [|h0 hs IH]; intros index obj i Hi Hlast; [done|].
  destruct i as [|i]; simpl in *.
  - injection Hi as ->.
    rewrite forEach_assign_other.
    + unfold assign_field. rewrite lookup_insert_eq. by rewrite Nat.add_0_r.
    + intros Hin. apply list_elem_of_fmap in Hin as (h' & Heq & Hin).
      apply list_elem_of_lookup in Hin as [j Hj].
      apply (Hlast (S j) h'); [lia|done|done].
    - rewrite (IH (S index) _ i Hi).
    + by replace (S index + i)%nat with (index + S i)%nat by lia.
    + intros j h' Hlt Hj. apply (Hlast (S j) h'); [lia|done].
Qed.

Lemma forEach_assign_take values headers index obj :
  forEach_from (assign_field values) headers index obj
  = forEach_from
      (assign_field (take (index + length headers) values)) headers index obj.
Proof.
  revert index obj.
  induction headers as [|h hs IH]; intros index obj; simpl; [done|].
  rewrite IH. replace (S index + length hs)%nat with (index + S (length hs))%nat by lia.
  f_equal. unfold assign_field. f_equal. f_equal.
  rewrite lookup_take_lt by lia. done.
Qed.

Lemma parseCSV_record_fields headers line key value :
  parseCSV_record headers line !! key = Some value ->
  JS.trim key = key /\ JS.trim value = value.
Proof.
  unfold parseCSV_record.
  generalize (JS.split JS.COMMA line) as values.
  intros values.
  assert (Hinv : forall index obj,
    (forall k v, obj !! k = Some v -> JS.trim k = k /\ JS.trim v = v) ->
    forall k v, forEach_from (assign_field values) headers index obj !! k = Some v ->
                JS.trim k = k /\ JS.trim v = v).
  { induction headers as [|h hs IH]; intros index obj Hobj k v; simpl; [by apply Hobj|].
    apply IH. intros k' v'. unfold assign_field.
    destruct (decide (JS.trim h = k')) as [<-|Hne].
    - rewrite lookup_insert_eq. intros [= <-]. split; [apply trim_idemp|].
      destruct (values !! index); simpl; [apply trim_idemp|done].
    - rewrite lookup_insert_ne by done. apply Hobj. }
  apply Hinv. intros k v. by rewrite lookup_empty.
Qed.


End ParseCSV.

(** A header alone decodes to no record; a short row is padded and a long one
    cut, names and values trimmed. *)
Example parseCSV_header_only :
  parseCSV "ts_event,symbol,price
" = [].
Proof. vm_compute. reflexivity. Qed.

Example parseCSV_pads_and_cuts :
  parseCSV " a , b ,c
1, 2

4,5,6,7
" = [ <["a" := "1"]> (<["b" := "2"]> (<["c" := ""]> ∅));
      <["a" := "4"]> (<["b" := "5"]> (<["c" := "6"]> ∅)) ].
Proof. vm_compute. reflexivity. Qed.

(** ** The session classifier *)

Section Sessions.

Lemma hour_decomposition t :
  0 <= JS.HourFromTime t < 24 /\
  JS.Day t * JS.msPerDay + JS.HourFromTime t * JS.msPerHour <= t
    < JS.Day t * JS.msPerDay + (JS.HourFromTime t + 1) * JS.msPerHour.
Proof.
  unfold JS.HourFromTime, JS.Day, JS.msPerDay, JS.msPerHour.
  Z.to_euclidean_division_equations. lia.
Qed.

(** Before the last representable day, every full hour of the day of a time
    value is a time value: [setUTCHours] does not leave the range. *)
Lemma setUTCHours_in_day t hour :
  JS.time_value t -> t < JS.MAX_TIME -> 0 <= hour < 24 ->
  JS.setUTCHours (JS.DateAt t) hour 0 0 0 = utc_day_at t hour.
Proof.
  unfold JS.time_value, JS.setUTCHours, JS.TimeClip, utc_day_at,
    JS.MakeDate, JS.MakeTime.
  intros Ht Hmax Hh.
  replace (hour * JS.msPerHour + 0 * JS.msPerMinute + 0 * JS.msPerSecond + 0)
    with (hour * JS.msPerHour) by lia.
  destruct (Z.gtb_spec (Z.abs (JS.Day t * JS.msPerDay + hour * JS.msPerHour)) JS.MAX_TIME)
    as [Hgt|Hle]; [|done].
  exfalso. revert Ht Hmax Hgt.
  unfold JS.Day, JS.MAX_TIME, JS.msPerDay, JS.msPerHour.
  Z.to_euclidean_division_equations. lia.
Qed.

Lemma day_of_utc_day_at t hour :
  0 <= hour < 24 ->
  JS.Day (JS.Day t * JS.msPerDay + hour * JS.msPerHour) = JS.Day t.
Proof.
  unfold JS.Day, JS.msPerDay, JS.msPerHour. intros Hh.
  Z.to_euclidean_division_equations. lia.
Qed.

(** The classifier reads the clock only when it is given no timestamp. *)
Lemma getSessionInfo_default current :
  getSessionInfo None current = getSessionInfo (Some current) current.
Proof. reflexivity. Qed.

(** An invalid date has no hour: it falls through to [Unknown]. *)
Lemma getSessionInfo_invalid current :
  getSessionInfo (Some JS.InvalidDate) current
  = mkSessionInfo Unknown JS.InvalidDate JS.InvalidDate JS.InvalidDate.
Proof. reflexivity. Qed.

(** C7, as stated, fails at one input: at the last instant a [Date] can hold
    (8.64e15 ms, at 00:00 of its day) the session is Asian but 07:00 of that
    day is beyond the range of time values, and [sessionEnd] is an invalid
    date. *)
Lemma getSessionInfo_last_instant_table :
  JS.time_value JS.MAX_TIME
  /\ JS.HourFromTime JS.MAX_TIME = 0
  /\ sessionEnd (getSessionInfo (Some (JS.DateAt JS.MAX_TIME)) JS.InvalidDate)
     = JS.InvalidDate
  /\ getSessionInfo (Some (JS.DateAt JS.MAX_TIME)) JS.InvalidDate
     <> session_table JS.MAX_TIME.
Proof.
  split; [unfold JS.time_value, JS.MAX_TIME; lia|].
  split; [reflexivity|]. split; [reflexivity|].
  vm_compute. discriminate.
Qed.

(** In the three named sessions the bounds are two full hours of the input's
    own day with the hour of the input between them. *)
Lemma getSessionInfo_named (t : Z) (current : JS.Date) :
  JS.time_value t -> t < JS.MAX_TIME -> 0 <= JS.HourFromTime t < 22 ->
  exists first last,
    0 <= first <= JS.HourFromTime t /\ JS.HourFromTime t < last <= 22
    /\ sessionStart (getSessionInfo (Some (JS.DateAt t)) current)
       = utc_day_at t first
    /\ sessionEnd (getSessionInfo (Some (JS.DateAt t)) current)
       = utc_day_at t last.
Proof.
  intros Ht Hmax Hh.
  unfold getSessionInfo. cbn [JS.getUTCHours JS.geb JS.ltb].
  set (h := JS.HourFromTime t) in *.
  destruct (Z.leb_spec 0 h); [|lia].
  destruct (Z.ltb_spec h 7); cbn [andb sessionStart sessionEnd].
  { exists 0, 7. by rewrite !setUTCHours_in_day by (done || lia). }
  destruct (Z.leb_spec 7 h); [|lia].
  destruct (Z.ltb_spec h 14); cbn [andb sessionStart sessionEnd].
  { exists 7, 14. by rewrite !setUTCHours_in_day by (done || lia). }
  destruct (Z.leb_spec 14 h); [|lia].
  destruct (Z.ltb_spec h 22); cbn [andb sessionStart sessionEnd]; [|lia].
  exists 14, 22. by rewrite !setUTCHours_in_day by (done || lia).
Qed.

(** C7 (amended). For every time value before the last representable instant,
    [getSessionInfo] returns what the session table says, whatever the clock
    reads: hours [0,7) are Asian with bounds 00:00 and 07:00 of that UTC day,
    [7,14) London with 07:00 and 14:00, [14,22) NY with 14:00 and 22:00, and
    [22,24) Unknown with both bounds equal to the input itself. *)
Theorem getSessionInfo_table (t : Z) (current : JS.Date) :
  JS.time_value t -> t < JS.MAX_TIME ->
  getSessionInfo (Some (JS.DateAt t)) current = session_table t.
Proof.
  intros Ht Hmax.
  destruct (hour_decomposition t) as [Hh _].
  unfold getSessionInfo, session_table. cbn [JS.getUTCHours JS.geb JS.ltb].
  set (h := JS.HourFromTime t) in *.
  destruct (Z.ltb_spec h 7).
  { replace (0 <=? h) with true by (symmetry; apply Z.leb_le; lia).
    cbn [andb]. by rewrite !setUTCHours_in_day by (done || lia). }
  rewrite andb_false_r.
  destruct (Z.ltb_spec h 14).
  { replace (7 <=? h) with true by (symmetry; apply Z.leb_le; lia).
    cbn [andb]. by rewrite !setUTCHours_in_day by (done || lia). }
  rewrite andb_false_r.
  destruct (Z.ltb_spec h 22).
  { replace (14 <=? h) with true by (symmetry; apply Z.leb_le; lia).
    cbn [andb]. by rewrite !setUTCHours_in_day by (done || lia). }
  by rewrite andb_false_r.
Qed.

(** The scenario of the specification: at 2021-01-01T22:00:00Z the session is
    Unknown and both bounds are the input. *)
Lemma getSessionInfo_table_witness :
  JS.time_value 1609538400000 /\ 1609538400000 < JS.MAX_TIME
  /\ getSessionInfo (Some (JS.DateAt 1609538400000)) JS.InvalidDate
     = mkSessionInfo Unknown (JS.DateAt 1609538400000)
         (JS.DateAt 1609538400000) (JS.DateAt 1609538400000).
Proof.
  assert (Ht : JS.time_value 1609538400000)
    by (unfold JS.time_value, JS.MAX_TIME; lia).
  assert (Hmax : 1609538400000 < JS.MAX_TIME) by (unfold JS.MAX_TIME; lia).
  split; [exact Ht|]. split; [exact Hmax|].
  rewrite (getSessionInfo_table 1609538400000 JS.InvalidDate Ht Hmax).
  reflexivity.
Defined.

(** C10, as stated, fails at the same input: the hour of the last
    representable instant is 0, yet [sessionEnd] is an invalid date, so the
    input is not before it. The two failures have one cause. *)
Lemma getSessionInfo_last_instant_bounds :
  JS.time_value JS.MAX_TIME
  /\ 0 <= JS.HourFromTime JS.MAX_TIME < 22
  /\ ~ within_session_bounds JS.MAX_TIME
        (getSessionInfo (Some (JS.DateAt JS.MAX_TIME)) JS.InvalidDate).
Proof.
  split; [unfold JS.time_value, JS.MAX_TIME; lia|].
  split; [by vm_compute|].
  intros (s & e & _ & He & _). vm_compute in He. discriminate.
Qed.

(** C10 (amended). For every time value before the last representable instant
    whose UTC hour lies in [0,22), the bounds returned by [getSessionInfo] are
    valid dates of the input's own UTC calendar day with
    sessionStart <= timestamp < sessionEnd. ([getSessionInfo] is a total
    function: none of its statements can throw, for any date, valid or not.) *)
Theorem getSessionInfo_bounds (t : Z) (current : JS.Date) :
  JS.time_value t -> t < JS.MAX_TIME -> 0 <= JS.HourFromTime t < 22 ->
  within_session_bounds t (getSessionInfo (Some (JS.DateAt t)) current).
Proof.
  intros Ht Hmax Hh.
  destruct (getSessionInfo_named t current Ht Hmax Hh)
    as (first & last & Hfirst & Hlast & Hstart & Hend).
  destruct (hour_decomposition t) as [_ Hd].
  exists (JS.Day t * JS.msPerDay + first * JS.msPerHour),
         (JS.Day t * JS.msPerDay + last * JS.msPerHour).
  split; [exact Hstart|]. split; [exact Hend|].
  rewrite !day_of_utc_day_at by lia.
  unfold JS.msPerHour in *. repeat split; lia.
Qed.

(** 2021-01-01T14:00:00Z lies within the bounds of its session. *)
Lemma getSessionInfo_bounds_witness :
  JS.time_value 1609509600000 /\ 1609509600000 < JS.MAX_TIME
  /\ 0 <= JS.HourFromTime 1609509600000 < 22
  /\ within_session_bounds 1609509600000
       (getSessionInfo (Some (JS.DateAt 1609509600000)) JS.InvalidDate).
Proof.
  assert (Ht : JS.time_value 1609509600000)
    by (unfold JS.time_value, JS.MAX_TIME; lia).
  assert (Hmax : 1609509600000 < JS.MAX_TIME) by (unfold JS.MAX_TIME; lia).
  assert (Hh : 0 <= JS.HourFromTime 1609509600000 < 22) by (by vm_compute).
  repeat split; try done.
  exact (getSessionInfo_bounds 1609509600000 JS.InvalidDate Ht Hmax Hh).
Defined.

End Sessions.

(** The boundary hours of 2021-01-01, as the unit tests probe them. *)
Example getSessionInfo_boundaries :
  map (fun t => currentSession (getSessionInfo (Some (JS.DateAt t)) JS.InvalidDate))
    [1609459200000; 1609484399000; 1609484400000; 1609509599000;
     1609509600000; 1609538399000; 1609538400000; 1609541999000]
  = [Asian; Asian; London; London; NY; NY; Unknown; Unknown].
Proof. reflexivity. Qed.

(** ** Numbers: the order of floats that are not NaN *)

Section FloatOrder.

Ltac fold_pos_compare :=
  repeat match goal with
  | |- context [Pos.compare_cont Eq ?a ?b] =>
      change (Pos.compare_cont Eq a b) with (Pos.compare a b)
  end.

Lemma SFleb_trans a b c :
  SFleb a b = true -> SFleb b c = true -> SFleb a c = true.
Proof.
  unfold SFleb.
  destruct a as [sa|sa| |sa ma ea], b as [sb|sb| |sb mb eb], c as [sc|sc| |sc mc ec];
    cbn; try discriminate; try reflexivity;
    repeat match goal with s : bool |- _ => destruct s end;
    cbn; try discriminate; try reflexivity.
  all: fold_pos_compare.
  all: destruct (Z.compare_spec ea eb), (Z.compare_spec eb ec), (Z.compare_spec ea ec);
    cbn; try discriminate; try reflexivity; try lia.
  all: destruct (Pos.compare_spec ma mb), (Pos.compare_spec mb mc), (Pos.compare_spec ma mc);
    cbn; try discriminate; try reflexivity; try lia.
Qed.

Lemma SFltb_false_leb a b :
  a <> S754_nan -> b <> S754_nan -> SFltb a b = false -> SFleb b a = true.
Proof.
  unfold SFltb, SFleb.
  destruct a as [sa|sa| |sa ma ea], b as [sb|sb| |sb mb eb];
    cbn; try congruence;
    repeat match goal with s : bool |- _ => destruct s end;
    cbn; try congruence.
  all: fold_pos_compare.
  all: rewrite (Z.compare_antisym ea eb), (Pos.compare_antisym ma mb).
  all: destruct (ea ?= eb); cbn; try congruence.
  all: destruct (ma ?= mb)%positive; cbn; congruence.
Qed.

Lemma SFleb_refl a : a <> S754_nan -> SFleb a a = true.
Proof.
  unfold SFleb. destruct a as [sa|sa| |sa ma ea]; cbn; try congruence.
  - destruct sa; reflexivity.
  - intros _. fold_pos_compare. rewrite Z.compare_refl, Pos.compare_refl.
    destruct sa; reflexivity.
Qed.

Lemma not_nan_Prim2SF x : PrimFloat.is_nan x = false -> Prim2SF x <> S754_nan.
Proof.
  unfold PrimFloat.is_nan. rewrite FloatAxioms.eqb_spec. intros H E. rewrite E in H.
  discriminate.
Qed.

Lemma leb_trans x y z :
  (x <=? y)%float = true -> (y <=? z)%float = true -> (x <=? z)%float = true.
Proof. rewrite !FloatAxioms.leb_spec. apply SFleb_trans. Qed.

Lemma leb_refl x : PrimFloat.is_nan x = false -> (x <=? x)%float = true.
Proof. intros H. rewrite FloatAxioms.leb_spec. by apply SFleb_refl, not_nan_Prim2SF. Qed.

Lemma ltb_false_leb x y :
  PrimFloat.is_nan x = false -> PrimFloat.is_nan y = false ->
  (x <? y)%float = false -> (y <=? x)%float = true.
Proof.
  intros Hx Hy. rewrite FloatAxioms.ltb_spec, FloatAxioms.leb_spec.
  by apply SFltb_false_leb; apply not_nan_Prim2SF.
Qed.

Lemma ltb_true_leb x y : (x <? y)%float = true -> (x <=? y)%float = true.
Proof.
  rewrite FloatAxioms.ltb_spec, FloatAxioms.leb_spec. unfold SFltb, SFleb.
  destruct (SFcompare (Prim2SF x) (Prim2SF y)) as [[]|]; congruence.
Qed.

(** The two zeros are equal in the order. *)
Lemma zeros_leb x y :
  (JS.is_pos_zero x || JS.is_neg_zero x) = true ->
  (JS.is_pos_zero y || JS.is_neg_zero y) = true ->
  (x <=? y)%float = true.
Proof.
  unfold JS.is_pos_zero, JS.is_neg_zero.
  rewrite !FloatAxioms.classify_spec, FloatAxioms.leb_spec.
  unfold SF64classify, SFclassify, SFleb, SFcompare.
  destruct (Prim2SF x) as [sx|sx| |sx mx ex], (Prim2SF y) as [sy|sy| |sy my ey].
  all: repeat match goal with s : bool |- _ => destruct s end.
  all: repeat match goal with
       | |- context [if ?c then _ else _] => destruct c
       end.
  all: done.
Qed.

Lemma neg_infinity_below x :
  PrimFloat.is_nan x = false -> (neg_infinity <? x)%float = false ->
  x = neg_infinity.
Proof.
  intros Hx. apply not_nan_Prim2SF in Hx. rewrite FloatAxioms.ltb_spec.
  intros H. apply Prim2SF_inj.
  change (Prim2SF neg_infinity) with (S754_infinity true) in *.
  destruct (Prim2SF x) as [sx|sx| |sx mx ex]; try done.
  all: by destruct sx.
Qed.

Lemma infinity_above x :
  PrimFloat.is_nan x = false -> (x <? infinity)%float = false ->
  x = infinity.
Proof.
  intros Hx. apply not_nan_Prim2SF in Hx. rewrite FloatAxioms.ltb_spec.
  intros H. apply Prim2SF_inj.
  change (Prim2SF infinity) with (S754_infinity false) in *.
  destruct (Prim2SF x) as [sx|sx| |sx mx ex]; try done.
  all: by destruct sx.
Qed.

(** The loop of [Math.max] over values that are not NaN: its result is the
    running maximum or one of the values, and nothing it has seen is above
    it. *)
Lemma Math_max_from_spec values :
  forall highest,
  PrimFloat.is_nan highest = false ->
  Forall (fun x => PrimFloat.is_nan x = false) values ->
  PrimFloat.is_nan (JS.Math_max_from highest values) = false
  /\ (JS.Math_max_from highest values = highest
      \/ JS.Math_max_from highest values ∈ values)
  /\ (highest <=? JS.Math_max_from highest values)%float = true
  /\ Forall (fun x => (x <=? JS.Math_max_from highest values)%float = true) values.
Proof.
  induction values as [|x rest IH]; intros highest Hh Hall; cbn.
  - repeat split; [done|by left|by apply leb_refl|constructor].
  - apply Forall_cons in Hall as [Hx Hrest]. rewrite Hx.
    assert (Hstep : forall h', PrimFloat.is_nan h' = false ->
              (h' = x \/ h' = highest) ->
              (highest <=? h')%float = true -> (x <=? h')%float = true ->
              PrimFloat.is_nan (JS.Math_max_from h' rest) = false
              /\ (JS.Math_max_from h' rest = highest
                  \/ JS.Math_max_from h' rest ∈ x :: rest)
              /\ (highest <=? JS.Math_max_from h' rest)%float = true
              /\ Forall (fun y => (y <=? JS.Math_max_from h' rest)%float = true)
                   (x :: rest)).
    { intros h' Hn Hor Hle1 Hle2.
      destruct (IH h' Hn Hrest) as (Hnan & Hmem & Hle & Hbound).
      split; [done|]. split.
      - destruct Hmem as [->|Hin]; [|right; by right].
        destruct Hor as [->| ->]; [right; by left|by left].
      - split; [by eapply leb_trans|].
        constructor; [by eapply leb_trans|done]. }
    destruct (JS.is_pos_zero x && JS.is_neg_zero highest) eqn:Hz.
    + apply andb_prop in Hz as [Hz1 Hz2].
      apply Hstep; [done|by left| |by apply leb_refl].
      apply zeros_leb; [by rewrite Hz2, orb_true_r|by rewrite Hz1].
    + destruct (highest <? x)%float eqn:Hlt.
      * apply Hstep; [done|by left|by apply ltb_true_leb|by apply leb_refl].
      * apply Hstep; [done|by right|by apply leb_refl|by apply ltb_false_leb].
Qed.

Lemma Math_min_from_spec values :
  forall lowest,
  PrimFloat.is_nan lowest = false ->
  Forall (fun x => PrimFloat.is_nan x = false) values ->
  PrimFloat.is_nan (JS.Math_min_from lowest values) = false
  /\ (JS.Math_min_from lowest values = lowest
      \/ JS.Math_min_from lowest values ∈ values)
  /\ (JS.Math_min_from lowest values <=? lowest)%float = true
  /\ Forall (fun x => (JS.Math_min_from lowest values <=? x)%float = true) values.
Proof.
  induction values as [|x rest IH]; intros lowest Hl Hall; cbn.
  - repeat split; [done|by left|by apply leb_refl|constructor].
  - apply Forall_cons in Hall as [Hx Hrest]. rewrite Hx.
    assert (Hstep : forall l', PrimFloat.is_nan l' = false ->
              (l' = x \/ l' = lowest) ->
              (l' <=? lowest)%float = true -> (l' <=? x)%float = true ->
              PrimFloat.is_nan (JS.Math_min_from l' rest) = false
              /\ (JS.Math_min_from l' rest = lowest
                  \/ JS.Math_min_from l' rest ∈ x :: rest)
              /\ (JS.Math_min_from l' rest <=? lowest)%float = true
              /\ Forall (fun y => (JS.Math_min_from l' rest <=? y)%float = true)
                   (x :: rest)).
    { intros l' Hn Hor Hle1 Hle2.
      destruct (IH l' Hn Hrest) as (Hnan & Hmem & Hle & Hbound).
      split; [done|]. split.
      - destruct Hmem as [->|Hin]; [|right; by right].
        destruct Hor as [->| ->]; [right; by left|by left].
      - split; [by eapply leb_trans|].
        constructor; [by eapply leb_trans|done]. }
    destruct (JS.is_neg_zero x && JS.is_pos_zero lowest) eqn:Hz.
    + apply andb_prop in Hz as [Hz1 Hz2].
      apply Hstep; [done|by left| |by apply leb_refl].
      apply zeros_leb; [by rewrite Hz1, orb_true_r|by rewrite Hz2].
    + destruct (x <? lowest)%float eqn:Hlt.
      * apply Hstep; [done|by left|by apply ltb_true_leb|by apply leb_refl].
      * apply Hstep; [done|by right|by apply leb_refl|by apply ltb_false_leb].
Qed.

(** [Math.max] of a non-empty list without NaN is one of its values, and none
    of them is above it. *)
Lemma Math_max_greatest x values :
  Forall (fun y => PrimFloat.is_nan y = false) (x :: values) ->
  JS.Math_max (x :: values) ∈ x :: values
  /\ Forall (fun y => (y <=? JS.Math_max (x :: values))%float = true) (x :: values).
Proof.
  intros Hall. pose proof Hall as Hall'.
  apply Forall_cons in Hall' as [Hx Hrest].
  assert (E : JS.Math_max (x :: values) = JS.Math_max_from x values).
  { unfold JS.Math_max. cbn. rewrite Hx.
    change (JS.is_neg_zero neg_infinity) with false. rewrite andb_false_r.
    match goal with
    | |- context [if ?c then _ else _] => destruct c eqn:Hlt
    end; [done|].
    by rewrite (neg_infinity_below x Hx Hlt). }
  rewrite E.
  destruct (Math_max_from_spec values x Hx Hrest) as (_ & Hmem & Hle & Hbound).
  split.
  - destruct Hmem as [->|Hin]; [by left|by right].
  - by constructor.
Qed.

Lemma Math_min_least x values :
  Forall (fun y => PrimFloat.is_nan y = false) (x :: values) ->
  JS.Math_min (x :: values) ∈ x :: values
  /\ Forall (fun y => (JS.Math_min (x :: values) <=? y)%float = true) (x :: values).
Proof.
  intros Hall. pose proof Hall as Hall'.
  apply Forall_cons in Hall' as [Hx Hrest].
  assert (E : JS.Math_min (x :: values) = JS.Math_min_from x values).
  { unfold JS.Math_min. cbn. rewrite Hx.
    change (JS.is_pos_zero infinity) with false. rewrite andb_false_r.
    match goal with
    | |- context [if ?c then _ else _] => destruct c eqn:Hlt
    end; [done|].
    by rewrite (infinity_above x Hx Hlt). }
  rewrite E.
  destruct (Math_min_from_spec values x Hx Hrest) as (_ & Hmem & Hle & Hbound).
  split.
  - destruct Hmem as [->|Hin]; [by left|by right].
  - by constructor.
Qed.

End FloatOrder.

(** ** Aggregation to 4-hour bars *)

Section Aggregation.

Lemma slice_chunk {A : Type} (l : list A) (i : nat) :
  JS.slice l (Z.of_nat i) (Some (Z.of_nat i + 4)) = take 4 (drop i l).
Proof.
  unfold JS.slice, JS.relative_index.
  destruct (Z.ltb_spec (Z.of_nat i) 0); [lia|].
  destruct (Z.ltb_spec (Z.of_nat i + 4) 0); [lia|].
  destruct (le_lt_dec (length l) i).
  - rewrite !drop_ge by lia. by rewrite !take_nil.
  - replace (Z.to_nat (Z.of_nat i `min` Z.of_nat (length l))) with i by lia.
    destruct (le_lt_dec (i + 4) (length l)).
    + f_equal. lia.
    + rewrite !take_ge; [done| |]; rewrite length_drop; lia.
Qed.

Lemma chunk_nonempty {A : Type} (l : list A) (i : nat) :
  (i < length l)%nat -> exists x rest, take 4 (drop i l) = x :: rest.
Proof.
  intros Hi. destruct (drop i l) as [|x rest] eqn:E.
  - apply (f_equal length) in E. rewrite length_drop in E. simpl in E. lia.
  - exists x, (take 3 rest). reflexivity.
Qed.

Lemma chunks_after_one (n i : nat) :
  (i < n)%nat -> S ((n - (i + 4) + 3) / 4) = ((n - i + 3) / 4)%nat.
Proof.
  intros Hi.
  destruct (le_lt_dec (i + 4) n).
  - replace (n - i + 3)%nat with ((n - (i + 4) + 3) + 1 * 4)%nat by lia.
    rewrite Nat.div_add by lia. lia.
  - replace (n - (i + 4))%nat with 0%nat by lia.
    change ((0 + 3) / 4)%nat with 0%nat.
    apply (Nat.div_unique _ 4 1 (n - i - 1)%nat); lia.
Qed.

(** One round of the loop. *)
Lemma aggregateToH4_loop_step bars i h4Bars :
  aggregateToH4_loop bars i h4Bars =
  if lt_dec i (length bars) then
    match take 4 (drop i bars) with
    | [] => aggregateToH4_loop bars (i + 4) h4Bars
    | chunk0 :: _ =>
        aggregateToH4_loop bars (i + 4)
          (h4Bars ++ [aggregate_chunk chunk0 (take 4 (drop i bars))])
    end
  else h4Bars.
Proof.
  rewrite aggregateToH4_loop_equation_1.
  destruct (lt_dec i (length bars)); simpl; [|done].
  by rewrite slice_chunk.
Qed.

(** What the loop appends from index [i] on: one bar per chunk of four. *)
Lemma aggregateToH4_loop_spec bars n :
  forall i h4Bars, (length bars - i <= n)%nat ->
  exists pushed,
    aggregateToH4_loop bars i h4Bars = h4Bars ++ pushed
    /\ length pushed = ((length bars - i + 3) / 4)%nat
    /\ forall k, (k < length pushed)%nat ->
       exists chunk0 rest,
         take 4 (drop (i + 4 * k) bars) = chunk0 :: rest
         /\ pushed !! k = Some (aggregate_chunk chunk0 (chunk0 :: rest)).
Proof.
  induction n as [|n IH]; intros i h4Bars Hn.
  - exists []. rewrite aggregateToH4_loop_step.
    destruct (lt_dec i (length bars)); [lia|].
    rewrite app_nil_r. split; [done|].
    split; [|simpl; intros; lia].
    replace (length bars - i)%nat with 0%nat by lia. reflexivity.
  - rewrite aggregateToH4_loop_step.
    destruct (lt_dec i (length bars)) as [Hi|Hi].
    + destruct (chunk_nonempty bars i Hi) as (chunk0 & rest & Hchunk).
      rewrite Hchunk.
      destruct (IH (i + 4)%nat (h4Bars ++ [aggregate_chunk chunk0 (chunk0 :: rest)]))
        as (pushed & -> & Hlen & Hk); [lia|].
      exists (aggregate_chunk chunk0 (chunk0 :: rest) :: pushed).
      split; [by rewrite <- app_assoc|].
      split.
      * simpl. rewrite Hlen. by apply chunks_after_one.
      * intros [|k] Hlt.
        -- exists chunk0, rest. by rewrite Nat.mul_0_r, Nat.add_0_r.
        -- simpl in Hlt. destruct (Hk k) as (c & r & Hc & Hp); [lia|].
           exists c, r. split; [|done].
           by replace (i + 4 * S k)%nat with (i + 4 + 4 * k)%nat by lia.
    + exists []. rewrite app_nil_r. split; [done|].
      split; [|simpl; intros; lia].
      replace (length bars - i)%nat with 0%nat by lia. reflexivity.
Qed.

(** C5. For every list of bars, [aggregateToH4] returns ceil(n/4) bars, and
    its [k]-th bar aggregates the [k]-th group of four consecutive bars (the
    bars 4k to 4k+3, fewer in a trailing group, which is never empty): the
    open is the open of the group's first bar, the high is [Math.max] of the
    group's highs, the low [Math.min] of its lows, the close is the close of
    its last bar, and the volume the sum of its volumes, added from the left
    starting at 0. When no high of the group is NaN the high is one of them
    and none is above it, and likewise for the low. *)
Theorem aggregateToH4_groups (bars : list BarData) :
  length (aggregateToH4 bars) = ((length bars + 3) / 4)%nat
  /\ forall k, (k < (length bars + 3) / 4)%nat ->
     exists first rest out,
       take 4 (drop (4 * k) bars) = first :: rest
       /\ aggregateToH4 bars !! k = Some out
       /\ bar_timestamp out = bar_timestamp first
       /\ open out = open first
       /\ high out = JS.Math_max (high <$> first :: rest)
       /\ low out = JS.Math_min (low <$> first :: rest)
       /\ close out = close (List.last (first :: rest) first)
       /\ volume out
          = fold_left (fun sum b => (sum + volume b)%float) (first :: rest)
              PrimFloat.zero
       /\ (Forall (fun b => PrimFloat.is_nan (high b) = false) (first :: rest) ->
           (exists b, b ∈ first :: rest /\ high out = high b)
           /\ Forall (fun b => (high b <=? high out)%float = true) (first :: rest))
       /\ (Forall (fun b => PrimFloat.is_nan (low b) = false) (first :: rest) ->
           (exists b, b ∈ first :: rest /\ low out = low b)
           /\ Forall (fun b => (low out <=? low b)%float = true) (first :: rest)).
Proof.
  unfold aggregateToH4.
  destruct (aggregateToH4_loop_spec bars (length bars) 0%nat [])
    as (pushed & -> & Hlen & Hk); [lia|].
  rewrite Nat.sub_0_r in Hlen. rewrite app_nil_l.
  split; [done|].
  intros k Hlt. destruct (Hk k) as (c & r & Hc & Hp); [lia|].
  exists c, r, (aggregate_chunk c (c :: r)).
  do 8 (split; [done|]).
  split; intros Hnan.
  - destruct (Math_max_greatest (high c) (high <$> r)) as [Hin Hle].
    { change (high c :: (high <$> r)) with (high <$> c :: r). by apply Forall_fmap. }
    split.
    + change (high c :: (high <$> r)) with (high <$> c :: r) in Hin.
      apply list_elem_of_fmap in Hin as (b & Hb & Hin). by exists b.
    + change (high c :: (high <$> r)) with (high <$> c :: r) in Hle.
      by apply Forall_fmap in Hle.
  - destruct (Math_min_least (low c) (low <$> r)) as [Hin Hle].
    { change (low c :: (low <$> r)) with (low <$> c :: r). by apply Forall_fmap. }
    split.
    + change (low c :: (low <$> r)) with (low <$> c :: r) in Hin.
      apply list_elem_of_fmap in Hin as (b & Hb & Hin). by exists b.
    + change (low c :: (low <$> r)) with (low <$> c :: r) in Hle.
      by apply Forall_fmap in Hle.
Qed.

End Aggregation.

(** Three bars, an incomplete group, give one bar. *)
Example aggregateToH4_incomplete_group :
  aggregateToH4
    [mkBarData (JS.DateAt 1609459200000) 4.5 4.625 4.375 4.5625 1000;
     mkBarData (JS.DateAt 1609462800000) 4.5625 4.6875 4.4375 4.625 1100;
     mkBarData (JS.DateAt 1609466400000) 4.625 4.75 4.5 4.6875 1200]%float
  = [mkBarData (JS.DateAt 1609459200000) 4.5 4.75 4.375 4.6875 3300]%float.
Proof. vm_compute. reflexivity. Qed.

Example aggregateToH4_empty : aggregateToH4 [] = [].
Proof. reflexivity. Qed.

(** ** The transport *)

Section Transport.

Variable env : Env.

(** One attempt calls [fetch] once and ends as [attempt_outcome] says. *)
Lemma attempt_once_outcome request w :
  attempt_once env request w
  = (attempt_outcome (network env (fetch_calls w) request),
     mkWorld (clock_reads w) (S (fetch_calls w)) (priceCache w)
       (trace w ++ [EvFetch request])).
Proof.
  unfold attempt_once, attempt_outcome, mbind, M_bind, fetch, settle, throw.
  destruct (network env (fetch_calls w) request) as [r|e]; [|done].
  destruct (ok r); simpl; [done|].
  by destruct (text r).
Qed.


(** What any call of the transport does to the world: between one and three
    calls of [fetch], all with the same request, and nothing else but sleeps;
    the clock and the cache are left alone. *)
Lemma makeRequest_effects endpoint params w :
  exists events,
    trace (snd (makeRequest env endpoint params w)) = trace w ++ events
    /\ fetch_calls (snd (makeRequest env endpoint params w))
       = (fetch_calls w + attempts events)%nat
    /\ (1 <= attempts events <= 3)%nat
    /\ Forall (fun ev => is_fetch ev = true ->
                         ev = EvFetch (mkRequest endpoint params)) events
    /\ clock_reads (snd (makeRequest env endpoint params w)) = clock_reads w
    /\ priceCache (snd (makeRequest env endpoint params w)) = priceCache w.
Proof.
  unfold makeRequest. set (request := mkRequest endpoint params).
  rewrite makeRequest_loop_equation_1. cbn -[attempt_once].
  rewrite attempt_once_outcome.
  destruct (attempt_outcome (network env (fetch_calls w) request)) as [t1|e1].
  { exists [EvFetch request]. cbn. repeat split; try (done || lia).
    by repeat constructor. }
  rewrite makeRequest_loop_equation_1. cbn -[attempt_once].
  rewrite attempt_once_outcome. cbn.
  destruct (attempt_outcome (network env (S (fetch_calls w)) request)) as [t2|e2].
  { exists [EvFetch request; EvSleep 1000; EvFetch request]. cbn.
    rewrite <- !app_assoc. repeat split; try (done || lia).
    by repeat constructor. }
  rewrite makeRequest_loop_equation_1. cbn -[attempt_once].
  rewrite attempt_once_outcome. cbn.
  exists [EvFetch request; EvSleep 1000; EvFetch request;
          EvSleep 2000; EvFetch request].
  destruct (attempt_outcome (network env (S (S (fetch_calls w))) request))
    as [t3|e3]; cbn.
  all: rewrite <- !app_assoc; repeat split; try (done || lia).
  all: by repeat constructor.
Qed.

End Transport.

(** The mocked transport of the specification: two failures, then success.
    The call returns the text of the third attempt after sleeping 1 s and
    2 s. *)
Example makeRequest_third_attempt_succeeds :
  makeRequest (mkEnv (stepping_clock 0 1) (flaky_network "payload")) "/v0/x" []
    empty_world
  = (JS.Returned "payload",
     mkWorld 0 3 ∅
       [EvFetch (mkRequest "/v0/x" []); EvSleep 1000;
        EvFetch (mkRequest "/v0/x" []); EvSleep 2000;
        EvFetch (mkRequest "/v0/x" [])]).
Proof. vm_compute. reflexivity. Qed.

(** Three failures: the terminal error names the count and the last one. *)
Example makeRequest_gives_up :
  fst (makeRequest (mkEnv (stepping_clock 0 1) failing_network) "/v0/x" []
         empty_world)
  = JS.Thrown
      (JS.new_Error
         "DataBento API request failed after 3 attempts: Error: HTTP 500: Internal Server Error - boom").
Proof. vm_compute. reflexivity. Qed.

(** ** Quotes *)

Section Quotes.

Variable env : Env.

Lemma bind_run {A B : Type} (m : M A) (f : A -> M B) (w : World) :
  (m ≫= f) w
  = match m w with
    | (JS.Returned a, w') => f a w'
    | (JS.Thrown e, w') => (JS.Thrown e, w')
    end.
Proof. reflexivity. Qed.

Lemma new_Date_run w :
  new_Date env w = (JS.Returned (JS.TimeClip (clock env (clock_reads w))), tick w).
Proof. reflexivity. Qed.

Lemma Date_now_run w :
  Date_now env w = (JS.Returned (clock env (clock_reads w)), tick w).
Proof. reflexivity. Qed.

(** Rendering a date touches nothing; it throws only for an invalid date. *)
Lemma iso_date_run d w : exists r, iso_date d w = (r, w).
Proof.
  unfold iso_date. rewrite bind_run. unfold settle.
  destruct (JS.toISOString d); eauto.
Qed.

Lemma iso_date_valid t w : exists s, iso_date (JS.DateAt t) w = (JS.Returned s, w).
Proof.
  unfold iso_date. rewrite bind_run. unfold settle, JS.toISOString.
  destruct (JS.civil_from_days (JS.Day t)) as [[y m] dd]. eauto.
Qed.

Lemma TimeClip_time_value t : JS.time_value t -> JS.TimeClip t = JS.DateAt t.
Proof.
  unfold JS.time_value, JS.TimeClip. intros Ht.
  destruct (Z.gtb_spec (Z.abs t) JS.MAX_TIME); [lia|done].
Qed.

(** What the fetch path of [getQuote] does. The cache changes only when the
    call returns, and then only at [symbol]; the quote is built from the last
    data line of the text the transport returned. *)
Lemma fetchQuote_cases symbol w :
  exists events,
    trace (snd (fetchQuote env symbol w)) = trace w ++ events
    /\ fetch_calls (snd (fetchQuote env symbol w))
       = (fetch_calls w + attempts events)%nat
    /\ (attempts events <= 3)%nat
    /\ (sane_clock env -> is_Some (SYMBOL_MAP !! symbol) ->
        (1 <= attempts events)%nat
        /\ exists request,
             Forall (fun ev => is_fetch ev = true -> ev = EvFetch request) events)
    /\ match fst (fetchQuote env symbol w) with
       | JS.Thrown _ => priceCache (snd (fetchQuote env symbol w)) = priceCache w
       | JS.Returned q =>
           exists params response line0 rest,
             fst (makeRequest env "/v0/timeseries.get_range" params (tick w))
             = JS.Returned response
             /\ data_lines response = line0 :: rest
             /\ q = parse_quote symbol (List.last (line0 :: rest) line0)
                      (clock env (S (clock_reads w)))
             /\ priceCache (snd (fetchQuote env symbol w))
                = <[symbol := mkCacheEntry q (clock env (S (S (clock_reads w))))]>
                    (priceCache w)
             /\ (1 <= attempts events)%nat
       end.
Proof.
  unfold fetchQuote.
  destruct (SYMBOL_MAP !! symbol) as [databentoSymbol|] eqn:Hsym.
  2:{ exists []. cbn. rewrite app_nil_r.
      repeat split; try (done || lia). }
  rewrite bind_run, new_Date_run.
  set (today := JS.TimeClip (clock env (clock_reads w))).
  rewrite bind_run.
  destruct (iso_date_run (JS.setDate_back today 7) (tick w)) as [r1 Hr1].
  destruct (iso_date_run today (tick w)) as [r2 Hr2].
  assert (Hsane : sane_clock env ->
            exists s1 s2, r1 = JS.Returned s1 /\ r2 = JS.Returned s2).
  { intros Hc. specialize (Hc (clock_reads w)).
    subst today. revert Hr1 Hr2.
    rewrite TimeClip_time_value by (unfold JS.time_value; lia).
    unfold JS.setDate_back.
    rewrite TimeClip_time_value
      by (unfold JS.time_value, JS.MAX_TIME, JS.msPerDay in *; lia).
    intros Hr1 Hr2.
    destruct (iso_date_valid (clock env (clock_reads w) - 7 * JS.msPerDay) (tick w))
      as [s1 Hs1].
    destruct (iso_date_valid (clock env (clock_reads w)) (tick w)) as [s2 Hs2].
    exists s1, s2. split; congruence. }
  rewrite Hr1. destruct r1 as [start|e1].
  2:{ exists []. cbn. rewrite app_nil_r. repeat split; try (done || lia).
      all: match goal with
           | Hc : sane_clock env |- _ =>
               by destruct (Hsane Hc) as (? & ? & ? & ?)
           end. }
  rewrite bind_run, Hr2. destruct r2 as [end_|e2].
  2:{ exists []. cbn. rewrite app_nil_r. repeat split; try (done || lia).
      all: match goal with
           | Hc : sane_clock env |- _ =>
               by destruct (Hsane Hc) as (? & ? & ? & ?)
           end. }
  rewrite bind_run.
  match goal with
  | |- context [makeRequest env ?ep ?ps (tick w)] =>
      set (params := ps);
      destruct (makeRequest_effects env ep params (tick w))
        as (events & Htr & Hfc & Hat & Hreq & Hcr & Hpc);
      destruct (makeRequest env ep params (tick w)) as [r w2] eqn:Hmk
  end.
  cbn [fst snd] in *. cbn [trace tick fetch_calls clock_reads priceCache] in *.
  exists events.
  destruct r as [response|e].
  2:{ cbn [fst snd]. repeat split; try (done || lia). eauto. }
  destruct (JS.truthy response) eqn:Htruthy; cbn [negb].
  2:{ unfold throw. cbn [fst snd]. repeat split; try (done || lia). eauto. }
  destruct (data_lines response) as [|line0 rest] eqn:Hlines.
  { unfold throw. cbn [fst snd]. repeat split; try (done || lia). eauto. }
  rewrite bind_run, Date_now_run, bind_run, Date_now_run.
  unfold priceCache_set, mret, M_ret. rewrite bind_run.
  cbn [fst snd tick trace fetch_calls clock_reads priceCache].
  rewrite Hcr, Hpc.
  repeat split; try (done || lia); [eauto|].
  exists params, response, line0, rest.
  repeat split; try (done || lia).
  by rewrite Hmk.
Qed.

(** The cache check in front of the fetch path. *)
Lemma getQuote_run symbol w :
  getQuote env symbol w
  = match priceCache w !! symbol with
    | Some c =>
        if (clock env (clock_reads w) - cache_timestamp c <? CACHE_TTL)%Z
        then (JS.Returned (data c), tick w)
        else fetchQuote env symbol (tick w)
    | None => fetchQuote env symbol w
    end.
Proof.
  unfold getQuote. rewrite bind_run. unfold priceCache_get.
  destruct (priceCache w !! symbol) as [c|]; [|done].
  rewrite bind_run, bind_run, Date_now_run.
  unfold mret, M_ret.
  by destruct (clock env (clock_reads w) - cache_timestamp c <? CACHE_TTL)%Z.
Qed.

(** C3 (amended). While the entry of a symbol is younger than 30 seconds
    (now - storedAt < TTL), [getQuote] returns its quote as it is, with no
    call of [fetch], no sleep and no change to the cache. Once 30 seconds have
    passed the entry is not used: the call goes through the transport once
    (at most three attempts; with a sane clock and a known symbol at least
    one, all for one and the same request), and it overwrites the entry of
    that symbol when it returns a quote; when it throws, the entry stays. *)
Theorem getQuote_cache (symbol : string) (c : CacheEntry) (w : World) :
  priceCache w !! symbol = Some c ->
  let now := clock env (clock_reads w) in
  let result := getQuote env symbol w in
  (now - cache_timestamp c < CACHE_TTL ->
     fst result = JS.Returned (data c)
     /\ trace (snd result) = trace w
     /\ fetch_calls (snd result) = fetch_calls w
     /\ priceCache (snd result) = priceCache w)
  /\ (CACHE_TTL <= now - cache_timestamp c ->
      exists events,
        trace (snd result) = trace w ++ events
        /\ fetch_calls (snd result) = (fetch_calls w + attempts events)%nat
        /\ (attempts events <= 3)%nat
        /\ (sane_clock env -> is_Some (SYMBOL_MAP !! symbol) ->
            (1 <= attempts events)%nat
            /\ exists request,
                 Forall (fun ev => is_fetch ev = true -> ev = EvFetch request)
                   events)
        /\ match fst result with
           | JS.Returned q =>
               priceCache (snd result)
               = <[symbol := mkCacheEntry q (clock env (clock_reads w + 3))]>
                   (priceCache w)
               /\ (1 <= attempts events)%nat
           | JS.Thrown _ => priceCache (snd result) = priceCache w
           end).
Proof.
  intros Hc now result. subst result now. rewrite getQuote_run, Hc.
  split.
  - intros Hfresh. apply Z.ltb_lt in Hfresh. by rewrite Hfresh.
  - intros Hstale. apply Z.ltb_ge in Hstale. rewrite Hstale.
    destruct (fetchQuote_cases symbol (tick w))
      as (events & Htr & Hfc & Hat & Hreq & Hres).
    exists events. repeat split; try done.
    + by apply Hreq.
    + by apply Hreq.
    + destruct (fst (fetchQuote env symbol (tick w))) as [q|e]; [|done].
      destruct Hres as (params & response & line0 & rest & _ & _ & _ & Hpc & Hone).
      split; [|done]. cbn [tick clock_reads priceCache] in Hpc.
      by replace (clock_reads w + 3)%nat with (S (S (S (clock_reads w)))) by lia.
Qed.

(** C9. A call [getQuote(s)] leaves the entry of every other symbol as it
    was, and when it throws, whatever the reason, the whole cache is as it
    was before the call, a stale entry of [s] included. *)
Theorem getQuote_frame (symbol : string) (w : World) :
  let result := getQuote env symbol w in
  (forall key, key <> symbol ->
     priceCache (snd result) !! key = priceCache w !! key)
  /\ (forall e, fst result = JS.Thrown e ->
       priceCache (snd result) = priceCache w).
Proof.
  intros result. subst result. rewrite getQuote_run.
  assert (Hfetch : forall w0,
    (forall key, key <> symbol ->
       priceCache (snd (fetchQuote env symbol w0)) !! key = priceCache w0 !! key)
    /\ (forall e, fst (fetchQuote env symbol w0) = JS.Thrown e ->
         priceCache (snd (fetchQuote env symbol w0)) = priceCache w0)).
  { intros w0.
    destruct (fetchQuote_cases symbol w0) as (events & _ & _ & _ & _ & Hres).
    destruct (fst (fetchQuote env symbol w0)) as [q|e0].
    - destruct Hres as (? & ? & ? & ? & _ & _ & _ & -> & _).
      split; [|done]. intros key Hne. by rewrite lookup_insert_ne.
    - rewrite Hres. by split. }
  destruct (priceCache w !! symbol) as [c|]; [|apply Hfetch].
  destruct (clock env (clock_reads w) - cache_timestamp c <? CACHE_TTL)%Z.
  - by split.
  - apply (Hfetch (tick w)).
Qed.

(** C2 (amended). The [dataAge] of a quote is the clock reading taken while
    the quote is built, minus the event timestamp, and it is stored with the
    quote: a call that finds a fresh entry returns the stored quote as it is,
    with the age computed when it was fetched. *)
Theorem getQuote_dataAge (symbol : string) (w : World) (q : QuoteData) :
  fst (getQuote env symbol w) = JS.Returned q ->
  match priceCache w !! symbol with
  | Some c =>
      if (clock env (clock_reads w) - cache_timestamp c <? CACHE_TTL)%Z
      then q = data c
      else dataAge q
           = (JS.Z_to_number (clock env (clock_reads w + 2))
              - JS.getTime (quote_timestamp q))%float
  | None =>
      dataAge q
      = (JS.Z_to_number (clock env (clock_reads w + 1))
         - JS.getTime (quote_timestamp q))%float
  end.
Proof.
  rewrite getQuote_run.
  assert (Hfetch : forall w0,
    fst (fetchQuote env symbol w0) = JS.Returned q ->
    dataAge q = (JS.Z_to_number (clock env (S (clock_reads w0)))
                 - JS.getTime (quote_timestamp q))%float).
  { intros w0 Hq.
    destruct (fetchQuote_cases symbol w0) as (events & _ & _ & _ & _ & Hres).
    rewrite Hq in Hres.
    destruct Hres as (? & ? & ? & ? & _ & _ & -> & _). reflexivity. }
  destruct (priceCache w !! symbol) as [c|].
  - destruct (clock env (clock_reads w) - cache_timestamp c <? CACHE_TTL)%Z.
    + cbn. congruence.
    + intros Hq. apply Hfetch in Hq. cbn [tick clock_reads] in Hq.
      by replace (clock_reads w + 2)%nat with (S (S (clock_reads w))) by lia.
  - intros Hq. apply Hfetch in Hq.
    by replace (clock_reads w + 1)%nat with (S (clock_reads w)) by lia.
Qed.


End Quotes.

(** ** Scenarios *)

Section QuoteScenarios.

(** A cached entry 11 seconds old is returned without a request. *)
Lemma getQuote_cache_witness :
  priceCache old_world !! "ES" = Some (mkCacheEntry old_quote 1609459200000)
  /\ clock quote_env 0 - 1609459200000 < CACHE_TTL
  /\ fst (getQuote quote_env "ES" old_world) = JS.Returned old_quote
  /\ trace (snd (getQuote quote_env "ES" old_world)) = []
  /\ fetch_calls (snd (getQuote quote_env "ES" old_world)) = 0%nat
  /\ priceCache (snd (getQuote quote_env "ES" old_world)) = priceCache old_world.
Proof.
  assert (Hc : priceCache old_world !! "ES"
               = Some (mkCacheEntry old_quote 1609459200000))
    by (vm_compute; reflexivity).
  assert (Hfresh : clock quote_env 0 - 1609459200000 < CACHE_TTL)
    by (vm_compute; reflexivity).
  split; [exact Hc|]. split; [exact Hfresh|].
  exact (proj1 (getQuote_cache quote_env "ES" _ old_world Hc) Hfresh).
Defined.

(** C3, as stated, fails: a stale entry (40 seconds old), one call of [fetch]
    answered 200 with a header line only. The call throws, and the entry of
    the symbol is not overwritten. *)
Lemma getQuote_stale_not_overwritten :
  let result := getQuote no_data_env "ES" old_world in
  priceCache old_world !! "ES" = Some (mkCacheEntry old_quote 1609459200000)
  /\ CACHE_TTL <= clock no_data_env 0 - 1609459200000
  /\ attempts (trace (snd result)) = 1%nat
  /\ fst result = JS.Thrown (JS.new_Error "No recent data available for ES")
  /\ priceCache (snd result) !! "ES"
     = Some (mkCacheEntry old_quote 1609459200000).
Proof. vm_compute. repeat split; (reflexivity || discriminate). Qed.

(** C2, as stated, fails: a second call 20 seconds after the quote was built
    finds the entry fresh and returns the age computed at fetch time (20
    seconds), not the age at this read (40 seconds). *)
Lemma getQuote_cached_age_is_stale :
  let w1 := snd (getQuote quote_env "ES" empty_world) in
  let now := clock quote_env (clock_reads w1) in
  exists q,
    fst (getQuote quote_env "ES" w1) = JS.Returned q
    /\ trace (snd (getQuote quote_env "ES" w1)) = trace w1
    /\ dataAge q = 20000%float
    /\ (JS.Z_to_number now - JS.getTime (quote_timestamp q))%float = 40000%float
    /\ dataAge q <> (JS.Z_to_number now - JS.getTime (quote_timestamp q))%float.
Proof.
  exists es_quote. vm_compute. repeat split; try reflexivity.
  intros H. apply (f_equal Prim2SF) in H. vm_compute in H. discriminate.
Qed.

(** A first call through [quote_env] with an empty cache: the age is the
    second clock reading of the call minus the event time. *)
Lemma getQuote_dataAge_witness :
  fst (getQuote quote_env "ES" empty_world) = JS.Returned es_quote
  /\ dataAge es_quote
     = (JS.Z_to_number (clock quote_env 1)
        - JS.getTime (quote_timestamp es_quote))%float.
Proof.
  assert (Hq : fst (getQuote quote_env "ES" empty_world) = JS.Returned es_quote)
    by (vm_compute; reflexivity).
  split; [exact Hq|].
  exact (getQuote_dataAge quote_env "ES" empty_world es_quote Hq).
Defined.


(** A stale entry (40 seconds old) in front of a network that has data: one
    call of [fetch], and the entry is replaced by the new quote, stored at the
    fourth clock reading of the call. *)
Example getQuote_stale_refreshed :
  let env := mkEnv (stepping_clock 1609459240000 1000) (always_ok quote_csv) in
  let result := getQuote env "ES" old_world in
  let q := mkQuoteData "ES" 4501%float 4500%float 4502%float
             (JS.DateAt 1609459201000) 41000%float in
  fst result = JS.Returned q
  /\ attempts (trace (snd result)) = 1%nat
  /\ priceCache (snd result) !! "ES" = Some (mkCacheEntry q 1609459243000).
Proof. vm_compute. repeat split; reflexivity. Qed.

(** Fixed-point decoding: the scaled integer divided by 1e9. *)
Example fixed_point_decode :
  (JS.parseFloat "4500000000" / 1e9)%float = 4.5%float
  /\ (JS.parseFloat "4500000000000" / 1e9)%float = 4500%float.
Proof. vm_compute. split; reflexivity. Qed.

(** An empty body and a body of blank lines both end in a no-data error, and
    the world is left without a quote. *)
Example getQuote_no_data :
  fst (getQuote (mkEnv (stepping_clock 0 1) (always_ok "")) "ES" empty_world)
  = JS.Thrown (JS.new_Error "No quote data available for ES")
  /\ fst (getQuote (mkEnv (stepping_clock 0 1) (always_ok "
   ")) "ES" empty_world)
     = JS.Thrown (JS.new_Error "No recent data available for ES")
  /\ priceCache (snd (getQuote (mkEnv (stepping_clock 0 1) (always_ok ""))
                        "ES" empty_world)) = ∅.
Proof. vm_compute. repeat split; reflexivity. Qed.

End QuoteScenarios.

(** ** Historical bars *)

Section HistoricalBars.

(** [bars.slice(-count)] for a count of at least one: the last [count] bars,
    or all of them when there are fewer. *)
Lemma slice_last_count {A : Type} (l : list A) (count : Z) :
  1 <= count ->
  JS.slice l (- count) None = drop (length l - Z.to_nat count) l.
Proof.
  intros Hcount. unfold JS.slice, JS.relative_index.
  destruct (Z.ltb_spec (- count) 0); [|lia].
  replace (Z.to_nat (Z.max (Z.of_nat (length l) + - count) 0))
    with (length l - Z.to_nat count)%nat by lia.
  apply take_ge. rewrite length_drop. lia.
Qed.

(** A count of zero does not give an empty result: [slice(-0)] is
    [slice(0)], the whole array. *)
Lemma slice_zero_count {A : Type} (l : list A) : JS.slice l (- 0) None = l.
Proof.
  unfold JS.slice, JS.relative_index.
  change (- 0 <? 0) with false. cbn match.
  replace (Z.to_nat (Z.min (- 0) (Z.of_nat (length l)))) with 0%nat by lia.
  rewrite drop_0. apply take_ge. lia.
Qed.

(** What [getHistoricalBars] returns when it returns: the bars decoded from
    the data lines of the transport's text, aggregated as a whole for H4 and
    cut to the last [count] otherwise. *)
Lemma getHistoricalBars_cases env s timeframe count w bars :
  fst (getHistoricalBars env s timeframe count w) = JS.Returned bars ->
  exists params response,
    fst (makeRequest env "/v0/timeseries.get_range" params (tick (tick w)))
    = JS.Returned response
    /\ data_lines response <> []
    /\ bars = match timeframe with
              | Timeframe_H4 => aggregateToH4 (map parse_bar (data_lines response))
              | _ => JS.slice (map parse_bar (data_lines response)) (- count) None
              end.
Proof.
  unfold getHistoricalBars.
  destruct (SYMBOL_MAP !! s) as [databentoSymbol|]; [|discriminate].
  rewrite bind_run, new_Date_run, bind_run, new_Date_run, bind_run.
  match goal with
  | |- context [iso_date ?d (tick (tick w))] =>
      destruct (iso_date_run d (tick (tick w))) as [r1 ->]
  end.
  destruct r1 as [start|e1]; [|discriminate].
  rewrite bind_run.
  match goal with
  | |- context [iso_date ?d (tick (tick w))] =>
      destruct (iso_date_run d (tick (tick w))) as [r2 ->]
  end.
  destruct r2 as [end_|e2]; [|discriminate].
  rewrite bind_run.
  match goal with
  | |- context [makeRequest env ?ep ?ps (tick (tick w))] =>
      set (params := ps);
      destruct (makeRequest env ep params (tick (tick w))) as [r w2] eqn:Hmk
  end.
  destruct r as [response|e]; [|discriminate].
  destruct (JS.truthy response); cbn [negb]; [|discriminate].
  destruct (data_lines response) as [|line0 rest] eqn:Hlines; [discriminate|].
  intros Hbars. exists params, response. rewrite Hmk, Hlines.
  split; [done|]. split; [done|].
  by destruct timeframe; injection Hbars as <-.
Qed.

(** The 1-hour and 1-day paths do truncate: for a count of at least one they
    return the last [count] decoded bars, all of them when fewer exist. *)
Lemma getHistoricalBars_last_count env s timeframe count w bars :
  timeframe <> Timeframe_H4 -> 1 <= count ->
  fst (getHistoricalBars env s timeframe count w) = JS.Returned bars ->
  exists params response,
    fst (makeRequest env "/v0/timeseries.get_range" params (tick (tick w)))
    = JS.Returned response
    /\ let decoded := map parse_bar (data_lines response) in
       bars = drop (length decoded - Z.to_nat count) decoded
       /\ length bars = Nat.min (Z.to_nat count) (length decoded).
Proof.
  intros Htf Hcount Hbars.
  destruct (getHistoricalBars_cases _ _ _ _ _ _ Hbars)
    as (params & response & Hmk & _ & ->).
  exists params, response. split; [done|]. cbn zeta.
  destruct timeframe; [|done|]; rewrite slice_last_count by done.
  all: split; [done|]; rewrite length_drop; lia.
Qed.

(** The 4-hour path returns every aggregated bar, whatever the count. *)
Lemma getHistoricalBars_H4_all env s count w bars :
  fst (getHistoricalBars env s Timeframe_H4 count w) = JS.Returned bars ->
  exists params response,
    fst (makeRequest env "/v0/timeseries.get_range" params (tick (tick w)))
    = JS.Returned response
    /\ bars = aggregateToH4 (map parse_bar (data_lines response))
    /\ length bars = ((length (data_lines response) + 3) / 4)%nat.
Proof.
  intros Hbars.
  destruct (getHistoricalBars_cases _ _ _ _ _ _ Hbars)
    as (params & response & Hmk & _ & ->).
  exists params, response. split; [done|]. split; [done|].
  destruct (aggregateToH4_loop_spec (map parse_bar (data_lines response))
              (length (map parse_bar (data_lines response))) 0%nat [])
    as (pushed & Hp & Hlen & _); [lia|].
  unfold aggregateToH4. rewrite Hp, app_nil_l, Hlen, Nat.sub_0_r.
  by rewrite length_map.
Qed.

(** C1 at the input where it fails: twelve 1-hour rows aggregate to three
    4-hour bars, and a request for the last two returns all three. (With the
    eight rows of the specification's scenario the call returns two bars,
    with volumes 4600 and 6200: there are only two to return; and the 1-hour
    path asked for two of the twelve returns the last two.) *)
Lemma getHistoricalBars_H4_count_ignored :
  (exists bars,
     fst (getHistoricalBars (bars_env hourly_csv_12) "NQ" Timeframe_H4 2
            empty_world) = JS.Returned bars
     /\ length bars = 3%nat
     /\ map volume bars = [4600; 6200; 7800]%float)
  /\ (exists bars,
        fst (getHistoricalBars (bars_env hourly_csv_8) "NQ" Timeframe_H4 2
               empty_world) = JS.Returned bars
        /\ length bars = 2%nat
        /\ map volume bars = [4600; 6200]%float)
  /\ (exists bars,
        fst (getHistoricalBars (bars_env hourly_csv_12) "NQ" Timeframe_1h 2
               empty_world) = JS.Returned bars
        /\ length bars = 2%nat
        /\ map volume bars = [2000; 2100]%float).
Proof.
  split; [|split]; eexists; vm_compute; repeat split; reflexivity.
Qed.

End HistoricalBars.

(** * Further properties of the client *)

(** ** Sessions follow one another *)

Section SessionChain.

Lemma utc_day_at_full_hour t hour :
  JS.time_value t -> t < JS.MAX_TIME -> 0 <= hour < 24 ->
  let u := JS.Day t * JS.msPerDay + hour * JS.msPerHour in
  JS.time_value u /\ u < JS.MAX_TIME
  /\ JS.HourFromTime u = hour /\ JS.Day u = JS.Day t.
Proof.
  unfold JS.time_value, JS.HourFromTime, JS.Day, JS.MAX_TIME, JS.msPerDay,
    JS.msPerHour.
  intros Ht Hmax Hh. cbv zeta.
  Z.to_euclidean_division_equations. lia.
Qed.

Lemma getSessionInfo_full_hour t hour current :
  JS.time_value t -> t < JS.MAX_TIME -> 0 <= hour < 24 ->
  getSessionInfo (Some (utc_day_at t hour)) current
  = if (hour <? 7)%Z then
      mkSessionInfo Asian (utc_day_at t 0) (utc_day_at t 7) (utc_day_at t hour)
    else if (hour <? 14)%Z then
      mkSessionInfo London (utc_day_at t 7) (utc_day_at t 14) (utc_day_at t hour)
    else if (hour <? 22)%Z then
      mkSessionInfo NY (utc_day_at t 14) (utc_day_at t 22) (utc_day_at t hour)
    else
      mkSessionInfo Unknown (utc_day_at t hour) (utc_day_at t hour)
        (utc_day_at t hour).
Proof.
  intros Ht Hmax Hh.
  destruct (utc_day_at_full_hour t hour Ht Hmax Hh) as (Hu & Humax & Hhour & Hday).
  assert (Hd : JS.getUTCHours (utc_day_at t hour) = Some hour).
  { unfold utc_day_at. cbn [JS.getUTCHours]. by rewrite Hhour. }
  assert (Hset : forall k, 0 <= k < 24 ->
    JS.setUTCHours (utc_day_at t hour) k 0 0 0 = utc_day_at t k).
  { intros k Hk. unfold utc_day_at at 1.
    rewrite setUTCHours_in_day by done.
    unfold utc_day_at. by rewrite Hday. }
  unfold getSessionInfo. rewrite Hd. cbn [JS.geb JS.ltb].
  destruct (Z.ltb_spec hour 7).
  { replace (0 <=? hour) with true by (symmetry; apply Z.leb_le; lia).
    cbn [andb]. by rewrite !Hset by lia. }
  rewrite andb_false_r.
  destruct (Z.ltb_spec hour 14).
  { replace (7 <=? hour) with true by (symmetry; apply Z.leb_le; lia).
    cbn [andb]. by rewrite !Hset by lia. }
  rewrite andb_false_r.
  destruct (Z.ltb_spec hour 22).
  { replace (14 <=? hour) with true by (symmetry; apply Z.leb_le; lia).
    cbn [andb]. by rewrite !Hset by lia. }
  by rewrite andb_false_r.
Qed.

(** X1. Sessions follow one another. For every time value before the last
    representable instant, classifying the returned [sessionStart] gives the
    same session with the same bounds, and classifying the returned
    [sessionEnd] gives the next session (Asian, then London, then NY, then
    Unknown), which starts at that very instant. *)
Theorem getSessionInfo_chain (t : Z) (current : JS.Date) :
  JS.time_value t -> t < JS.MAX_TIME ->
  let info := getSessionInfo (Some (JS.DateAt t)) current in
  let at_start := getSessionInfo (Some (sessionStart info)) current in
  let at_end := getSessionInfo (Some (sessionEnd info)) current in
  currentSession at_start = currentSession info
  /\ sessionStart at_start = sessionStart info
  /\ sessionEnd at_start = sessionEnd info
  /\ currentSession at_end
     = match currentSession info with
       | Asian => London
       | London => NY
       | NY | Unknown => Unknown
       end
  /\ sessionStart at_end = sessionEnd info.
Proof.
  intros Ht Hmax.
  destruct (hour_decomposition t) as [Hh _].
  assert (Hinfo : getSessionInfo (Some (JS.DateAt t)) current
    = let h := JS.HourFromTime t in
      if (h <? 7)%Z then
        mkSessionInfo Asian (utc_day_at t 0) (utc_day_at t 7) (JS.DateAt t)
      else if (h <? 14)%Z then
        mkSessionInfo London (utc_day_at t 7) (utc_day_at t 14) (JS.DateAt t)
      else if (h <? 22)%Z then
        mkSessionInfo NY (utc_day_at t 14) (utc_day_at t 22) (JS.DateAt t)
      else mkSessionInfo Unknown (JS.DateAt t) (JS.DateAt t) (JS.DateAt t)).
  { unfold getSessionInfo. cbn [JS.getUTCHours JS.geb JS.ltb]. cbv zeta.
    set (h := JS.HourFromTime t) in *.
    destruct (Z.ltb_spec h 7).
    { replace (0 <=? h) with true by (symmetry; apply Z.leb_le; lia).
      cbn [andb]. by rewrite !setUTCHours_in_day by (done || lia). }
    rewrite andb_false_r.
    destruct (Z.ltb_spec h 14).
    { replace (7 <=? h) with true by (symmetry; apply Z.leb_le; lia).
      cbn [andb]. by rewrite !setUTCHours_in_day by (done || lia). }
    rewrite andb_false_r.
    destruct (Z.ltb_spec h 22).
    { replace (14 <=? h) with true by (symmetry; apply Z.leb_le; lia).
      cbn [andb]. by rewrite !setUTCHours_in_day by (done || lia). }
    by rewrite andb_false_r. }
  cbv zeta in Hinfo |- *. rewrite Hinfo.
  destruct (JS.HourFromTime t <? 7)%Z;
    [|destruct (JS.HourFromTime t <? 14)%Z;
      [|destruct (JS.HourFromTime t <? 22)%Z]];
    cbn [currentSession sessionStart sessionEnd];
    rewrite ?getSessionInfo_full_hour by (done || lia);
    cbn [Z.ltb Z.compare Pos.compare Pos.compare_cont currentSession
         sessionStart sessionEnd]; try done.
  by rewrite Hinfo.
Qed.

End SessionChain.

(** 07:00 of 2021-01-01 opens the London session, which ends where the NY
    session starts. *)
Lemma getSessionInfo_chain_witness :
  JS.time_value 1609484400000 /\ 1609484400000 < JS.MAX_TIME
  /\ let info := getSessionInfo (Some (JS.DateAt 1609484400000)) JS.InvalidDate in
     let at_start := getSessionInfo (Some (sessionStart info)) JS.InvalidDate in
     let at_end := getSessionInfo (Some (sessionEnd info)) JS.InvalidDate in
     currentSession at_start = currentSession info
     /\ sessionStart at_start = sessionStart info
     /\ sessionEnd at_start = sessionEnd info
     /\ currentSession at_end
        = match currentSession info with
          | Asian => London
          | London => NY
          | NY | Unknown => Unknown
          end
     /\ sessionStart at_end = sessionEnd info.
Proof.
  assert (Ht : JS.time_value 1609484400000)
    by (unfold JS.time_value, JS.MAX_TIME; lia).
  assert (Hmax : 1609484400000 < JS.MAX_TIME) by (unfold JS.MAX_TIME; lia).
  split; [exact Ht|]. split; [exact Hmax|].
  exact (getSessionInfo_chain 1609484400000 JS.InvalidDate Ht Hmax).
Defined.

(** ** Aggregation of a growing series *)

Section AggregationAppend.

(** X2. Aggregation is compositional on whole groups: when the number of
    earlier bars is a multiple of four, the 4-hour bars of the earlier bars
    followed by later ones are the 4-hour bars of the earlier ones followed by
    those of the later ones. Appending hours never changes a completed
    4-hour bar. *)
Theorem aggregateToH4_app (earlier later : list BarData) :
  (length earlier mod 4 = 0)%nat ->
  aggregateToH4 (earlier ++ later) = aggregateToH4 earlier ++ aggregateToH4 later.
Proof.
  intros Hmod.
  assert (Hm : exists m, length earlier = (4 * m)%nat).
  { exists (length earlier / 4)%nat.
    pose proof (Nat.div_mod_eq (length earlier) 4). lia. }
  destruct Hm as [m Hm].
  unfold aggregateToH4.
  destruct (aggregateToH4_loop_spec (earlier ++ later) (length (earlier ++ later))
              0%nat [] ltac:(lia)) as (p & -> & Hlen & Hp).
  destruct (aggregateToH4_loop_spec earlier (length earlier) 0%nat [] ltac:(lia))
    as (p1 & -> & Hlen1 & Hp1).
  destruct (aggregateToH4_loop_spec later (length later) 0%nat [] ltac:(lia))
    as (p2 & -> & Hlen2 & Hp2).
  cbn [app]. rewrite Nat.sub_0_r in Hlen, Hlen1, Hlen2.
  rewrite length_app, Hm in Hlen. rewrite Hm in Hlen1.
  assert (Hl1 : length p1 = m).
  { rewrite Hlen1. symmetry. apply (Nat.div_unique _ 4 m 3); lia. }
  assert (Hl : length p = (m + length p2)%nat).
  { rewrite Hlen, Hlen2.
    replace (4 * m + length later + 3)%nat
      with (m * 4 + (length later + 3))%nat by lia.
    by rewrite Nat.div_add_l by lia. }
  apply list_eq. intros k.
  destruct (decide (k < length p)%nat) as [Hk|Hk]; cycle 1.
  { rewrite !lookup_ge_None_2; [done| |lia].
    rewrite length_app. lia. }
  destruct (Hp k Hk) as (c0 & rest & Hchunk & ->).
  cbn [Nat.add] in Hchunk.
  destruct (decide (k < m)%nat) as [Hkm|Hkm].
  - rewrite lookup_app_l by lia.
    destruct (Hp1 k ltac:(lia)) as (c0' & rest' & Hchunk' & ->).
    cbn [Nat.add] in Hchunk'.
    rewrite drop_app_le, take_app_le in Hchunk
      by (rewrite ?length_drop; lia).
    rewrite Hchunk in Hchunk'. by injection Hchunk' as <- <-.
  - rewrite lookup_app_r by lia. rewrite Hl1.
    destruct (Hp2 (k - m)%nat ltac:(lia)) as (c0' & rest' & Hchunk' & ->).
    cbn [Nat.add] in Hchunk'.
    rewrite drop_app_ge in Hchunk by lia.
    replace (4 * k - length earlier)%nat with (4 * (k - m))%nat in Hchunk by lia.
    rewrite Hchunk in Hchunk'. by injection Hchunk' as <- <-.
Qed.

End AggregationAppend.

(** Four bars and a fifth. *)
Lemma aggregateToH4_app_witness :
  (length [flat_bar; flat_bar; flat_bar; flat_bar] mod 4 = 0)%nat
  /\ aggregateToH4 ([flat_bar; flat_bar; flat_bar; flat_bar] ++ [flat_bar])
     = aggregateToH4 [flat_bar; flat_bar; flat_bar; flat_bar]
       ++ aggregateToH4 [flat_bar].
Proof.
  split; [reflexivity|].
  apply (aggregateToH4_app [flat_bar; flat_bar; flat_bar; flat_bar] [flat_bar]).
  reflexivity.
Defined.

(** ** Line endings *)

Section LineEndings.

Implicit Types (s x y : string) (c : ascii).

Lemma append_cons c x y : String c x +:+ y = String c (x +:+ y).
Proof. reflexivity. Qed.

Lemma append_nil_l y : EmptyString +:+ y = y.
Proof. reflexivity. Qed.

Lemma append_assoc x y z : (x +:+ y) +:+ z = x +:+ (y +:+ z).
Proof.
  induction x as [|c x IH]; [done|]. by rewrite !append_cons, IH.
Qed.

Lemma split_app_sep sep x y :
  JS.split sep (x +:+ String sep y) = JS.split sep x ++ JS.split sep y.
Proof.
  induction x as [|c x IH]; rewrite ?append_nil_l, ?append_cons; cbn.
  - by rewrite Ascii.eqb_refl.
  - destruct (Ascii.eqb c sep); rewrite IH; [done|].
    pose proof (split_nonempty sep x) as Hne.
    by destruct (JS.split sep x).
Qed.

Lemma split_snoc sep x c :
  c <> sep ->
  exists front final,
    JS.split sep x = front ++ [final]
    /\ JS.split sep (x +:+ String c EmptyString)
       = front ++ [final +:+ String c EmptyString].
Proof.
  intros Hc. induction x as [|d x (front & final & Hx & Hxc)];
    rewrite ?append_nil_l, ?append_cons; cbn.
  - exists [], EmptyString. split; [done|].
    by destruct (Ascii.eqb_spec c sep).
  - rewrite Hx, Hxc. destruct (Ascii.eqb d sep).
    + by exists (EmptyString :: front), final.
    + destruct front as [|f front]; cbn.
      * by exists [], (String d final).
      * by exists (String d f :: front), final.
Qed.

Lemma trimStart_app_blank x y :
  JS.trimStart x = EmptyString -> JS.trimStart (x +:+ y) = JS.trimStart y.
Proof.
  induction x as [|c x IH]; rewrite ?append_nil_l, ?append_cons; cbn; [done|].
  by destruct (JS.isWhiteSpace c).
Qed.

Lemma trimStart_app_text x y :
  JS.trimStart x <> EmptyString ->
  JS.trimStart (x +:+ y) = JS.trimStart x +:+ y.
Proof.
  induction x as [|c x IH]; rewrite ?append_nil_l, ?append_cons; cbn; [done|].
  by destruct (JS.isWhiteSpace c).
Qed.

Lemma trimEnd_app_blank x y :
  JS.trimEnd y = EmptyString -> JS.trimEnd (x +:+ y) = JS.trimEnd x.
Proof.
  intros Hy. induction x as [|c x IH]; rewrite ?append_nil_l, ?append_cons;
    cbn; [done|]. by rewrite IH.
Qed.

Lemma trimEnd_app_text x y :
  JS.trimEnd y <> EmptyString -> JS.trimEnd (x +:+ y) = x +:+ JS.trimEnd y.
Proof.
  intros Hy. induction x as [|c x IH]; rewrite ?append_nil_l, ?append_cons;
    cbn; [done|]. rewrite IH.
  destruct x; rewrite ?append_nil_l, ?append_cons;
    [by destruct (JS.trimEnd y)|done].
Qed.

Lemma trimEnd_cons_blank c y :
  JS.isWhiteSpace c = true -> JS.trimEnd y = EmptyString ->
  JS.trimEnd (String c y) = EmptyString.
Proof. intros Hc Hy. cbn. by rewrite Hy, Hc. Qed.

Lemma trimEnd_cons_text c y :
  JS.trimEnd y <> EmptyString -> JS.trimEnd (String c y) = String c (JS.trimEnd y).
Proof. intros Hy. cbn. by destruct (JS.trimEnd y). Qed.

(** A whitespace character at the end of a text does not survive [trim]. *)
Lemma trim_snoc_blank x c :
  JS.isWhiteSpace c = true -> JS.trim (x +:+ String c EmptyString) = JS.trim x.
Proof.
  intros Hc. unfold JS.trim.
  assert (Hend : JS.trimEnd (String c EmptyString) = EmptyString)
    by (cbn; by rewrite Hc).
  destruct (decide (JS.trimStart x = EmptyString)) as [Hx|Hx].
  - rewrite trimStart_app_blank, Hx by done. cbn. by rewrite Hc.
  - rewrite trimStart_app_text by done. by apply trimEnd_app_blank.
Qed.

(** The records depend on the header line and on a data line only through
    their trimmed fields. *)
Lemma forEach_assign_trimmed values values' headers headers' index obj :
  JS.trim <$> headers = JS.trim <$> headers' ->
  JS.trim <$> values = JS.trim <$> values' ->
  forEach_from (assign_field values) headers index obj
  = forEach_from (assign_field values') headers' index obj.
Proof.
  intros Hh Hv. revert headers' Hh index obj.
  induction headers as [|h headers IH]; intros [|h' headers'] Hh index obj;
    try done.
  injection Hh as Hh1 Hh2. cbn [forEach_from].
  rewrite (IH headers' Hh2). f_equal.
  unfold assign_field. by rewrite Hh1, <- !list_lookup_fmap, Hv.
Qed.

Lemma same_fields_snoc_blank a c :
  JS.isWhiteSpace c = true -> c <> JS.COMMA ->
  same_fields (a +:+ String c EmptyString) a.
Proof.
  intros Hc Hcomma. split; [|by apply trim_snoc_blank].
  destruct (split_snoc JS.COMMA a c Hcomma) as (front & final & -> & ->).
  rewrite !fmap_app. cbn. by rewrite trim_snoc_blank.
Qed.

Lemma decode_same_fields (lines lines' : list string) :
  Forall2 same_fields lines lines' ->
  match lines with
  | [] => []
  | line0 :: rest =>
      map (parseCSV_record (JS.split JS.COMMA line0))
        (filter (fun line => JS.truthy (JS.trim line) = true) rest)
  end
  = match lines' with
    | [] => []
    | line0 :: rest =>
        map (parseCSV_record (JS.split JS.COMMA line0))
          (filter (fun line => JS.truthy (JS.trim line) = true) rest)
    end.
Proof.
  intros [|line0 line0' rest rest' [Hhead _] Hrest]; [done|].
  induction Hrest as [|line line' rest rest' [Hline Htrim] Hrest IH]; [done|].
  rewrite !filter_cons, <- Htrim.
  destruct (decide (JS.truthy (JS.trim line) = true)); [|done].
  cbn [map]. rewrite IH. f_equal.
  unfold parseCSV_record. by apply forEach_assign_trimmed.
Qed.

Lemma same_fields_refl a : same_fields a a.
Proof. done. Qed.

(** X3. [parseCSV] does not see carriage returns at line ends: a text in
    which a line break is written CR LF decodes to the same records as the
    text with a bare LF there, wherever the line break is (after the header,
    between rows, at either end). *)
Theorem parseCSV_crlf (before after : string) :
  parseCSV (before +:+ String CR (String JS.LF after))
  = parseCSV (before +:+ String JS.LF after).
Proof.
  assert (Hcr : JS.isWhiteSpace CR = true) by done.
  assert (Hlf : JS.isWhiteSpace JS.LF = true) by done.
  unfold parseCSV, JS.trim.
  destruct (decide (JS.trimStart before = EmptyString)) as [Hb|Hb].
  { rewrite !trimStart_app_blank by done. cbn [JS.trimStart].
    by rewrite Hcr. }
  rewrite !trimStart_app_text by done.
  set (head := JS.trimStart before).
  destruct (decide (JS.trimEnd after = EmptyString)) as [Ha|Ha].
  { rewrite !trimEnd_app_blank; [done| |].
    - by apply trimEnd_cons_blank.
    - apply trimEnd_cons_blank; [done|]. by apply trimEnd_cons_blank. }
  assert (Hlf_after : JS.trimEnd (String JS.LF after)
                      = String JS.LF (JS.trimEnd after))
    by (by apply trimEnd_cons_text).
  assert (Hcr_after : JS.trimEnd (String CR (String JS.LF after))
                      = String CR (String JS.LF (JS.trimEnd after)))
    by (rewrite trimEnd_cons_text; by rewrite Hlf_after).
  rewrite !trimEnd_app_text by (by rewrite ?Hcr_after, ?Hlf_after).
  rewrite Hcr_after, Hlf_after.
  replace (head +:+ String CR (String JS.LF (JS.trimEnd after)))
    with ((head +:+ String CR EmptyString) +:+ String JS.LF (JS.trimEnd after))
    by (by rewrite append_assoc).
  rewrite !split_app_sep.
  destruct (split_snoc JS.LF head CR ltac:(done)) as (front & final & -> & ->).
  apply decode_same_fields.
  apply Forall2_app; [|by apply Forall_Forall2_diag, Forall_forall].
  apply Forall2_app; [by apply Forall_Forall2_diag, Forall_forall|].
  constructor; [|constructor]. by apply same_fields_snoc_blank.
Qed.

End LineEndings.

(** ** The cache invariant *)

Section CacheInvariant.

Variable env : Env.

Lemma fetchQuote_unknown_symbol s w :
  SYMBOL_MAP !! s = None ->
  fetchQuote env s w = (JS.Thrown (JS.new_Error ("Invalid symbol: " +:+ s)), w).
Proof. intros Hs. unfold fetchQuote. by rewrite Hs. Qed.

Lemma fetchQuote_returned s w q :
  fst (fetchQuote env s w) = JS.Returned q ->
  symbol q = s /\ is_Some (SYMBOL_MAP !! s)
  /\ exists stored,
       priceCache (snd (fetchQuote env s w))
       = <[s := mkCacheEntry q stored]> (priceCache w).
Proof.
  intros Hq.
  destruct (SYMBOL_MAP !! s) eqn:Hs.
  2: { by rewrite fetchQuote_unknown_symbol in Hq. }
  destruct (fetchQuote_cases env s w) as (events & _ & _ & _ & _ & Hcase).
  rewrite Hq in Hcase.
  destruct Hcase as (ps & response & line0 & rest & _ & _ & -> & Hcache & _).
  split; [done|]. split; [by eexists|]. eauto.
Qed.



(** X6. What [getQuote] returns it can serve again: after a call that
    returns a quote, the cache holds that quote under the symbol, and a second
    call made while the clock reads less than 30 s past the entry's time
    returns the same quote, reading the clock once and doing nothing else. *)
Theorem getQuote_served_again (s : string) (w : World) (q : QuoteData) :
  fst (getQuote env s w) = JS.Returned q ->
  let w1 := snd (getQuote env s w) in
  exists c,
    priceCache w1 !! s = Some c /\ data c = q
    /\ (clock env (clock_reads w1) - cache_timestamp c < CACHE_TTL ->
        getQuote env s w1 = (JS.Returned q, tick w1)).
Proof.
  intros Hq. cbv zeta.
  assert (Hc : exists c,
    priceCache (snd (getQuote env s w)) !! s = Some c /\ data c = q).
  { revert Hq. rewrite getQuote_run.
    assert (Hfetch : forall w',
      fst (fetchQuote env s w') = JS.Returned q ->
      exists c, priceCache (snd (fetchQuote env s w')) !! s = Some c
                /\ data c = q).
    { intros w' Hq.
      destruct (fetchQuote_returned s w' q Hq) as (_ & _ & stored & ->).
      eexists. by rewrite lookup_insert_eq. }
    destruct (priceCache w !! s) as [c|] eqn:Hc; [|by apply Hfetch].
    destruct (clock env (clock_reads w) - cache_timestamp c <? CACHE_TTL)%Z;
      [|by apply Hfetch].
    cbn [fst snd tick priceCache]. intros [= <-]. eauto. }
  destruct Hc as (c & Hc & Hdata). exists c. split; [done|]. split; [done|].
  intros Hfresh. rewrite getQuote_run, Hc, <- Hdata.
  by replace (_ <? _)%Z with true by (symmetry; apply Z.ltb_lt; lia).
Qed.

End CacheInvariant.

(** The cache of [old_world] is consistent. *)
Lemma old_world_consistent : cache_consistent old_world.
Proof.
  apply map_Forall_insert_2; [|apply map_Forall_empty].
  split; [reflexivity|]. by eexists.
Defined.



(** A quote fetched into an empty cache is served again. *)
Lemma getQuote_served_again_witness :
  fst (getQuote quote_env "ES" empty_world) = JS.Returned es_quote
  /\ let w1 := snd (getQuote quote_env "ES" empty_world) in
     exists c,
       priceCache w1 !! "ES" = Some c /\ data c = es_quote
       /\ (clock quote_env (clock_reads w1) - cache_timestamp c < CACHE_TTL ->
           getQuote quote_env "ES" w1 = (JS.Returned es_quote, tick w1)).
Proof.
  assert (Hq : fst (getQuote quote_env "ES" empty_world) = JS.Returned es_quote)
    by (vm_compute; reflexivity).
  split; [exact Hq|].
  exact (getQuote_served_again quote_env "ES" empty_world es_quote Hq).
Defined.

(** ** What a request for bars does *)

Section BarsEffects.

Variable env : Env.


(** X8. For a count that is not negative, a call of [getHistoricalBars]
    that returns gives at least one bar: a response without data rows is an
    error, never an empty list. On the 1-hour and 1-day paths a count of at
    least one also bounds the number of bars from above. *)
Theorem getHistoricalBars_never_empty (s : string) (timeframe : Timeframe)
    (count : Z) (w : World) (bars : list BarData) :
  0 <= count ->
  fst (getHistoricalBars env s timeframe count w) = JS.Returned bars ->
  (1 <= length bars)%nat
  /\ (timeframe <> Timeframe_H4 -> 1 <= count ->
      (length bars <= Z.to_nat count)%nat).
Proof.
  intros Hcount Hbars.
  destruct (getHistoricalBars_cases _ _ _ _ _ _ Hbars)
    as (params & response & _ & Hlines & ->).
  assert (Hdec : (1 <= length (map parse_bar (data_lines response)))%nat).
  { rewrite length_map. destruct (data_lines response); [done|cbn; lia]. }
  assert (Hslice :
    (1 <= length (JS.slice (map parse_bar (data_lines response)) (- count) None))%nat
    /\ (1 <= count ->
        (length (JS.slice (map parse_bar (data_lines response)) (- count) None)
         <= Z.to_nat count)%nat)).
  { destruct (decide (count = 0)) as [->|Hne].
    - rewrite slice_zero_count. split; [done|lia].
    - rewrite slice_last_count by lia. rewrite length_drop. lia. }
  destruct timeframe;
    [split; [apply Hslice|intros _; apply Hslice]|
    |split; [apply Hslice|intros _; apply Hslice]].
  split; [|done].
  destruct (aggregateToH4_loop_spec (map parse_bar (data_lines response))
              (length (map parse_bar (data_lines response))) 0%nat [])
    as (pushed & Hp & Hlen & _); [lia|].
  unfold aggregateToH4. rewrite Hp, app_nil_l, Hlen, Nat.sub_0_r.
  apply (Nat.div_le_lower_bound _ 4 1); lia.
Qed.

End BarsEffects.

(** Two 1-hour bars out of eight rows. *)
Lemma getHistoricalBars_never_empty_witness :
  exists bars,
    0 <= 2
    /\ fst (getHistoricalBars (bars_env hourly_csv_8) "NQ" Timeframe_1h 2
              empty_world) = JS.Returned bars
    /\ (1 <= length bars)%nat
    /\ (Timeframe_1h <> Timeframe_H4 -> 1 <= 2 ->
        (length bars <= Z.to_nat 2)%nat).
Proof.
  destruct (fst (getHistoricalBars (bars_env hourly_csv_8) "NQ" Timeframe_1h 2
                   empty_world)) as [bars|e] eqn:Hbars;
    [|vm_compute in Hbars; discriminate].
  exists bars. split; [lia|]. split; [reflexivity|].
  exact (getHistoricalBars_never_empty (bars_env hourly_csv_8) "NQ" Timeframe_1h
           2 empty_world bars ltac:(lia) Hbars).
Defined.

(** * The shared HTTP client and the API clients *)

Section HTTPClient.

Lemma prefix_cons a s1 b s2 :
  String.prefix (String a s1) (String b s2)
  = if Ascii.ascii_dec a b then String.prefix s1 s2 else false.
Proof. reflexivity. Qed.

Lemma prefix_db apiKey :
  String.prefix "db-" apiKey = true <-> exists rest, apiKey = "db-" +:+ rest.
Proof.
  split.
  - destruct apiKey as [|a r1]; [done|]. rewrite prefix_cons.
    destruct (Ascii.ascii_dec "d" a) as [<-|]; [|done].
    destruct r1 as [|b r2]; [done|]. rewrite prefix_cons.
    destruct (Ascii.ascii_dec "b" b) as [<-|]; [|done].
    destruct r2 as [|c rest]; [done|]. rewrite prefix_cons.
    destruct (Ascii.ascii_dec "-" c) as [<-|]; [|done].
    intros _. by exists rest.
  - intros [rest ->].
    change ("db-" +:+ rest) with (String "d" (String "b" (String "-" rest))).
    rewrite !prefix_cons.
    destruct (Ascii.ascii_dec "d" "d"); [|done].
    destruct (Ascii.ascii_dec "b" "b"); [|done].
    destruct (Ascii.ascii_dec "-" "-"); [|done]. by destruct rest.
Qed.

(** X9. A client is constructed exactly from the keys that start with
    [db-], and keeps the key as given; every other key, the empty one
    included, makes the constructor throw. *)
Theorem constructor_accepts (apiKey key : string) :
  HTTP.constructor apiKey = JS.Returned key
  <-> key = apiKey /\ exists rest, apiKey = "db-" +:+ rest.
Proof.
  unfold HTTP.constructor. split.
  - destruct apiKey as [|c r]; cbn [JS.truthy negb]; [done|].
    destruct (String.prefix "db-" (String c r)) eqn:Hp; cbn [negb]; [|done].
    intros [= <-]. split; [done|]. by apply prefix_db.
  - intros [-> Hrest].
    assert (Hp : String.prefix "db-" apiKey = true) by (by apply prefix_db).
    destruct Hrest as [rest ->]. cbn [JS.truthy negb].
    change ("db-" +:+ rest) with (String "d" (String "b" (String "-" rest))) in *.
    cbn [JS.truthy negb]. by rewrite Hp.
Qed.

End HTTPClient.

Section TimeseriesClient.

Variable host : Host.
Variable env : Env.

Lemma settle_run {A : Type} (o : JS.Outcome A) w : settle o w = (o, w).
Proof. reflexivity. Qed.

(** What a call of [getRange] that returns has done. *)
Lemma getRange_returned request w r :
  fst (Timeseries.getRange host env request w) = JS.Returned r ->
  exists start end_,
    Timeseries.validateRequest host request = JS.Returned tt
    /\ Timeseries.formatDate host (Timeseries.start request) = JS.Returned start
    /\ fst (HTTP.get env "/v0/timeseries.get_range"
              (Timeseries.range_params request start end_) w)
       = JS.Returned (Timeseries.data r)
    /\ JS.truthy (Timeseries.data r) = true
    /\ Timeseries.recordCount r
       = Z.max 0 (Z.of_nat (length (JS.split JS.LF (JS.trim (Timeseries.data r)))) - 1)
    /\ Timeseries.dateRange r = (start, end_).
Proof.
  unfold Timeseries.getRange. rewrite bind_run, settle_run.
  destruct (Timeseries.validateRequest host request) as [[]|e]; [|done].
  rewrite bind_run, settle_run.
  destruct (Timeseries.formatDate host (Timeseries.start request))
    as [start|e]; [|done].
  rewrite bind_run.
  assert (Hend : exists o,
    (match Timeseries.end_ request with
     | Some e =>
         if JS.truthy e then settle (Timeseries.formatDate host e)
         else mret start
     | None => mret start
     end : M string) w = (o, w)).
  { destruct (Timeseries.end_ request) as [e|]; [|by eexists].
    destruct (JS.truthy e); by eexists. }
  destruct Hend as [o ->]. destruct o as [end_|e]; [|by cbn].
  rewrite bind_run.
  destruct (HTTP.get env "/v0/timeseries.get_range"
              (Timeseries.range_params request start end_) w)
    as [[response|e] w1] eqn:Hget; [|by cbn].
  destruct (JS.truthy response) eqn:Htruthy; cbn [negb]; [|by cbn].
  intros [= <-]. exists start, end_. rewrite Hget. by cbn.
Qed.

Lemma filter_split_length {A : Type} (P : A -> bool) (l : list A) :
  length l
  = (length (filter (fun x => P x = true) l)
     + length (filter (fun x => P x = false) l))%nat.
Proof.
  induction l as [|x l IH]; [done|].
  rewrite !filter_cons. destruct (P x) eqn:HP.
  - rewrite decide_True, decide_False by done. cbn. lia.
  - rewrite decide_False, decide_True by done. cbn. lia.
Qed.

(** X10. The [recordCount] of a time-series response counts every line
    after the header, blank or not: it is the number of records that
    [parseCSVResponse] decodes from the same data plus the number of blank
    lines among them. *)
Theorem getRange_recordCount (request : Timeseries.GetRangeRequest)
    (w : World) (r : Timeseries.GetRangeResponse) :
  fst (Timeseries.getRange host env request w) = JS.Returned r ->
  let rows := tail (JS.split JS.LF (JS.trim (Timeseries.data r))) in
  let blank :=
    filter (fun line => JS.truthy (JS.trim line) = false) rows in
  Timeseries.recordCount r
  = Z.of_nat (length (Timeseries.parseCSVResponse (Timeseries.data r)))
    + Z.of_nat (length blank).
Proof.
  intros Hr. destruct (getRange_returned request w r Hr)
    as (start & end_ & _ & _ & _ & _ & -> & _).
  cbv zeta. unfold Timeseries.parseCSVResponse, parseCSV.
  pose proof (split_nonempty JS.LF (JS.trim (Timeseries.data r))) as Hne.
  destruct (JS.split JS.LF (JS.trim (Timeseries.data r))) as [|line0 rest];
    [done|].
  cbn [tail length]. rewrite length_map.
  rewrite (filter_split_length (fun line => JS.truthy (JS.trim line)) rest).
  lia.
Qed.

End TimeseriesClient.

(** A response with a blank line between its two rows: three lines are
    counted, two records are decoded. *)
Lemma getRange_recordCount_witness :
  exists r,
    fst (Timeseries.getRange new_york_host (bars_env gappy_csv) range_request
           empty_world) = JS.Returned r
    /\ Timeseries.recordCount r = 3
    /\ length (Timeseries.parseCSVResponse (Timeseries.data r)) = 2%nat
    /\ let rows := tail (JS.split JS.LF (JS.trim (Timeseries.data r))) in
       let blank :=
         filter (fun line => JS.truthy (JS.trim line) = false) rows in
       Timeseries.recordCount r
       = Z.of_nat (length (Timeseries.parseCSVResponse (Timeseries.data r)))
         + Z.of_nat (length blank).
Proof.
  destruct (fst (Timeseries.getRange new_york_host (bars_env gappy_csv)
                   range_request empty_world)) as [r|e] eqn:Hr;
    [|vm_compute in Hr; discriminate].
  exists r. split; [reflexivity|].
  split; [vm_compute in Hr; injection Hr as <-; reflexivity|].
  split; [vm_compute in Hr; injection Hr as <-; vm_compute; reflexivity|].
  exact (getRange_recordCount new_york_host (bars_env gappy_csv) range_request
           empty_world r Hr).
Defined.

Section TimeseriesRequests.

Variable host : Host.
Variable env : Env.

Lemma truthy_nonempty s : JS.truthy s = true <-> s <> EmptyString.
Proof. by destruct s. Qed.

(** What a request that passes [validateRequest] satisfies. *)
Lemma validateRequest_returned request :
  Timeseries.validateRequest host request = JS.Returned tt ->
  Timeseries.dataset request <> EmptyString
  /\ Timeseries.schema request <> EmptyString
  /\ Timeseries.start request <> EmptyString
  /\ (1 <= Timeseries.symbol_count (Timeseries.symbols request) <= 2000)%nat
  /\ (forall n, Timeseries.limit request = Some n -> 1 <= n)
  /\ Timeseries.check_dates host request = JS.Returned tt.
Proof.
  unfold Timeseries.validateRequest.
  destruct (JS.truthy (Timeseries.dataset request)) eqn:Hd; cbn [negb]; [|done].
  destruct (match Timeseries.symbols request with
            | OneString s => negb (JS.truthy s)
            | SymbolArray a => (length a =? 0)%nat
            end) eqn:Hs; [done|].
  destruct (JS.truthy (Timeseries.schema request)) eqn:Hsc; cbn [negb]; [|done].
  destruct (JS.truthy (Timeseries.start request)) eqn:Hst; cbn [negb]; [|done].
  destruct (Timeseries.check_dates host request) as [[]|e]; [|done].
  destruct (match Timeseries.limit request with
            | Some n => (n <? 1)%Z
            | None => false
            end) eqn:Hl; [done|].
  destruct (Nat.ltb_spec 2000
              (Timeseries.symbol_count (Timeseries.symbols request)));
    [done|].
  intros _. apply truthy_nonempty in Hd, Hsc, Hst.
  repeat split; try done.
  - unfold Timeseries.symbol_count.
    destruct (Timeseries.symbols request) as [s|a].
    + pose proof (split_nonempty JS.COMMA s).
      destruct (JS.split JS.COMMA s); [done|cbn; lia].
    + apply Nat.eqb_neq in Hs. lia.
  - intros n Hn. rewrite Hn in Hl. lia.
Qed.

(** X11. [getRange] validates before it sends. It calls [fetch] at most
    three times; and if it calls it at all, the request has a dataset, a
    schema and a start, between 1 and 2000 symbols and no limit below 1, and
    every call carries the same query: the formatted start, the formatted end
    (the start when no end is given), the symbols joined by commas and the
    defaults [raw_symbol] and [instrument_id] for the symbology types. *)
Theorem getRange_requests (request : Timeseries.GetRangeRequest) (w : World) :
  let result := Timeseries.getRange host env request w in
  exists events,
    trace (snd result) = trace w ++ events
    /\ fetch_calls (snd result) = (fetch_calls w + attempts events)%nat
    /\ (attempts events <= 3)%nat
    /\ (events <> [] ->
        Timeseries.dataset request <> EmptyString
        /\ Timeseries.schema request <> EmptyString
        /\ Timeseries.start request <> EmptyString
        /\ (1 <= Timeseries.symbol_count (Timeseries.symbols request) <= 2000)%nat
        /\ (forall n, Timeseries.limit request = Some n -> 1 <= n)
        /\ exists start end_,
             Timeseries.formatDate host (Timeseries.start request)
             = JS.Returned start
             /\ (if given (Timeseries.end_ request)
                 then exists e, Timeseries.end_ request = Some e
                      /\ Timeseries.formatDate host e = JS.Returned end_
                 else end_ = start)
             /\ Forall (fun ev => is_fetch ev = true ->
                  ev = EvFetch
                         (mkRequest "/v0/timeseries.get_range"
                            (HTTP.defined_params
                               (Timeseries.range_params request start end_))))
                  events).
Proof.
  cbv zeta.
  assert (Hnone : forall (o : JS.Outcome Timeseries.GetRangeResponse),
    exists events : list Event,
      trace (snd (o, w)) = trace w ++ events
      /\ fetch_calls (snd (o, w)) = (fetch_calls w + attempts events)%nat
      /\ (attempts events <= 3)%nat
      /\ (events <> [] ->
          Timeseries.dataset request <> EmptyString
          /\ Timeseries.schema request <> EmptyString
          /\ Timeseries.start request <> EmptyString
          /\ (1 <= Timeseries.symbol_count (Timeseries.symbols request) <= 2000)%nat
          /\ (forall n, Timeseries.limit request = Some n -> 1 <= n)
          /\ exists start end_,
               Timeseries.formatDate host (Timeseries.start request)
               = JS.Returned start
               /\ (if given (Timeseries.end_ request)
                   then exists e, Timeseries.end_ request = Some e
                        /\ Timeseries.formatDate host e = JS.Returned end_
                   else end_ = start)
               /\ Forall (fun ev => is_fetch ev = true ->
                    ev = EvFetch
                           (mkRequest "/v0/timeseries.get_range"
                              (HTTP.defined_params
                                 (Timeseries.range_params request start end_))))
                    events)).
  { intros o. exists []. cbn [snd]. rewrite app_nil_r.
    repeat split; try (done || (cbn; lia)). }
  unfold Timeseries.getRange. rewrite bind_run, settle_run.
  destruct (Timeseries.validateRequest host request) as [[]|e] eqn:Hvalid;
    [|apply Hnone].
  destruct (validateRequest_returned request Hvalid)
    as (Hd & Hsc & Hst & Hcount & Hlimit & _).
  rewrite bind_run, settle_run.
  destruct (Timeseries.formatDate host (Timeseries.start request))
    as [start|e] eqn:Hstart; [|apply Hnone].
  rewrite bind_run.
  assert (Hend : exists o,
    (match Timeseries.end_ request with
     | Some e =>
         if JS.truthy e then settle (Timeseries.formatDate host e)
         else mret start
     | None => mret start
     end : M string) w = (o, w)
    /\ forall end_, o = JS.Returned end_ ->
         if given (Timeseries.end_ request)
         then exists e, Timeseries.end_ request = Some e
              /\ Timeseries.formatDate host e = JS.Returned end_
         else end_ = start).
  { unfold given. destruct (Timeseries.end_ request) as [e|].
    - destruct (JS.truthy e).
      + eexists. split; [done|]. intros end_ Ho. eauto.
      + eexists. split; [done|]. by intros end_ [= <-].
    - eexists. split; [done|]. by intros end_ [= <-]. }
  destruct Hend as (o & -> & Ho). destruct o as [end_|e]; [|apply Hnone].
  specialize (Ho end_ eq_refl).
  rewrite bind_run. unfold HTTP.get.
  match goal with
  | |- context [makeRequest env ?ep ?ps w] =>
      destruct (makeRequest_effects env ep ps w)
        as (events & Htr & Hfc & Hat & Hreq & _ & _);
      destruct (makeRequest env ep ps w) as [r w1]
  end.
  cbn [fst snd] in *.
  assert (Hdone : forall (o : JS.Outcome Timeseries.GetRangeResponse),
    exists events0 : list Event,
      trace (snd (o, w1)) = trace w ++ events0
      /\ fetch_calls (snd (o, w1)) = (fetch_calls w + attempts events0)%nat
      /\ (attempts events0 <= 3)%nat
      /\ (events0 <> [] ->
          Timeseries.dataset request <> EmptyString
          /\ Timeseries.schema request <> EmptyString
          /\ Timeseries.start request <> EmptyString
          /\ (1 <= Timeseries.symbol_count (Timeseries.symbols request) <= 2000)%nat
          /\ (forall n, Timeseries.limit request = Some n -> 1 <= n)
          /\ exists start0 end0,
               JS.Returned start = JS.Returned start0
               /\ (if given (Timeseries.end_ request)
                   then exists e, Timeseries.end_ request = Some e
                        /\ Timeseries.formatDate host e = JS.Returned end0
                   else end0 = start0)
               /\ Forall (fun ev => is_fetch ev = true ->
                    ev = EvFetch
                           (mkRequest "/v0/timeseries.get_range"
                              (HTTP.defined_params
                                 (Timeseries.range_params request start0 end0))))
                    events0)).
  { intros o. exists events. cbn [snd].
    repeat split; try (done || lia). exists start, end_. by repeat split. }
  destruct r as [response|e]; [|apply Hdone].
  destruct (JS.truthy response); cbn [negb]; apply Hdone.
Qed.

End TimeseriesRequests.

Section DateShape.

Lemma civil_from_days_range day :
  let '(y, m, d) := JS.civil_from_days day in 1 <= m <= 12 /\ 1 <= d <= 31.
Proof.
  unfold JS.civil_from_days. cbv beta iota zeta.
  set (z := day + 719468).
  set (era := z / 146097).
  set (doe := z - era * 146097).
  assert (Hdoe : 0 <= doe <= 146096).
  { subst doe era. Z.to_euclidean_division_equations. lia. }
  clearbody doe. clear era z.
  set (yoe := (doe - doe / 1460 + doe / 36524 - doe / 146096) / 365).
  assert (Hyoe : 0 <= yoe <= 399).
  { subst yoe. Z.to_euclidean_division_equations. lia. }
  set (doy := doe - (365 * yoe + yoe / 4 - yoe / 100)).
  assert (Hdoy : 0 <= doy <= 365).
  { subst doy yoe. Z.to_euclidean_division_equations. lia. }
  clearbody doy. clear Hyoe yoe Hdoe doe.
  set (mp := (5 * doy + 2) / 153).
  assert (Hmp : 0 <= mp <= 11).
  { subst mp. Z.to_euclidean_division_equations. lia. }
  assert (Hd : 1 <= doy - (153 * mp + 2) / 5 + 1 <= 31).
  { subst mp. Z.to_euclidean_division_equations. lia. }
  split; [|exact Hd].
  destruct (Z.ltb_spec mp 10); lia.
Qed.

End DateShape.

Section DateShape2.

Variable host : Host.

Lemma digits_two m : 0 <= m <= 99 -> two_digits (JS.digits 2 m) = true.
Proof.
  intros Hm.
  assert (Hall : forallb (fun k => two_digits (JS.digits 2 k)) (seqZ 0 100)
                 = true) by (vm_compute; reflexivity).
  rewrite forallb_forall in Hall.
  apply Hall, list_elem_of_In, elem_of_seqZ. lia.
Qed.

Lemma pretty_four y : 1000 <= y <= 9999 -> four_digits (pretty y) = true.
Proof.
  intros Hy.
  assert (Hall : forallb (fun k => four_digits (pretty k)) (seqZ 1000 9000)
                 = true) by (vm_compute; reflexivity).
  rewrite forallb_forall in Hall.
  apply Hall, list_elem_of_In, elem_of_seqZ. lia.
Qed.

Lemma date_shape y m d :
  four_digits y = true -> two_digits m = true -> two_digits d = true ->
  is_date_only (y +:+ "-" +:+ m +:+ "-" +:+ d) = true.
Proof.
  destruct y as [|y1 [|y2 [|y3 [|y4 [|]]]]]; try done.
  destruct m as [|m1 [|m2 [|]]]; try done.
  destruct d as [|d1 [|d2 [|]]]; try done.
  cbn [four_digits two_digits]. intros Hy Hm Hd.
  unfold is_date_only.
  change (after_date _)
    with (if is_digit y1 && is_digit y2 && is_digit y3 && is_digit y4
             && Ascii.eqb "-" "-" && is_digit m1 && is_digit m2
             && Ascii.eqb "-" "-" && is_digit d1 && is_digit d2
          then Some EmptyString else None).
  apply andb_prop in Hd as [-> ->]. apply andb_prop in Hm as [-> ->].
  apply andb_prop in Hy as [Hy ->]. apply andb_prop in Hy as [Hy ->].
  apply andb_prop in Hy as [-> ->]. reflexivity.
Qed.

(** X12. [formatDate] normalises: whenever the date it reads lies in the
    years 1000 to 9999 of the local calendar, its result has the form
    YYYY-MM-DD, and formatting the result again returns it unchanged,
    without consulting the parser. *)
Theorem formatDate_normalises (dateStr formatted : string) :
  (forall t, Date_parse host dateStr = JS.DateAt t ->
     1000 <= (JS.civil_from_days (JS.Day (t + LocalTZA host t))).1.1 <= 9999) ->
  Timeseries.formatDate host dateStr = JS.Returned formatted ->
  is_date_only formatted = true
  /\ Timeseries.formatDate host formatted = JS.Returned formatted.
Proof.
  intros Hyear Hf.
  assert (Hshape : is_date_only formatted = true).
  { revert Hf. unfold Timeseries.formatDate.
    destruct (is_date_only dateStr) eqn:Hd; [by intros [= <-]|].
    destruct (Date_parse host dateStr) as [|t]; [done|].
    specialize (Hyear t eq_refl).
    pose proof (civil_from_days_range (JS.Day (t + LocalTZA host t))) as Hr.
    destruct (JS.civil_from_days (JS.Day (t + LocalTZA host t)))
      as [[y m] d]. cbn [fst] in Hyear. destruct Hr as [Hm Hday].
    intros [= <-].
    apply date_shape; [by apply pretty_four|apply digits_two; lia..]. }
  split; [done|]. unfold Timeseries.formatDate. by rewrite Hshape.
Qed.

End DateShape2.

Lemma formatDate_normalises_witness :
  (forall t, Date_parse new_york_host "Jan 1, 2024 12:30 UTC" = JS.DateAt t ->
     1000 <= (JS.civil_from_days
                (JS.Day (t + LocalTZA new_york_host t))).1.1 <= 9999)
  /\ Timeseries.formatDate new_york_host "Jan 1, 2024 12:30 UTC"
     = JS.Returned "2024-01-01"
  /\ is_date_only "2024-01-01" = true
  /\ Timeseries.formatDate new_york_host "2024-01-01" = JS.Returned "2024-01-01".
Proof.
  assert (Hyear : forall t,
    Date_parse new_york_host "Jan 1, 2024 12:30 UTC" = JS.DateAt t ->
    1000 <= (JS.civil_from_days
               (JS.Day (t + LocalTZA new_york_host t))).1.1 <= 9999).
  { intros t [= <-]. vm_compute. split; discriminate. }
  assert (Hf : Timeseries.formatDate new_york_host "Jan 1, 2024 12:30 UTC"
               = JS.Returned "2024-01-01") by (vm_compute; reflexivity).
  split; [exact Hyear|]. split; [exact Hf|].
  exact (formatDate_normalises new_york_host "Jan 1, 2024 12:30 UTC"
           "2024-01-01" Hyear Hf).
Defined.

(** Before the year 1000 the year is not padded: the result is not of the
    form YYYY-MM-DD, and formatting it again goes through the parser. *)
Example formatDate_short_year :
  Timeseries.formatDate medieval_host "31 Dec 999" = JS.Returned "999-12-31"
  /\ is_date_only "999-12-31" = false.
Proof. split; vm_compute; reflexivity. Qed.

(** ** The batch client *)

Section BatchFiles.

Implicit Types (x y e : string).

Lemma length_app_string x y :
  String.length (x +:+ y) = (String.length x + String.length y)%nat.
Proof.
  induction x as [|c x IH]; [done|]. rewrite append_cons. cbn. by rewrite IH.
Qed.

Lemma app_inv_head_string e x y : e +:+ x = e +:+ y -> x = y.
Proof.
  induction e as [|c e IH]; [done|]. rewrite !append_cons. intros [= H]. auto.
Qed.

Lemma app_inv_tail_string e x y : x +:+ e = y +:+ e -> x = y.
Proof.
  revert y. induction x as [|c x IH]; intros [|d y] H; [done| | |].
  - apply (f_equal String.length) in H.
    rewrite append_nil_l, append_cons in H. cbn in H.
    rewrite length_app_string in H. lia.
  - apply (f_equal String.length) in H.
    rewrite append_nil_l, append_cons in H. cbn in H.
    rewrite length_app_string in H. lia.
  - rewrite !append_cons in H. injection H as -> H. f_equal. by apply IH.
Qed.

Lemma generateFilenames_loop_spec job_id extension remaining :
  forall i filenames,
  Batch.generateFilenames_loop job_id extension remaining i filenames
  = filenames
    ++ map (fun k => job_id +:+ "_" +:+ pretty (i + Z.of_nat k) +:+ extension)
         (seq 0 remaining).
Proof.
  induction remaining as [|r IH]; intros i filenames; cbn [Batch.generateFilenames_loop].
  - cbn. by rewrite app_nil_r.
  - rewrite IH, <- app_assoc. f_equal. cbn [seq map app].
    rewrite Z.add_0_r. f_equal.
    rewrite <- seq_shift, map_map. apply map_ext. intros k.
    do 4 f_equal. lia.
Qed.

(** X13. [generateFilenames] lists one name per file: as many names as the
    job's [file_count] (none when it is missing, zero or negative), the name
    at index [i] being the job id, an underscore, [i] and the extension; no
    name occurs twice. *)
Theorem generateFilenames_distinct (job : Batch.JobInfo) :
  let names := Batch.generateFilenames job in
  length names = Z.to_nat (default 0 (Batch.file_count job))
  /\ NoDup names
  /\ forall i name, names !! i = Some name ->
       name = Batch.id job +:+ "_" +:+ pretty (Z.of_nat i)
              +:+ Batch.getFileExtension (Batch.encoding job)
                    (Batch.compression job).
Proof.
  cbv zeta. unfold Batch.generateFilenames.
  destruct (Batch.file_count job) as [n|]; cbn [default];
    [|by split; [|split; [constructor|]]].
  destruct (Z.eqb_spec n 0) as [->|Hn];
    [by split; [|split; [constructor|]]|].
  rewrite generateFilenames_loop_spec, app_nil_l.
  set (ext := Batch.getFileExtension _ _).
  split; [by rewrite length_map, length_seq|]. split.
  - apply (NoDup_fmap_2_strong _ (seq 0 (Z.to_nat n))); [|apply NoDup_seq].
    intros i j _ _ H.
    apply app_inv_head_string, (app_inv_head_string "_"),
      app_inv_tail_string in H.
    apply (inj pretty) in H. lia.
  - intros i name Hi. rewrite list_lookup_fmap in Hi.
    destruct (seq 0 (Z.to_nat n) !! i) as [k|] eqn:Hk; [|done].
    apply lookup_seq in Hk as [-> _]. by injection Hi as <-.
Qed.

End BatchFiles.

Section BatchClient.

Variable env : Env.
Variable JSON_parse : string -> JS.Outcome (list Batch.JobInfo).

Lemma blank_text s :
  negb (JS.truthy s) || (String.length (JS.trim s) =? 0)%nat = true
  <-> JS.trim s = EmptyString.
Proof.
  destruct s as [|c r]; [done|]. cbn [JS.truthy negb orb].
  destruct (JS.trim (String c r)); cbn; split; done.
Qed.

(** X14. For a job id that is not blank [getDownloadInfo] never throws:
    whatever the network and the decoder do it returns a result for that id,
    after one to three calls of [fetch], all of them for the job list without
    parameters. The result carries download information exactly when its
    state is [done], and an error only with state [expired]; the download URL
    is the batch download path of the id, and file names are listed exactly
    when the job has more than one file, as many as it has files. *)
Theorem getDownloadInfo_total (jobId : string) (w : World) :
  JS.trim jobId <> EmptyString ->
  exists r events,
    fst (Batch.getDownloadInfo env JSON_parse jobId w) = JS.Returned r
    /\ trace (snd (Batch.getDownloadInfo env JSON_parse jobId w))
       = trace w ++ events
    /\ (1 <= attempts events <= 3)%nat
    /\ Forall (fun ev => is_fetch ev = true ->
                 ev = EvFetch (mkRequest "/v0/batch.list_jobs" [])) events
    /\ Batch.job_id r = jobId
    /\ (is_Some (Batch.download_info r) <-> Batch.result_state r = "done")
    /\ (is_Some (Batch.error r) -> Batch.result_state r = "expired")
    /\ forall info, Batch.download_info r = Some info ->
         Batch.info_id info = jobId
         /\ Batch.download_url info
            = Some ("https://hist.databento.com/v0/batch.download/" +:+ jobId)
         /\ (is_Some (Batch.filenames info)
             <-> exists n, Batch.info_file_count info = Some n /\ 1 < n)
         /\ forall names, Batch.filenames info = Some names ->
              length names
              = Z.to_nat (default 0 (Batch.info_file_count info)).
Proof.
  intros Hid. unfold Batch.getDownloadInfo.
  destruct (negb (JS.truthy jobId) || (String.length (JS.trim jobId) =? 0)%nat)
    eqn:Hblank; [by apply blank_text in Hblank|].
  unfold try_catch, Batch.listJobs. rewrite bind_run, bind_run.
  unfold HTTP.get. cbn [HTTP.defined_params omap list_omap].
  destruct (makeRequest_effects env "/v0/batch.list_jobs" [] w)
    as (events & Htr & _ & Hat & Hreq & _ & _).
  destruct (makeRequest env "/v0/batch.list_jobs" [] w) as [[response|e] w1];
    cbn [fst snd] in *.
  2:{ eexists. exists events. cbn. repeat split; try (done || lia).
      all: by intros [? ?]. }
  unfold Batch.parseJSON.
  destruct (JSON_parse response) as [jobs|e]; cbn [mret M_ret throw].
  2:{ eexists. exists events. cbn. repeat split; try (done || lia).
      all: by intros [? ?]. }
  destruct (find (fun j => String.eqb (Batch.id j) jobId) jobs) as [job|] eqn:Hfind.
  2:{ eexists. exists events. cbn. repeat split; try (done || lia).
      all: by intros [? ?]. }
  apply find_some in Hfind as [_ Hjob]. apply String.eqb_eq in Hjob.
  destruct (String.eqb_spec (Batch.state job) "done") as [Hdone|Hstate];
    cbn [negb].
  2:{ eexists. exists events. cbn. repeat split; try (done || lia).
      all: by intros [? ?]. }
  eexists. exists events. cbn [fst snd mret M_ret Batch.job_id
    Batch.download_info Batch.result_state Batch.error].
  repeat split; try (done || lia).
  - by intros [? ?].
  - by injection H as <-.
  - by injection H as <-.
  - injection H as <-. cbn [Batch.filenames Batch.info_file_count].
    destruct (Batch.file_count job) as [n|]; [|by intros [? ?]].
    destruct (Z.ltb_spec 1 n); [eauto|by intros [? ?]].
  - injection H as <-. cbn [Batch.filenames Batch.info_file_count].
    destruct (Batch.file_count job) as [n|]; [|by intros (? & ? & ?)].
    destruct (Z.ltb_spec 1 n); [done|]. intros (? & [= <-] & ?). lia.
  - injection H as <-. cbn [Batch.filenames Batch.info_file_count].
    intros names.
    destruct (Batch.file_count job) as [n|] eqn:Hn; [|done].
    destruct (Z.ltb_spec 1 n); [|done]. intros [= <-].
    unfold Batch.generateFilenames. rewrite Hn.
    destruct (Z.eqb_spec n 0); [lia|].
    by rewrite generateFilenames_loop_spec, app_nil_l, length_map, length_seq.
Qed.

Lemma date_prefix_not_blank s :
  has_date_prefix s = true -> JS.trim s <> EmptyString.
Proof.
  unfold has_date_prefix, after_date.
  destruct s as [|c r]; [done|].
  destruct (is_digit c) eqn:Hc.
  - intros _. unfold JS.trim.
    assert (Hws : JS.isWhiteSpace c = false).
    { revert Hc. unfold is_digit, JS.digit_value, JS.isWhiteSpace.
      rewrite <- (ascii_N_embedding c) at 1.
      destruct c as [[] [] [] [] [] [] [] []]; by vm_compute. }
    cbn [JS.trimStart]. rewrite Hws.
    destruct (trimEnd_keeps_head c r Hws) as [r' ->]. done.
  - do 9 (destruct r as [|? r]; [done|]). done.
Qed.

(** X15. [validateJobRequest] accepts exactly the requests with a dataset
    and a schema that are not blank, between 1 and 2000 symbols, a start that
    begins with a date of the form YYYY-MM-DD, and an end that is absent,
    empty or begins with such a date. What follows the date is not
    inspected. *)
Theorem validateJobRequest_accepts (params : Batch.JobRequest) :
  Batch.validateJobRequest params = JS.Returned tt
  <-> JS.trim (Batch.dataset params) <> EmptyString
      /\ (1 <= length (Batch.symbols params) <= 2000)%nat
      /\ JS.trim (Batch.schema params) <> EmptyString
      /\ has_date_prefix (Batch.start params) = true
      /\ (forall e, Batch.end_ params = Some e -> e <> EmptyString ->
            has_date_prefix e = true).
Proof.
  unfold Batch.validateJobRequest.
  pose proof (blank_text (Batch.dataset params)) as Hd.
  pose proof (blank_text (Batch.schema params)) as Hsc.
  pose proof (blank_text (Batch.start params)) as Hst.
  pose proof (date_prefix_not_blank (Batch.start params)) as Hprefix.
  destruct (negb (JS.truthy (Batch.dataset params)) || _).
  { split; [done|]. intros (Hx & _). by destruct Hx, Hd as [-> _]. }
  destruct (Nat.eqb_spec (length (Batch.symbols params)) 0) as [Hz|Hz].
  { split; [done|]. lia. }
  destruct (Nat.ltb_spec 2000 (length (Batch.symbols params))) as [Hmany|Hmany].
  { split; [done|]. lia. }
  destruct (negb (JS.truthy (Batch.schema params)) || _).
  { split; [done|]. intros (_ & _ & Hx & _). by destruct Hx, Hsc as [-> _]. }
  destruct (negb (JS.truthy (Batch.start params)) || _).
  { split; [done|]. intros (_ & _ & _ & Hx & _).
    destruct (Hprefix Hx). by apply Hst. }
  destruct (has_date_prefix (Batch.start params)); cbn [negb].
  2:{ split; [done|]. by intros (_ & _ & _ & Hx & _). }
  destruct (Batch.end_ params) as [e|].
  - destruct e as [|c r]; cbn [JS.truthy andb].
    + split; [|done]. intros _. repeat split; try (done || lia).
      * intros Hx. by destruct Hd as [_ Hd']; specialize (Hd' Hx).
      * intros Hx. by destruct Hsc as [_ Hsc']; specialize (Hsc' Hx).
      * by intros e [= <-].
    + destruct (has_date_prefix (String c r)) eqn:He; cbn [negb].
      * split; [|done]. intros _. repeat split; try (done || lia).
        -- intros Hx. by destruct Hd as [_ Hd']; specialize (Hd' Hx).
        -- intros Hx. by destruct Hsc as [_ Hsc']; specialize (Hsc' Hx).
        -- by intros e [= <-].
      * split; [done|]. intros (_ & _ & _ & _ & Hx).
        specialize (Hx _ eq_refl ltac:(done)). congruence.
  - split; [|done]. intros _. repeat split; try (done || lia).
    + intros Hx. by destruct Hd as [_ Hd']; specialize (Hd' Hx).
    + intros Hx. by destruct Hsc as [_ Hsc']; specialize (Hsc' Hx).
Qed.

End BatchClient.

(** The finished job of three files: its download information lists three
    names. *)
Lemma getDownloadInfo_total_witness :
  JS.trim "GLBX-20210101-ABC" <> EmptyString
  /\ exists r events,
       fst (Batch.getDownloadInfo (bars_env "[...]") one_done_job
              "GLBX-20210101-ABC" empty_world) = JS.Returned r
       /\ trace (snd (Batch.getDownloadInfo (bars_env "[...]") one_done_job
                        "GLBX-20210101-ABC" empty_world))
          = trace empty_world ++ events
       /\ (1 <= attempts events <= 3)%nat
       /\ Forall (fun ev => is_fetch ev = true ->
                    ev = EvFetch (mkRequest "/v0/batch.list_jobs" [])) events
       /\ Batch.job_id r = "GLBX-20210101-ABC"
       /\ (is_Some (Batch.download_info r) <-> Batch.result_state r = "done")
       /\ (is_Some (Batch.error r) -> Batch.result_state r = "expired")
       /\ forall info, Batch.download_info r = Some info ->
            Batch.info_id info = "GLBX-20210101-ABC"
            /\ Batch.download_url info
               = Some ("https://hist.databento.com/v0/batch.download/"
                       +:+ "GLBX-20210101-ABC")
            /\ (is_Some (Batch.filenames info)
                <-> exists n, Batch.info_file_count info = Some n /\ 1 < n)
            /\ forall names, Batch.filenames info = Some names ->
                 length names
                 = Z.to_nat (default 0 (Batch.info_file_count info)).
Proof.
  assert (Hid : JS.trim "GLBX-20210101-ABC" <> EmptyString)
    by (vm_compute; discriminate).
  split; [exact Hid|].
  exact (getDownloadInfo_total (bars_env "[...]") one_done_job
           "GLBX-20210101-ABC" empty_world Hid).
Defined.

Example getDownloadInfo_done :
  Batch.filenames
  <$> (match fst (Batch.getDownloadInfo (bars_env "[...]") one_done_job
                    "GLBX-20210101-ABC" empty_world) with
       | JS.Returned r => Batch.download_info r
       | JS.Thrown _ => None
       end)
  = Some (Some ["GLBX-20210101-ABC_0.csv.zst"; "GLBX-20210101-ABC_1.csv.zst";
                "GLBX-20210101-ABC_2.csv.zst"]).
Proof. vm_compute. reflexivity. Qed.

(** A blank job id is refused before any request; a network that is down
    gives a result with state [expired], not an exception. *)
Example getDownloadInfo_failures :
  Batch.getDownloadInfo (bars_env "[...]") one_done_job "  " empty_world
  = (JS.Thrown (JS.new_Error "Job ID is required"), empty_world)
  /\ Batch.result_state
     <$> (match fst (Batch.getDownloadInfo
                       (mkEnv (stepping_clock 0 1) failing_network)
                       one_done_job "GLBX-20210101-ABC" empty_world) with
          | JS.Returned r => Some r
          | JS.Thrown _ => None
          end)
     = Some "expired".
Proof. split; vm_compute; reflexivity. Qed.

(** ** The reference client *)

Section ReferenceClient.

(** X16. The adjustment built from a row of the response does not depend
    on the column [volume_adj_factor]: setting or removing it changes
    nothing, and without a non-empty [volume_factor] the volume factor is
    undefined. The price factor is 1 when neither [price_factor] nor
    [price_adj_factor] has a value, and the instrument id is never NaN. *)
Theorem adjustment_row_mapping (params : Reference.AdjustmentFactorsParams)
    (symbols : string) (row : gmap string string) (other : string) :
  let adjustment := Reference.adjustment_of_row params symbols row in
  Reference.adjustment_of_row params symbols
    (<["volume_adj_factor" := other]> row) = adjustment
  /\ Reference.adjustment_of_row params symbols
       (delete "volume_adj_factor" row) = adjustment
  /\ (given (row !! "volume_factor") = false ->
      Reference.volume_factor adjustment = None)
  /\ (given (row !! "price_factor") = false ->
      given (row !! "price_adj_factor") = false ->
      Reference.price_factor adjustment = 1%float)
  /\ PrimFloat.is_nan (Reference.instrument_id adjustment) = false.
Proof.
  cbv zeta.
  assert (Hvol : forall adj : option string,
    (if given (row !! "volume_factor") then
       Some (JS.parseFloat
               (JS.ToString (or_else (row !! "volume_factor") adj)))
     else None)
    = (if given (row !! "volume_factor") then
         Some (JS.parseFloat
                 (JS.ToString
                    (or_else (row !! "volume_factor")
                       (row !! "volume_adj_factor"))))
       else None)).
  { intros adj. unfold given, or_else.
    destruct (row !! "volume_factor") as [s|]; [|done].
    by destruct (JS.truthy s). }
  split; [|split; [|split; [|split]]].
  - assert (Hk : forall key, key <> "volume_adj_factor" ->
      <["volume_adj_factor" := other]> row !! key = row !! key)
      by (intros key Hkey; by apply lookup_insert_ne).
    unfold Reference.adjustment_of_row.
    rewrite (Hk "instrument_id"), (Hk "symbol"), (Hk "effective_date"),
      (Hk "ts_event"), (Hk "price_factor"), (Hk "price_adj_factor"),
      (Hk "volume_factor"), (Hk "reason"), (Hk "action_type") by done.
    by rewrite Hvol.
  - assert (Hk : forall key, key <> "volume_adj_factor" ->
      delete "volume_adj_factor" row !! key = row !! key)
      by (intros key Hkey; by apply lookup_delete_ne).
    unfold Reference.adjustment_of_row.
    rewrite (Hk "instrument_id"), (Hk "symbol"), (Hk "effective_date"),
      (Hk "ts_event"), (Hk "price_factor"), (Hk "price_adj_factor"),
      (Hk "volume_factor"), (Hk "reason"), (Hk "action_type") by done.
    by rewrite Hvol.
  - unfold Reference.adjustment_of_row. cbn [Reference.volume_factor].
    by intros ->.
  - unfold Reference.adjustment_of_row. cbn [Reference.price_factor].
    unfold given, or_text, or_else. intros Hp Ha.
    destruct (row !! "price_factor") as [p|];
      destruct (row !! "price_adj_factor") as [a|];
      rewrite ?Hp, ?Ha; try rewrite Hp; try rewrite Ha;
      by vm_compute.
  - unfold Reference.adjustment_of_row. cbn [Reference.instrument_id].
    unfold Reference.or_zero.
    destruct (PrimFloat.is_nan (JS.parseInt _)) eqn:Hnan; [done|].
    cbn [orb]. by destruct (PrimFloat.is_zero _).
Qed.

End ReferenceClient.

(** * Decoding rows *)

Section Decoding.

Lemma digit_value_char d :
  (d < 10)%N -> JS.digit_value (pretty_N_char d) = Some d.
Proof.
  intros Hd.
  assert (Hcases : d = 0%N \/ d = 1%N \/ d = 2%N \/ d = 3%N \/ d = 4%N
                   \/ d = 5%N \/ d = 6%N \/ d = 7%N \/ d = 8%N \/ d = 9%N)
    by lia.
  repeat (destruct Hcases as [->|Hcases]; [reflexivity|]).
  by subst.
Qed.

(** Reading the decimal text of a number gives the number back. *)
Lemma read_digits_pretty_go x :
  exists k : nat,
    ((0 < x)%N -> (0 < k)%nat)
    /\ forall s acc count,
         JS.read_digits JS.digit_value 10 (pretty_N_go x s) acc count
         = JS.read_digits JS.digit_value 10 s
             (acc * 10 ^ N.of_nat k + x)%N (count + k)%nat.
Proof.
  induction (N.lt_wf_0 x) as [x _ IH].
  destruct (decide (0 < x)%N) as [Hx|Hx].
  - destruct (IH (x `div` 10)%N) as (k & _ & Hk); [by apply N.div_lt|].
    exists (S k). split; [lia|]. intros s acc count.
    rewrite pretty_N_go_step, Hk by done. cbn [JS.read_digits].
    rewrite digit_value_char by (by apply N.mod_lt).
    rewrite Nat2N.inj_succ, N.pow_succ_r'.
    pose proof (N.div_mod' x 10) as Hdm.
    f_equal; [|lia]. set (p := (10 ^ N.of_nat k)%N). lia.
  - exists 0%nat. split; [lia|]. intros s acc count.
    replace x with 0%N by lia. rewrite pretty_N_go_0. f_equal; lia.
Qed.

Lemma is_digit_char d : (d < 10)%N -> is_digit (pretty_N_char d) = true.
Proof. intros Hd. unfold is_digit. by rewrite digit_value_char. Qed.

Lemma all_digits_pretty_go x :
  forall s, all_digits s = true -> all_digits (pretty_N_go x s) = true.
Proof.
  induction (N.lt_wf_0 x) as [x _ IH]. intros s Hs.
  destruct (decide (0 < x)%N) as [Hx|Hx].
  - rewrite pretty_N_go_step by done. apply IH; [by apply N.div_lt|].
    unfold all_digits. cbn [all_chars].
    rewrite is_digit_char by (by apply N.mod_lt). exact Hs.
  - replace x with 0%N by lia. by rewrite pretty_N_go_0.
Qed.

(** The decimal text of a natural number: digits only, at least one, and
    read back as the number. *)
Lemma pretty_N_digits (n : N) :
  all_digits (pretty n) = true
  /\ exists k : nat,
       (0 < k)%nat
       /\ forall acc count,
            JS.read_digits JS.digit_value 10 (pretty n) acc count
            = ((acc * 10 ^ N.of_nat k + n)%N, (count + k)%nat, EmptyString).
Proof.
  unfold pretty, pretty_N.
  destruct (decide (n = 0%N)) as [->|Hn].
  - split; [done|]. exists 1%nat. split; [lia|]. intros acc count.
    cbn [JS.read_digits]. change (JS.digit_value "0") with (Some 0%N).
    cbn [JS.read_digits]. change (N.of_nat 1) with 1%N.
    rewrite N.pow_1_r. do 2 f_equal; lia.
  - split; [by apply all_digits_pretty_go|].
    destruct (read_digits_pretty_go n) as (k & Hk & Hread).
    exists k. split; [lia|]. intros acc count. by rewrite Hread.
Qed.

Lemma digit_not_space c : is_digit c = true -> JS.isWhiteSpace c = false.
Proof.
  unfold is_digit, JS.digit_value, JS.isWhiteSpace.
  destruct c as [[] [] [] [] [] [] [] []]; by vm_compute.
Qed.

Lemma digit_not_sign c :
  is_digit c = true ->
  c <> "-"%char /\ c <> "+"%char /\ c <> "I"%char /\ c <> "x"%char
  /\ c <> "X"%char /\ c <> "."%char /\ c <> ","%char.
Proof.
  unfold is_digit, JS.digit_value.
  destruct c as [[] [] [] [] [] [] [] []]; vm_compute; intros H;
    try discriminate; repeat split; discriminate.
Qed.

Lemma decimal_of_natural (n : N) :
  JS.decimal_to_number false n 0 = JS.Z_to_number (Z.of_N n).
Proof.
  destruct n as [|p]; [reflexivity|].
  unfold JS.decimal_to_number, JS.Z_to_number. cbn [Z.leb Z.compare Z.of_N].
  change (Z.to_pos (10 ^ 0)) with 1%positive. by rewrite Pos.mul_1_r.
Qed.

Lemma parseFloat_pretty (n : N) :
  JS.parseFloat (pretty n) = JS.Z_to_number (Z.of_N n).
Proof.
  destruct (pretty_N_digits n) as (Hall & k & Hk & Hread).
  unfold JS.parseFloat.
  destruct (pretty n) as [|c r] eqn:Hp.
  { specialize (Hread 0%N 0%nat). cbn in Hread. injection Hread. lia. }
  unfold all_digits in Hall. cbn [all_chars] in Hall.
  apply andb_prop in Hall as [Hc Hr].
  destruct (digit_not_sign c Hc) as (Hm & Hpl & HI & _).
  cbn [JS.trimStart]. rewrite (digit_not_space c Hc).
  assert (Hsign : JS.read_sign (String c r) = (false, String c r)).
  { unfold JS.read_sign.
    destruct c as [[] [] [] [] [] [] [] []]; try done. }
  rewrite Hsign.
  assert (Hinf : String.prefix "Infinity" (String c r) = false).
  { rewrite prefix_cons. by destruct (Ascii.ascii_dec "I" c) as [<-|]. }
  rewrite Hinf, Hread. cbn [JS.read_exponent].
  destruct k as [|k']; [lia|].
  rewrite N.mul_0_l, N.add_0_l. cbn [Nat.add Z.of_nat Z.sub Z.opp Z.add].
  apply decimal_of_natural.
Qed.

Lemma parseInt_pretty (n : N) :
  JS.parseInt (pretty n) = JS.Z_to_number (Z.of_N n).
Proof.
  destruct (pretty_N_digits n) as (Hall & k & Hk & Hread).
  unfold JS.parseInt.
  destruct (pretty n) as [|c r] eqn:Hp.
  { specialize (Hread 0%N 0%nat). cbn in Hread. injection Hread. lia. }
  unfold all_digits in Hall. cbn [all_chars] in Hall.
  apply andb_prop in Hall as [Hc Hr].
  cbn [JS.trimStart]. rewrite (digit_not_space c Hc).
  assert (Hsign : JS.read_sign (String c r) = (false, String c r)).
  { destruct (digit_not_sign c Hc) as (Hm & Hpl & _).
    unfold JS.read_sign.
    destruct c as [[] [] [] [] [] [] [] []]; try done. }
  rewrite Hsign.
  assert (Hdec :
    match String c r with
    | String "0" (String x r0) =>
        if Ascii.eqb x "x" || Ascii.eqb x "X"
        then JS.read_digits JS.hex_digit_value 16 r0 0%N 0%nat
        else JS.read_digits JS.digit_value 10 (String c r) 0%N 0%nat
    | _ => JS.read_digits JS.digit_value 10 (String c r) 0%N 0%nat
    end = JS.read_digits JS.digit_value 10 (String c r) 0%N 0%nat).
  { destruct r as [|x r0]; [by destruct c as [[] [] [] [] [] [] [] []]|].
    cbn [all_chars] in Hr. apply andb_prop in Hr as [Hx _].
    destruct (digit_not_sign x Hx) as (_ & _ & _ & Hx1 & Hx2 & _).
    destruct (Ascii.eqb_spec x "x"); [done|].
    destruct (Ascii.eqb_spec x "X"); [done|].
    by destruct c as [[] [] [] [] [] [] [] []]. }
  rewrite Hdec, Hread.
  destruct k as [|k']; [lia|].
  rewrite N.mul_0_l, N.add_0_l. cbn [Nat.add].
  apply decimal_of_natural.
Qed.

End Decoding.

Section Rows.

Lemma split_comma_free s :
  comma_free s = true -> JS.split JS.COMMA s = [s].
Proof.
  unfold comma_free. induction s as [|c r IH]; [done|].
  cbn [all_chars JS.split]. intros [Hc Hr]%andb_prop.
  apply negb_true_iff in Hc. rewrite Hc, IH by done. done.
Qed.

Lemma join_cons x y rest :
  Array_join "," (x :: y :: rest)
  = x +:+ String JS.COMMA (Array_join "," (y :: rest)).
Proof. reflexivity. Qed.

(** Splitting at commas undoes joining with commas, for fields without
    commas. *)
Lemma split_join (fields : list string) :
  fields <> [] -> Forall (fun f => comma_free f = true) fields ->
  JS.split JS.COMMA (Array_join "," fields) = fields.
Proof.
  induction fields as [|x [|y rest] IH]; [done| |].
  - intros _ [Hx _]%Forall_cons. by apply split_comma_free.
  - intros _ [Hx Hrest]%Forall_cons.
    rewrite join_cons, split_app_sep, split_comma_free by done.
    cbn [app]. by rewrite IH.
Qed.

(** X18. A row whose fields carry no comma and whose columns 0, 4, 5, 6, 7
    and 8 are the decimal texts of natural numbers decodes to the bar with
    those numbers (each rounded to the nearest float): the prices divided by
    1e9, the volume as it is, and the event time divided by 1e6 and rounded
    down, as milliseconds. The other columns are not read. *)
Theorem parse_bar_decodes (fields : list string)
    (ts_event o h l c v : N) :
  Forall (fun f => comma_free f = true) fields ->
  fields !! 0%nat = Some (pretty ts_event) ->
  fields !! 4%nat = Some (pretty o) ->
  fields !! 5%nat = Some (pretty h) ->
  fields !! 6%nat = Some (pretty l) ->
  fields !! 7%nat = Some (pretty c) ->
  fields !! 8%nat = Some (pretty v) ->
  parse_bar (Array_join "," fields)
  = {| bar_timestamp :=
         JS.Date_of_number
           (JS.Math_floor (JS.Z_to_number (Z.of_N ts_event) / 1000000)%float);
       open := (JS.Z_to_number (Z.of_N o) / 1e9)%float;
       high := (JS.Z_to_number (Z.of_N h) / 1e9)%float;
       low := (JS.Z_to_number (Z.of_N l) / 1e9)%float;
       close := (JS.Z_to_number (Z.of_N c) / 1e9)%float;
       volume := JS.Z_to_number (Z.of_N v) |}.
Proof.
  intros Hfree H0 H4 H5 H6 H7 H8. unfold parse_bar.
  rewrite split_join by (done || by intros ->).
  rewrite H0, H4, H5, H6, H7, H8. cbn [JS.ToString].
  by rewrite parseInt_pretty, !parseFloat_pretty.
Qed.

(** X19. A row whose fields carry no comma and whose columns 1, 13 and 14
    are the decimal texts of natural numbers decodes to the quote with bid
    and ask those numbers divided by 1e9, their midpoint as price, the event
    time of column 1 in milliseconds, and the age of that time at the clock
    reading given. *)
Theorem parse_quote_decodes (s : string) (fields : list string)
    (ts_event bid_px ask_px : N) (now : Z) :
  Forall (fun f => comma_free f = true) fields ->
  fields !! 1%nat = Some (pretty ts_event) ->
  fields !! 13%nat = Some (pretty bid_px) ->
  fields !! 14%nat = Some (pretty ask_px) ->
  let bidPx := (JS.Z_to_number (Z.of_N bid_px) / 1e9)%float in
  let askPx := (JS.Z_to_number (Z.of_N ask_px) / 1e9)%float in
  let event :=
    JS.Date_of_number
      (JS.Math_floor (JS.Z_to_number (Z.of_N ts_event) / 1000000)%float) in
  parse_quote s (Array_join "," fields) now
  = mkQuoteData s ((bidPx + askPx) / 2)%float bidPx askPx event
      (JS.Z_to_number now - JS.getTime event)%float.
Proof.
  intros Hfree H1 H13 H14. cbv zeta. unfold parse_quote.
  rewrite split_join by (done || by intros ->).
  rewrite H1, H13, H14. cbn [JS.ToString].
  by rewrite parseInt_pretty, !parseFloat_pretty.
Qed.

End Rows.

(** The first row of [hourly_csv_8]. *)
Lemma parse_bar_decodes_witness :
  Forall (fun f => comma_free f = true) hourly_fields
  /\ parse_bar
       "1609459200000000000,1,1,1234,4500000000000,4510000000000,4490000000000,4505000000000,1000"
     = mkBarData (JS.DateAt 1609459200000) 4500%float 4510%float 4490%float
         4505%float 1000%float.
Proof.
  assert (Hfree : Forall (fun f => comma_free f = true) hourly_fields)
    by (repeat constructor).
  split; [exact Hfree|].
  exact (parse_bar_decodes hourly_fields 1609459200000000000 4500000000000
           4510000000000 4490000000000 4505000000000 1000 Hfree
           eq_refl eq_refl eq_refl eq_refl eq_refl eq_refl).
Defined.

(** The last row of [quote_csv], read 20 s after its event time. *)
Lemma parse_quote_decodes_witness :
  Forall (fun f => comma_free f = true) quote_fields
  /\ parse_quote "ES" (Array_join "," quote_fields) 1609459221000 = es_quote.
Proof.
  assert (Hfree : Forall (fun f => comma_free f = true) quote_fields)
    by (repeat constructor).
  split; [exact Hfree|].
  exact (parse_quote_decodes "ES" quote_fields 1609459201000000000
           4500000000000 4502000000000 1609459221000 Hfree
           eq_refl eq_refl eq_refl).
Defined.

(** * The dates of a request *)

Section Calendar.

Lemma civil_from_days_year day :
  -354285 <= day <= 2932896 ->
  1000 <= (JS.civil_from_days day).1.1 <= 9999.
Proof.
  intros Hday. unfold JS.civil_from_days. cbv beta iota zeta. cbn [fst].
  set (z := day + 719468).
  set (era := z / 146097).
  set (doe := z - era * 146097).
  assert (Hera : 2 <= era <= 24).
  { subst era z. Z.to_euclidean_division_equations. lia. }
  assert (Hdoe : 0 <= doe <= 146096).
  { subst doe era. Z.to_euclidean_division_equations. lia. }
  assert (Hlow : era = 2 -> 72989 <= doe).
  { subst doe era z. Z.to_euclidean_division_equations. lia. }
  assert (Hhigh : era = 24 -> doe <= 146036).
  { subst doe era z. Z.to_euclidean_division_equations. lia. }
  clearbody doe. clearbody era. clear z Hday.
  set (yoe := (doe - doe / 1460 + doe / 36524 - doe / 146096) / 365).
  assert (Hyoe : 0 <= yoe <= 399).
  { subst yoe. Z.to_euclidean_division_equations. lia. }
  assert (Hyoe_low : era = 2 -> 199 <= yoe).
  { subst yoe. Z.to_euclidean_division_equations. lia. }
  set (doy := doe - (365 * yoe + yoe / 4 - yoe / 100)).
  assert (Hdoy : 0 <= doy <= 365).
  { subst doy yoe. Z.to_euclidean_division_equations. lia. }
  assert (Hdoy_low : era = 2 -> yoe = 199 -> 306 <= doy).
  { subst doy yoe. Z.to_euclidean_division_equations. lia. }
  assert (Hdoy_high : era = 24 -> yoe = 399 -> doy <= 305).
  { subst doy yoe. Z.to_euclidean_division_equations. lia. }
  clearbody doy. clearbody yoe. clear Hdoe Hlow Hhigh doe.
  set (mp := (5 * doy + 2) / 153).
  assert (Hmp : 0 <= mp <= 11 /\ (306 <= doy -> 10 <= mp)
                /\ (doy <= 305 -> mp <= 9)).
  { subst mp. Z.to_euclidean_division_equations. lia. }
  clearbody mp.
  destruct (Z.leb_spec (if mp <? 10 then mp + 3 else mp - 9) 2) as [Hm|Hm];
    destruct (Z.ltb_spec mp 10); lia.
Qed.

End Calendar.

Section RequestDates.

Variable env : Env.

Lemma split_free sep s :
  all_chars (fun c => negb (Ascii.eqb c sep)) s = true -> JS.split sep s = [s].
Proof.
  induction s as [|c r IH]; [done|].
  cbn [all_chars JS.split]. intros [Hc Hr]%andb_prop.
  apply negb_true_iff in Hc. rewrite Hc, IH by done. done.
Qed.

Lemma digit_not_T c : is_digit c = true -> Ascii.eqb c "T" = false.
Proof.
  unfold is_digit, JS.digit_value.
  destruct c as [[] [] [] [] [] [] [] []]; by vm_compute.
Qed.

Lemma date_only_no_T s :
  is_date_only s = true ->
  all_chars (fun c => negb (Ascii.eqb c "T")) s = true.
Proof.
  unfold is_date_only, after_date.
  do 10 (destruct s as [|? s]; [done|]).
  destruct s; [|by destruct (_ && _)].
  destruct (is_digit a) eqn:H1; [|done].
  destruct (is_digit a0) eqn:H2; [|done].
  destruct (is_digit a1) eqn:H3; [|done].
  destruct (is_digit a2) eqn:H4; [|done].
  destruct (Ascii.eqb_spec a3 "-") as [->|]; [|done].
  destruct (is_digit a4) eqn:H5; [|done].
  destruct (is_digit a5) eqn:H6; [|done].
  destruct (Ascii.eqb_spec a6 "-") as [->|]; [|done].
  destruct (is_digit a7) eqn:H7; [|done].
  destruct (is_digit a8) eqn:H8; [|done].
  intros _. cbn [all_chars].
  rewrite (digit_not_T a), (digit_not_T a0), (digit_not_T a1),
    (digit_not_T a2), (digit_not_T a4), (digit_not_T a5), (digit_not_T a7),
    (digit_not_T a8) by done.
  reflexivity.
Qed.

Lemma digits_four y : 1000 <= y <= 9999 -> JS.digits 4 y = pretty y.
Proof.
  intros Hy. pose proof (pretty_four y Hy) as Hfour.
  unfold JS.digits.
  assert (Hp : pretty (Z.to_N y) = pretty y) by (destruct y; done || lia).
  rewrite Hp.
  destruct (pretty y) as [|a [|b [|c [|d [|]]]]]; try done.
Qed.

(** In the years 1000 to 9999 the date part of [toISOString] is the
    calendar date of the day, and has the form YYYY-MM-DD. *)
Lemma iso_date_text t w :
  -30610224000000 <= t < YEAR_10000 ->
  iso_date (JS.DateAt t) w = (JS.Returned (date_text (JS.Day t)), w)
  /\ is_date_only (date_text (JS.Day t)) = true.
Proof.
  unfold YEAR_10000. intros Ht.
  assert (Hday : -354285 <= JS.Day t <= 2932896).
  { unfold JS.Day, JS.msPerDay. Z.to_euclidean_division_equations. lia. }
  pose proof (civil_from_days_year _ Hday) as Hyear.
  pose proof (civil_from_days_range (JS.Day t)) as Hrange.
  unfold iso_date, JS.toISOString, date_text.
  destruct (JS.civil_from_days (JS.Day t)) as [[y m] d].
  cbn [fst] in Hyear. destruct Hrange as [Hm Hd].
  assert (Hshape : is_date_only
    (JS.digits 4 y +:+ "-" +:+ JS.digits 2 m +:+ "-" +:+ JS.digits 2 d) = true).
  { rewrite digits_four by done.
    apply date_shape; [by apply pretty_four|apply digits_two; lia..]. }
  split; [|done].
  rewrite bind_run. unfold settle, JS.year_string.
  replace ((0 <=? y) && (y <=? 9999)) with true
    by (symmetry; apply andb_true_intro; split; apply Z.leb_le; lia).
  match goal with
  | |- context [JS.split "T"
                  (?a +:+ "-" +:+ ?b +:+ "-" +:+ ?c +:+ "T" +:+ ?rest)] =>
      replace (a +:+ "-" +:+ b +:+ "-" +:+ c +:+ "T" +:+ rest)
        with ((a +:+ "-" +:+ b +:+ "-" +:+ c) +:+ String "T" rest)
        by (by rewrite !append_assoc)
  end.
  rewrite split_app_sep, split_free by (by apply date_only_no_T).
  done.
Qed.

End RequestDates.

Section RequestWindows.

Variable env : Env.

Lemma four_digit_years_clip k :
  four_digit_years env ->
  JS.TimeClip (clock env k) = JS.DateAt (clock env k).
Proof.
  intros Hc. specialize (Hc k). unfold YEAR_10000 in Hc.
  apply TimeClip_time_value. unfold JS.time_value, JS.MAX_TIME. lia.
Qed.

Lemma setDate_back_day t days :
  0 <= t < YEAR_10000 -> 0 <= days <= 2000 ->
  JS.setDate_back (JS.DateAt t) days = JS.DateAt (t - days * JS.msPerDay)
  /\ JS.Day (t - days * JS.msPerDay) = JS.Day t - days
  /\ -30610224000000 <= t - days * JS.msPerDay < YEAR_10000.
Proof.
  unfold YEAR_10000. intros Ht Hdays. unfold JS.setDate_back.
  rewrite TimeClip_time_value
    by (unfold JS.time_value, JS.MAX_TIME, JS.msPerDay; lia).
  split; [done|]. unfold JS.Day, JS.msPerDay.
  split; [Z.to_euclidean_division_equations|]; lia.
Qed.

(** The request of the fetch path of [getQuote], when the clock reads [t]
    at [new Date()]: the seven days up to the day of [t]. *)
Lemma fetchQuote_window s databentoSymbol w :
  four_digit_years env -> SYMBOL_MAP !! s = Some databentoSymbol ->
  let today := JS.Day (clock env (clock_reads w)) in
  exists events,
    trace (snd (fetchQuote env s w)) = trace w ++ events
    /\ Forall (fun ev => is_fetch ev = true ->
         ev = EvFetch
                (mkRequest "/v0/timeseries.get_range"
                   [("dataset", DATASET); ("symbols", databentoSymbol);
                    ("stype_in", "continuous");
                    ("stype_out", "instrument_id");
                    ("start", date_text (today - 7));
                    ("end", date_text today);
                    ("schema", "mbp-1"); ("limit", "100")])) events
    /\ is_date_only (date_text (today - 7)) = true
    /\ is_date_only (date_text today) = true.
Proof.
  intros Hclock Hsym. cbv zeta.
  pose proof (Hclock (clock_reads w)) as Ht.
  destruct (setDate_back_day _ 7 Ht ltac:(lia)) as (Hback & Hday & Hrange).
  destruct (iso_date_text (clock env (clock_reads w) - 7 * JS.msPerDay)
              (tick w) Hrange) as [Hstart Hstart_shape].
  destruct (iso_date_text (clock env (clock_reads w)) (tick w)
              ltac:(unfold YEAR_10000 in *; lia)) as [Hend Hend_shape].
  rewrite Hday in Hstart, Hstart_shape.
  unfold fetchQuote. rewrite Hsym.
  rewrite bind_run, new_Date_run, four_digit_years_clip by done.
  rewrite Hback, bind_run, Hstart, bind_run, Hend, bind_run.
  match goal with
  | |- context [makeRequest env ?ep ?ps (tick w)] =>
      destruct (makeRequest_effects env ep ps (tick w))
        as (events & Htr & _ & _ & Hreq & _ & _);
      destruct (makeRequest env ep ps (tick w)) as [r w2]
  end.
  cbn [fst snd tick trace] in *.
  exists events. split; [|by split].
  destruct r as [response|e]; [|done].
  destruct (JS.truthy response); cbn [negb]; [|done].
  destruct (data_lines response) as [|line0 rest]; [done|].
  rewrite bind_run, Date_now_run, bind_run, Date_now_run.
  unfold priceCache_set, mret, M_ret. rewrite bind_run.
  by cbn [fst snd tick trace].
Qed.



End RequestWindows.

Lemma frozen_env_years body : four_digit_years (frozen_env body).
Proof.
  intros k. unfold YEAR_10000, frozen_env, frozen_clock. cbn [clock]. lia.
Defined.



(** * Well-formed bars *)

Section WellFormedBars.

Lemma last_elem_of {A : Type} (x d : A) (l : list A) :
  List.last (x :: l) d ∈ x :: l.
Proof.
  revert x. induction l as [|y l IH]; intros x; [by left|].
  change (List.last (x :: y :: l) d) with (List.last (y :: l) d).
  right. apply IH.
Qed.

Lemma aggregate_chunk_well_formed first rest :
  Forall well_formed_bar (first :: rest) ->
  well_formed_bar (aggregate_chunk first (first :: rest)).
Proof.
  intros Hall.
  assert (Hhighs : Forall (fun y => PrimFloat.is_nan y = false)
                     (high first :: map high rest)).
  { change (high first :: map high rest) with (high <$> first :: rest).
    apply Forall_fmap. eapply Forall_impl; [exact Hall|].
    by intros b (_ & Hh & _). }
  assert (Hlows : Forall (fun y => PrimFloat.is_nan y = false)
                    (low first :: map low rest)).
  { change (low first :: map low rest) with (low <$> first :: rest).
    apply Forall_fmap. eapply Forall_impl; [exact Hall|].
    by intros b (Hl & _). }
  destruct (Math_max_greatest _ _ Hhighs) as [Hmax_in Hmax].
  destruct (Math_min_least _ _ Hlows) as [Hmin_in Hmin].
  assert (Hhigh : forall b, b ∈ first :: rest ->
    (high b <=? JS.Math_max (high first :: map high rest))%float = true).
  { intros b Hb. rewrite Forall_forall in Hmax. apply Hmax.
    change (high first :: map high rest) with (high <$> first :: rest).
    by apply list_elem_of_fmap_2. }
  assert (Hlow : forall b, b ∈ first :: rest ->
    (JS.Math_min (low first :: map low rest) <=? low b)%float = true).
  { intros b Hb. rewrite Forall_forall in Hmin. apply Hmin.
    change (low first :: map low rest) with (low <$> first :: rest).
    by apply list_elem_of_fmap_2. }
  rewrite Forall_forall in Hall.
  assert (Hfirst : first ∈ first :: rest) by left.
  pose proof (last_elem_of first first rest) as Hlast.
  destruct (Hall _ Hfirst) as (_ & _ & Hlo & Hoh & _ & _).
  destruct (Hall _ Hlast) as (_ & _ & _ & _ & Hlc & Hch).
  unfold well_formed_bar, aggregate_chunk.
  cbn [low high open close map].
  rewrite Forall_forall in Hhighs, Hlows.
  repeat split.
  - by apply Hlows.
  - by apply Hhighs.
  - apply (leb_trans _ (low first)); [by apply Hlow|done].
  - apply (leb_trans _ (high first)); [done|by apply Hhigh].
  - apply (leb_trans _ (low (List.last (first :: rest) first)));
      [by apply Hlow|done].
  - apply (leb_trans _ (high (List.last (first :: rest) first)));
      [done|by apply Hhigh].
Qed.

(** X17. Aggregation keeps bars well formed: if in every 1-hour bar the
    prices are numbers with the open and the close between the low and the
    high, the same holds of every 4-hour bar. *)
Theorem aggregateToH4_well_formed (bars : list BarData) :
  Forall well_formed_bar bars -> Forall well_formed_bar (aggregateToH4 bars).
Proof.
  intros Hbars. unfold aggregateToH4.
  destruct (aggregateToH4_loop_spec bars (length bars) 0%nat [] ltac:(lia))
    as (pushed & -> & Hlen & Hpushed).
  cbn [app]. apply Forall_lookup. intros k out Hk.
  destruct (Hpushed k (lookup_lt_Some _ _ _ Hk))
    as (first & rest & Hchunk & Hout).
  rewrite Hk in Hout. injection Hout as ->.
  apply aggregate_chunk_well_formed.
  rewrite <- Hchunk. by apply Forall_take, Forall_drop.
Qed.

End WellFormedBars.

(** Five copies of one bar. *)
Lemma aggregateToH4_well_formed_witness :
  Forall well_formed_bar [flat_bar; flat_bar; flat_bar; flat_bar; flat_bar]
  /\ Forall well_formed_bar
       (aggregateToH4 [flat_bar; flat_bar; flat_bar; flat_bar; flat_bar]).
Proof.
  assert (Hbar : well_formed_bar flat_bar) by (by vm_compute).
  assert (Hbars : Forall well_formed_bar
                    [flat_bar; flat_bar; flat_bar; flat_bar; flat_bar])
    by (by repeat constructor).
  split; [exact Hbars|].
  exact (aggregateToH4_well_formed _ Hbars).
Defined.

(** * The two readers of tabular text *)

Section TwoDecoders.

Implicit Types (r a b : string).

Lemma trimEnd_cons c r :
  JS.trimEnd (String c r)
  = match JS.trimEnd r with
    | EmptyString =>
        if JS.isWhiteSpace c then EmptyString else String c EmptyString
    | r' => String c r'
    end.
Proof. reflexivity. Qed.

(** A line is blank exactly when nothing is left of it after [trimEnd]. *)
Lemma blank_trimEnd a : JS.truthy (JS.trim a) = JS.truthy (JS.trimEnd a).
Proof.
  unfold JS.trim. induction a as [|c a IH]; [done|].
  cbn [JS.trimStart]. destruct (JS.isWhiteSpace c) eqn:Hc.
  - rewrite IH, (trimEnd_cons c a). destruct (JS.trimEnd a); [|done].
    by rewrite Hc.
  - destruct (trimEnd_keeps_head c a Hc) as [r' ->]. done.
Qed.

(** The lines of a text that is all whitespace are blank. *)
Lemma split_blank r :
  JS.trimEnd r = EmptyString ->
  Forall (fun a => JS.trimEnd a = EmptyString) (JS.split JS.LF r).
Proof.
  induction r as [|c r IH]; [by repeat constructor|].
  rewrite trimEnd_cons. destruct (JS.trimEnd r) eqn:Hr; [|done].
  destruct (JS.isWhiteSpace c) eqn:Hc; [|done]. intros _.
  specialize (IH eq_refl). cbn [JS.split].
  destruct (Ascii.eqb c JS.LF); [by constructor|].
  destruct (JS.split JS.LF r) as [|h t] eqn:Hs;
    [by destruct (split_nonempty JS.LF r)|].
  apply Forall_cons in IH as [Hh Ht]. constructor; [|done].
  by rewrite trimEnd_cons, Hh, Hc.
Qed.

Lemma split_cons sep c r :
  JS.split sep (String c r)
  = if Ascii.eqb c sep then EmptyString :: JS.split sep r
    else match JS.split sep r with
         | h :: t => String c h :: t
         | [] => [String c EmptyString]
         end.
Proof. reflexivity. Qed.

Lemma blank_lines (rest : list string) :
  Forall (fun a => JS.trimEnd a = EmptyString) rest ->
  Forall2 (fun a b => JS.trimEnd a = JS.trimEnd b) rest
    (replicate (length rest) EmptyString).
Proof. induction 1; cbn; by constructor. Qed.

(** Line by line, a text and the text without its trailing whitespace differ
    only by whitespace at line ends and by blank lines at the end. *)
Lemma split_trimEnd r :
  exists n,
    Forall2 (fun a b => JS.trimEnd a = JS.trimEnd b)
      (JS.split JS.LF r)
      (JS.split JS.LF (JS.trimEnd r) ++ replicate n EmptyString).
Proof.
  induction r as [|c r (n & IH)]; [exists 0%nat; by repeat constructor|].
  rewrite trimEnd_cons.
  destruct (JS.trimEnd r) as [|d r'] eqn:Hr.
  - pose proof (split_blank r Hr) as Hblank.
    cbn [JS.split].
    destruct (Ascii.eqb_spec c JS.LF) as [->|Hlf].
    + exists (length (JS.split JS.LF r)). cbn [JS.isWhiteSpace].
      change (JS.isWhiteSpace JS.LF) with true. cbn [JS.split app].
      constructor; [done|]. by apply blank_lines.
    + destruct (JS.split JS.LF r) as [|h t] eqn:Hsplit;
        [by destruct (split_nonempty JS.LF r)|].
      apply Forall_cons in Hblank as [Hh Ht].
      exists (length t).
      destruct (JS.isWhiteSpace c) eqn:Hc; cbn [JS.split app].
      * constructor; [by rewrite trimEnd_cons, Hh, Hc|].
        by apply blank_lines.
      * destruct (Ascii.eqb_spec c JS.LF); [done|]. cbn [app].
        constructor;
          [rewrite !trimEnd_cons, Hh; cbn [JS.trimEnd]; by rewrite Hc|].
        by apply blank_lines.
  - exists n. rewrite (split_cons JS.LF c r), (split_cons JS.LF c (String d r')).
    destruct (Ascii.eqb c JS.LF).
    + cbn [app]. by constructor.
    + pose proof (split_nonempty JS.LF r) as Hne.
      pose proof (split_nonempty JS.LF (String d r')) as Hne'.
      destruct (JS.split JS.LF r) as [|h t]; [done|].
      destruct (JS.split JS.LF (String d r')) as [|h' t']; [done|].
      cbn [app] in *. apply Forall2_cons in IH as [Hh Ht].
      constructor; [|done]. by rewrite !trimEnd_cons, Hh.
Qed.

Lemma filter_same_blank (l l' : list string) :
  Forall2 (fun a b => JS.trimEnd a = JS.trimEnd b) l l' ->
  length (filter (fun line => JS.truthy (JS.trim line) = true) l)
  = length (filter (fun line => JS.truthy (JS.trim line) = true) l').
Proof.
  induction 1 as [|a b l l' Hab _ IH]; [done|].
  rewrite !filter_cons, !blank_trimEnd, Hab.
  destruct (decide (JS.truthy (JS.trimEnd b) = true)); cbn; by rewrite IH.
Qed.

Lemma filter_blank_lines n :
  filter (fun line => JS.truthy (JS.trim line) = true)
    (replicate n EmptyString) = [].
Proof. induction n as [|n IH]; [done|]. cbn [replicate]. by rewrite filter_cons. Qed.

(** X22. The two readers of tabular text agree on the number of rows: for
    a response that does not start with whitespace, the data lines that
    [getQuote] and [getHistoricalBars] keep are as many as the records that
    [parseCSV] decodes. *)
Theorem data_lines_agree (response : string) :
  JS.trimStart response = response ->
  length (data_lines response) = length (parseCSV response).
Proof.
  intros Hstart. unfold data_lines, parseCSV.
  replace (JS.trim response) with (JS.trimEnd response)
    by (unfold JS.trim; by rewrite Hstart).
  destruct (split_trimEnd response) as [n Hlines].
  pose proof (split_nonempty JS.LF response) as Hne.
  pose proof (split_nonempty JS.LF (JS.trimEnd response)) as Hne'.
  destruct (JS.split JS.LF response) as [|line0 rest]; [done|].
  destruct (JS.split JS.LF (JS.trimEnd response)) as [|line0' rest'];
    [done|].
  cbn [app] in Hlines. apply Forall2_cons in Hlines as [_ Hrest].
  rewrite length_map.
  assert (Hslice : JS.slice (line0 :: rest) 1 None = rest).
  { unfold JS.slice, JS.relative_index.
    change (1 <? 0) with false. cbn match.
    replace (Z.to_nat (Z.min 1 (Z.of_nat (length (line0 :: rest)))))
      with 1%nat by (cbn [length]; lia).
    cbn [drop]. apply take_ge. cbn [length]. lia. }
  rewrite Hslice.
  rewrite (filter_same_blank _ _ Hrest), filter_app, filter_blank_lines.
  by rewrite app_nil_r.
Qed.

End TwoDecoders.

Lemma data_lines_agree_witness :
  JS.trimStart hourly_csv_8 = hourly_csv_8
  /\ length (data_lines hourly_csv_8) = length (parseCSV hourly_csv_8).
Proof.
  split; [reflexivity|]. exact (data_lines_agree hourly_csv_8 eq_refl).
Defined.

(** A response that starts with a line break: [getQuote] and
    [getHistoricalBars] take the header for a row, [parseCSV] does not. *)
Example data_lines_leading_break :
  length (data_lines "
ts_event,open
1,2") = 2%nat
  /\ length (parseCSV "
ts_event,open
1,2") = 1%nat.
Proof. split; reflexivity. Qed.

(** * The reference client, end to end *)

Section ReferencePipeline.

Variable env : Env.

(** When the transport throws it has made its three attempts, and what it
    throws is the terminal error around the last failure. *)
Lemma makeRequest_failure endpoint params w e :
  fst (makeRequest env endpoint params w) = JS.Thrown e ->
  (exists last, e = terminal_error last)
  /\ trace (snd (makeRequest env endpoint params w))
     = trace w ++ [EvFetch (mkRequest endpoint params); EvSleep 1000;
                   EvFetch (mkRequest endpoint params); EvSleep 2000;
                   EvFetch (mkRequest endpoint params)].
Proof.
  unfold makeRequest. set (request := mkRequest endpoint params).
  rewrite makeRequest_loop_equation_1. cbn -[attempt_once].
  rewrite attempt_once_outcome.
  destruct (attempt_outcome (network env (fetch_calls w) request)) as [t1|e1];
    [done|].
  rewrite makeRequest_loop_equation_1. cbn -[attempt_once].
  rewrite attempt_once_outcome. cbn.
  destruct (attempt_outcome (network env (S (fetch_calls w)) request))
    as [t2|e2]; [done|].
  rewrite makeRequest_loop_equation_1. cbn -[attempt_once].
  rewrite attempt_once_outcome. cbn.
  destruct (attempt_outcome (network env (S (S (fetch_calls w))) request))
    as [t3|e3]; cbn; [done|].
  intros [= <-]. split; [by exists e3|]. by rewrite <- !app_assoc.
Qed.


End ReferencePipeline.

(** * The batch tool handlers *)

Section JobTally.

Implicit Types (acc : gmap string Z) (jobs : list Batch.JobInfo).

Lemma tally_insert acc job :
  BatchHandlers.tally acc job
  = <[Batch.state job := default 0 (acc !! Batch.state job) + 1]> acc.
Proof.
  unfold BatchHandlers.tally.
  destruct (acc !! Batch.state job) as [n|]; [|done]. cbn [from_option id].
  by destruct (Z.eqb_spec n 0) as [->|].
Qed.

Lemma tally_total_insert acc key n :
  tally_total (<[key := n]> acc) = tally_total acc - default 0 (acc !! key) + n.
Proof.
  unfold tally_total.
  destruct (acc !! key) as [m|] eqn:Hkey; cbn [from_option id].
  - rewrite <- insert_delete_eq.
    rewrite map_fold_insert_L; [|intros; lia|by rewrite lookup_delete_eq].
    rewrite (map_fold_delete_L _ _ key m acc); [|intros; lia|done].
    lia.
  - rewrite map_fold_insert_L; [lia|intros; lia|done].
Qed.

Lemma tally_fold_lookup jobs :
  forall acc s,
  fold_left BatchHandlers.tally jobs acc !! s
  = match length (filter (fun j => Batch.state j = s) jobs) with
    | O => acc !! s
    | S n => Some (default 0 (acc !! s) + Z.of_nat (S n))
    end.
Proof.
  induction jobs as [|job jobs IH]; intros acc s; [done|].
  cbn [fold_left]. rewrite IH, tally_insert, filter_cons.
  destruct (decide (Batch.state job = s)) as [<-|Hne].
  - rewrite lookup_insert_eq. cbn [length from_option id].
    destruct (length (filter _ jobs)); f_equal; lia.
  - by rewrite lookup_insert_ne.
Qed.

Lemma tally_fold_total jobs :
  forall acc,
  tally_total (fold_left BatchHandlers.tally jobs acc)
  = tally_total acc + Z.of_nat (length jobs).
Proof.
  induction jobs as [|job jobs IH]; intros acc; cbn [fold_left length]; [lia|].
  rewrite IH, tally_insert, tally_total_insert. lia.
Qed.


End JobTally.

Example jobs_by_state_three :
  BatchHandlers.jobs_by_state
    [done_job; Batch.mkJobInfo "B" "queued" "dbn" "zstd" None None None None
                 None None; done_job]
  = <["done" := 2]> (<["queued" := 1]> ∅).
Proof. by vm_compute. Qed.
